(** * PDFLoveMe backend: authorization, quota and page-range split

    A shallow embedding of [src/backend/server.js] (Express + Mongoose).

    - JavaScript strings are modelled as [string] (byte strings; the
      embedding is exact on ASCII input).
    - JavaScript numbers that the code uses as integers (counters,
      millisecond timestamps, page indices) are modelled as [Z]; a value
      that may be [NaN] ([parseInt]) is an [option Z] with [None] for
      [NaN].
    - The [User] collection is a list of documents in insertion order;
      the unique indexes declared in [userSchema] are enforced by
      [db_save].
    - An [async] function is a [Prog]: a tree whose nodes are the
      database operations it awaits. [run] executes a program alone,
      [interleave] executes two of them with a schedule that decides
      who performs the next database operation. *)

From Stdlib Require Import ZArith String Ascii List Lia Bool.
From stdpp Require Import base decidable option list strings.

Local Open Scope string_scope.
Local Open Scope list_scope.
Local Open Scope Z_scope.

(** ** JavaScript string primitives used by the server *)

Module JS.

(** [s.startsWith(p)] *)
Fixpoint startsWith (p s : string) : bool :=
  match p, s with
  | EmptyString, _ => true
  | String a p', String b s' => if decide (a = b) then startsWith p' s' else false
  | String _ _, EmptyString => false
  end.

(** [s.slice(n)] for [n >= 0] *)
Fixpoint slice (n : nat) (s : string) : string :=
  match n, s with
  | O, _ => s
  | S n', String _ s' => slice n' s'
  | S _, EmptyString => EmptyString
  end.

(** [s.includes(c)] for a one-character [c] *)
Fixpoint includes (c : ascii) (s : string) : bool :=
  match s with
  | EmptyString => false
  | String a s' => if decide (a = c) then true else includes c s'
  end.

(** [s.split(c)] for a one-character separator: the pieces between the
    separators, in order; never the empty list. *)
Fixpoint split (c : ascii) (s : string) : list string :=
  match s with
  | EmptyString => [EmptyString]
  | String a s' =>
      if decide (a = c) then EmptyString :: split c s'
      else match split c s' with
           | piece :: rest => String a piece :: rest
           | [] => [String a EmptyString]
           end
  end.

(** [s.replace(/c/g, '')] for a one-character pattern *)
Fixpoint remove_all (c : ascii) (s : string) : string :=
  match s with
  | EmptyString => EmptyString
  | String a s' => if decide (a = c) then remove_all c s' else String a (remove_all c s')
  end.

(** ASCII members of the WhiteSpace and LineTerminator productions:
    TAB, LF, VT, FF, CR, SP. *)
Definition is_space (a : ascii) : bool :=
  let n := N_of_ascii a in
  ((9 <=? n)%N && (n <=? 13)%N) || (n =? 32)%N.

Fixpoint trimStart (s : string) : string :=
  match s with
  | String a s' => if is_space a then trimStart s' else s
  | EmptyString => EmptyString
  end.

Fixpoint trimEnd (s : string) : string :=
  match s with
  | EmptyString => EmptyString
  | String a s' =>
      match trimEnd s' with
      | EmptyString => if is_space a then EmptyString else String a EmptyString
      | t => String a t
      end
  end.

(** [s.trim()] *)
Definition trim (s : string) : string := trimEnd (trimStart s).

Definition digit (a : ascii) : option Z :=
  let n := N_of_ascii a in
  if ((48 <=? n)%N && (n <=? 57)%N)%bool then Some (Z.of_N n - 48) else None.

(** The longest prefix of decimal digits of [s], read as a number with
    [acc] as the digits already consumed; [seen] records whether any
    digit was consumed. *)
Fixpoint digits (s : string) (acc : Z) (seen : bool) : option Z :=
  match s with
  | String a s' =>
      match digit a with
      | Some d => digits s' (10 * acc + d) true
      | None => if seen then Some acc else None
      end
  | EmptyString => if seen then Some acc else None
  end.

(** The Number nearest to the integer [z]: 53 significant bits, ties
    to the even significand. [2^1024] and its opposite stand for the
    two infinities, which is what an integer of that size rounds to. *)
Definition number (z : Z) : Z :=
  let m := Z.abs z in
  if m <? 2 ^ 53 then z
  else
    let e := Z.log2 m - 52 in
    let q := m / 2 ^ e in
    let r := m mod 2 ^ e in
    let q' := if (2 ^ (e - 1) <? r) || ((r =? 2 ^ (e - 1)) && Z.odd q) then q + 1 else q in
    Z.sgn z * Z.min (q' * 2 ^ e) (2 ^ 1024).

(** [parseInt(s, 10)]: skip leading white space, read an optional sign,
    then the longest run of decimal digits; the result is the Number
    nearest to the integer read, and [None] is [NaN]. *)
Definition parseInt (s : string) : option Z :=
  number <$>
  match trimStart s with
  | String "-" s' => Z.opp <$> digits s' 0 false
  | String "+" s' => digits s' 0 false
  | s' => digits s' 0 false
  end.

(** Truthiness of a value that is a string or [undefined]. *)
Definition truthy (v : option string) : bool :=
  match v with
  | Some s => negb (bool_decide (s = EmptyString))
  | None => false
  end.

(** [v || d] for string values *)
Definition or_else (v : option string) (d : string) : string :=
  match v with
  | Some s => if bool_decide (s = EmptyString) then d else s
  | None => d
  end.

(** [x >= l] where [l] may be [NaN]: any comparison with [NaN] is false. *)
Definition ge (x : Z) (l : option Z) : bool :=
  match l with
  | Some l => l <=? x
  | None => false
  end.

End JS.

(** ** Data model: [userSchema] *)

Definition ObjectId := string.

Inductive Plan := free | premium.

Record User := mkUser {
  _id : ObjectId;
  email : string;
  passwordHash : string;
  apiKey : option string;        (* unique, sparse: may be absent *)
  plan : Plan;
  createdAt : Z;                 (* milliseconds since the epoch *)
  dailyCount : Z;
  dailyReset : option Z          (* a Date, or null *)
}.

Global Instance Plan_eq_dec : EqDecision Plan.
Proof. solve_decision. Defined.

Global Instance User_eq_dec : EqDecision User.
Proof. solve_decision. Defined.

(** The paths of a document that the server assigns after loading it. *)
Inductive Path := p_apiKey | p_plan | p_dailyCount | p_dailyReset.

Global Instance Path_eq_dec : EqDecision Path.
Proof. solve_decision. Defined.

(** A Mongoose document held by a request: its own copy of the fields,
    whether it was created by [new User] and not saved yet, and the
    paths assigned since it was loaded or saved. *)
Record Doc := mkDoc {
  fields : User;
  isNew : bool;
  modifiedPaths : list Path
}.

Definition with_apiKey (v : option string) (u : User) : User :=
  mkUser (_id u) (email u) (passwordHash u) v (plan u) (createdAt u)
         (dailyCount u) (dailyReset u).
Definition with_plan (v : Plan) (u : User) : User :=
  mkUser (_id u) (email u) (passwordHash u) (apiKey u) v (createdAt u)
         (dailyCount u) (dailyReset u).
Definition with_dailyCount (v : Z) (u : User) : User :=
  mkUser (_id u) (email u) (passwordHash u) (apiKey u) (plan u) (createdAt u)
         v (dailyReset u).
Definition with_dailyReset (v : option Z) (u : User) : User :=
  mkUser (_id u) (email u) (passwordHash u) (apiKey u) (plan u) (createdAt u)
         (dailyCount u) v.

(** [doc.path = v]: Mongoose records the path as modified only when the
    value differs from the one the document holds. *)
Definition assign (p : Path) (u' : User) (d : Doc) : Doc :=
  if decide (u' = fields d) then d
  else mkDoc u' (isNew d)
             (if decide (p ∈ modifiedPaths d) then modifiedPaths d
              else p :: modifiedPaths d).

Definition set_apiKey (v : string) (d : Doc) : Doc :=
  assign p_apiKey (with_apiKey (Some v) (fields d)) d.
Definition set_plan (v : Plan) (d : Doc) : Doc :=
  assign p_plan (with_plan v (fields d)) d.
Definition set_dailyCount (v : Z) (d : Doc) : Doc :=
  assign p_dailyCount (with_dailyCount v (fields d)) d.
Definition set_dailyReset (v : Z) (d : Doc) : Doc :=
  assign p_dailyReset (with_dailyReset (Some v) (fields d)) d.

(** ** The [User] collection *)

Definition Store := list User.

Inductive Query :=
| ByEmail (e : option string)    (* { email }, where email may be undefined *)
| ByApiKey (k : string).         (* { apiKey } *)

Definition matches (q : Query) (u : User) : bool :=
  match q with
  | ByEmail e => bool_decide (Some (email u) = e)
  | ByApiKey k => bool_decide (apiKey u = Some k)
  end.

(** A document as returned by a query. A stored document holds every
    path that has a schema default, as all documents written through
    this schema do, so that hydration has no default to fill in; a
    stored [null] for [dailyReset] is handed on as [null]. *)
Definition hydrate (u : User) : Doc := mkDoc u false [].

(** [User.findOne(q)]: the first matching document, or [null]. *)
Definition db_findOne (q : Query) (s : Store) : option Doc :=
  hydrate <$> List.find (matches q) s.

(** [User.findById(id)] *)
Definition db_findById (i : ObjectId) (s : Store) : option Doc :=
  hydrate <$> List.find (fun u => bool_decide (_id u = i)) s.

Inductive Exn :=
| JsonWebTokenError              (* jwt.verify: malformed token or bad signature *)
| TokenExpiredError              (* jwt.verify: token past its expiry *)
| DuplicateKeyError              (* E11000: a unique index is violated *)
| DocumentNotFoundError          (* save of a document that is not stored *)
| BcryptError                    (* bcrypt called without data or hash *)
| TypeError                      (* property access on undefined *)
| RangeError                     (* an array grown past its maximal length *)
| EncodingError.                 (* pdf-lib: the font cannot encode a character *)

(** [$set] of one modified path, taken from the document [src]. *)
Definition apply_path (src : User) (p : Path) (dst : User) : User :=
  match p with
  | p_apiKey => with_apiKey (apiKey src) dst
  | p_plan => with_plan (plan src) dst
  | p_dailyCount => with_dailyCount (dailyCount src) dst
  | p_dailyReset => with_dailyReset (dailyReset src) dst
  end.

(** The stored document after the update that [save] sends. *)
Definition patch (d : Doc) (u : User) : User :=
  foldr (apply_path (fields d)) u (modifiedPaths d).

(** Would storing key [k] for document [i] violate the unique sparse
    index on [apiKey]? *)
Definition apiKey_taken (i : ObjectId) (k : option string) (s : Store) : bool :=
  match k with
  | Some k => existsb (fun u => bool_decide (apiKey u = Some k) && negb (bool_decide (_id u = i))) s
  | None => false
  end.

Definition email_taken (e : string) (s : Store) : bool :=
  existsb (fun u => bool_decide (email u = e)) s.

Definition id_taken (i : ObjectId) (s : Store) : bool :=
  existsb (fun u => bool_decide (_id u = i)) s.

(** [doc.save()]: an insert for a new document, otherwise an update of
    the modified paths of the stored document with the same [_id]. The
    unique indexes on [_id], [email] and [apiKey] reject duplicates. *)
Definition db_save (d : Doc) (s : Store) : Exn + Store :=
  let u := fields d in
  if isNew d then
    if id_taken (_id u) s || email_taken (email u) s || apiKey_taken (_id u) (apiKey u) s
    then inl DuplicateKeyError
    else inr (s ++ [u])
  else
    if negb (id_taken (_id u) s) then inl DocumentNotFoundError
    else if bool_decide (p_apiKey ∈ modifiedPaths d) && apiKey_taken (_id u) (apiKey u) s
    then inl DuplicateKeyError
    else inr (map (fun v => if bool_decide (_id v = _id u) then patch d v else v) s).

(** The document object after a successful [save]. *)
Definition saved (d : Doc) : Doc := mkDoc (fields d) false [].

(** ** Asynchronous programs over the collection *)

(** An [async] function body. Every node other than [Ret] and [Throw]
    is one awaited database operation; the continuation receives its
    result. Between two nodes other requests may run. *)
Inductive Prog (A : Type) : Type :=
| Ret (a : A)
| Throw (e : Exn)
| FindOne (q : Query) (k : option Doc -> Prog A)
| FindById (i : ObjectId) (k : option Doc -> Prog A)
| Save (d : Doc) (k : Exn + Doc -> Prog A).

Arguments Ret {A} a.
Arguments Throw {A} e.
Arguments FindOne {A} q k.
Arguments FindById {A} i k.
Arguments Save {A} d k.

Fixpoint bind {A B : Type} (f : A -> Prog B) (p : Prog A) : Prog B :=
  match p with
  | Ret a => f a
  | Throw e => Throw e
  | FindOne q k => FindOne q (fun r => bind f (k r))
  | FindById i k => FindById i (fun r => bind f (k r))
  | Save d k => Save d (fun r => bind f (k r))
  end.

Global Instance Prog_ret : MRet Prog := @Ret.
Global Instance Prog_bind : MBind Prog := @bind.

(** [try { p } catch(err) { h err }] *)
Fixpoint try_catch {A : Type} (p : Prog A) (h : Exn -> Prog A) : Prog A :=
  match p with
  | Ret a => Ret a
  | Throw e => h e
  | FindOne q k => FindOne q (fun r => try_catch (k r) h)
  | FindById i k => FindById i (fun r => try_catch (k r) h)
  | Save d k => Save d (fun r => try_catch (k r) h)
  end.

(** [await User.findOne(q)], [await User.findById(i)], [await d.save()] *)
Definition findOne (q : Query) : Prog (option Doc) := FindOne q Ret.
Definition findById (i : ObjectId) : Prog (option Doc) := FindById i Ret.
Definition save (d : Doc) : Prog Doc :=
  Save d (fun r => match r with inl e => Throw e | inr d' => Ret d' end).

(** A synchronous call that may throw. *)
Definition lift {A : Type} (r : Exn + A) : Prog A :=
  match r with inl e => Throw e | inr a => Ret a end.

(** One database operation of [p] against the store [s]. *)
Definition step {A : Type} (p : Prog A) (s : Store) : Prog A * Store :=
  match p with
  | Ret _ | Throw _ => (p, s)
  | FindOne q k => (k (db_findOne q s), s)
  | FindById i k => (k (db_findById i s), s)
  | Save d k =>
      match db_save d s with
      | inl e => (k (inl e), s)
      | inr s' => (k (inr (saved d)), s')
      end
  end.

(** [p] executed to completion with no other request in between:
    the final store and the value returned or the exception that
    escaped. *)
Fixpoint run {A : Type} (p : Prog A) (s : Store) : Store * (Exn + A) :=
  match p with
  | Ret a => (s, inr a)
  | Throw e => (s, inl e)
  | FindOne q k => run (k (db_findOne q s)) s
  | FindById i k => run (k (db_findById i s)) s
  | Save d k =>
      match db_save d s with
      | inl e => run (k (inl e)) s
      | inr s' => run (k (inr (saved d))) s'
      end
  end.

(** Two requests in flight. [sched] names, operation by operation, who
    goes next ([true]: the first request); a finished request that is
    scheduled does nothing. When the schedule ends the first request
    runs to completion, then the second. *)
Fixpoint interleave {A B : Type} (sched : list bool) (p : Prog A) (q : Prog B)
    (s : Store) : Store * (Exn + A) * (Exn + B) :=
  match sched with
  | true :: sched' => let '(p', s') := step p s in interleave sched' p' q s'
  | false :: sched' => let '(q', s') := step q s in interleave sched' p q' s'
  | [] =>
      let '(s1, a) := run p s in
      let '(s2, b) := run q s1 in
      (s2, a, b)
  end.

(** ** HTTP responses *)

Inductive Body :=
| Error (error : string)                                   (* { error } *)
| Credentials (token : string) (key : option string) (mail : string) (tier : Plan)
                                               (* { token, apiKey, user: { email, plan } } *)
| ApiKey (key : option string)                             (* { apiKey } *)
| Profile (mail : string) (tier : Plan) (key : option string)  (* { email, plan, apiKey } *)
| Ok.                                                      (* { ok: true } *)

Record Response := mkResponse { status : Z; body : Body }.

(** What a middleware does with a request: answer it, or call [next()]
    with [req.user] set. *)
Inductive Middleware :=
| Respond (r : Response)
| Next (user : Doc).

Record Headers := mkHeaders {
  x_api_key : option string;       (* req.header('x-api-key') *)
  authorization : option string    (* req.header('authorization') *)
}.

Record JwtPayload := mkPayload { payload_id : ObjectId; payload_email : string }.

(** [process.env] *)
Record Env := mkEnv {
  env_JWT_SECRET : option string;
  env_FREE_PLAN_LIMIT : option string
}.

Definition JWT_SECRET (env : Env) : string :=
  JS.or_else (env_JWT_SECRET env) "change_this_jwt_secret".

Definition FREE_LIMIT (env : Env) : option Z :=
  JS.parseInt (JS.or_else (env_FREE_PLAN_LIMIT env) "20").

(** [genApiKey()], given the value [uuidv4()] returned. *)
Definition genApiKey (uuid : string) : string :=
  ("pk_" ++ JS.remove_all "-" uuid)%string.

(** [new User({ email, passwordHash, apiKey, plan })] at time [now] with
    the fresh identifier [oid]: the schema defaults fill the rest. *)
Definition new_User (now : Z) (oid : ObjectId) (mail hash key : string) (tier : Plan) : Doc :=
  mkDoc (mkUser oid mail hash (Some key) tier now 0 (Some now)) true [].

Definition day : Z := 24 * 3600 * 1000.

(** [!user.dailyReset || (now - user.dailyReset) > 24*3600*1000] *)
Definition expired (now : Z) (reset : option Z) : bool :=
  match reset with
  | None => true
  | Some r => day <? now - r
  end.

(** ** The server *)

Section Server.

(** The process environment and the opaque primitives of the libraries
    the server calls. [jwt_verify token secret] is the result of
    [jwt.verify] at the moment of the call: the payload, or the
    exception thrown for a bad signature or an expired token. *)
Variable env : Env.
Variable jwt_verify : string -> string -> Exn + JwtPayload.
Variable jwt_sign : JwtPayload -> string -> Z -> string.
Variable bcrypt_hash : string -> string -> string.        (* password, salt *)
Variable bcrypt_compare : string -> string -> bool.       (* password, hash *)

Definition reply (code : Z) (msg : string) : Response := mkResponse code (Error msg).

(** Lines 60-63 of [authMiddleware]: the request carries an API key. *)
Definition auth_by_key (key : string) : Prog Middleware :=
  user ← findOne (ByApiKey key);
  match user with
  | None => Ret (Respond (reply 401 "Invalid API key"))
  | Some user => Ret (Next user)
  end.

(** Lines 65-74 of [authMiddleware]: no API key; a bearer token, or nothing. *)
Definition auth_by_token (auth : option string) : Prog Middleware :=
  match auth with
  | Some auth =>
      if JS.startsWith "Bearer " auth then
        let token := JS.slice 7 auth in
        payload ← lift (jwt_verify token (JWT_SECRET env));
        user ← findById (payload_id payload);
        match user with
        | None => Ret (Respond (reply 401 "Invalid token"))
        | Some user => Ret (Next user)
        end
      else Ret (Respond (reply 401 "No credentials"))
  | None => Ret (Respond (reply 401 "No credentials"))
  end.

(** [authMiddleware], lines 56-76. An empty [x-api-key] header is falsy
    and falls through to the bearer token. *)
Definition authMiddleware (req : Headers) : Prog Middleware :=
  try_catch
    (match x_api_key req with
     | Some key =>
         if JS.truthy (Some key) then auth_by_key key
         else auth_by_token (authorization req)
     | None => auth_by_token (authorization req)
     end)
    (fun err => Ret (Respond (reply 401 "Auth error"))).

(** Lines 82-86 of [enforceLimit]: the window rollover. *)
Definition rollover (now : Z) (user : Doc) : Prog Doc :=
  if expired now (dailyReset (fields user)) then
    save (set_dailyReset now (set_dailyCount 0 user))
  else Ret user.

(** Line 87. *)
Definition limit (user : Doc) : option Z :=
  match plan (fields user) with
  | premium => Some 1000000
  | free => FREE_LIMIT env
  end.

(** Lines 87-91 of [enforceLimit]: the limit check and the charge. *)
Definition charge (user : Doc) : Prog Middleware :=
  if JS.ge (dailyCount (fields user)) (limit user) then
    Ret (Respond (reply 429 "Daily API limit reached"))
  else
    user ← save (set_dailyCount (dailyCount (fields user) + 1) user);
    Ret (Next user).

(** [enforceLimit], lines 79-92, for [req.user = user] and
    [new Date() = now]. It has no [try]: an exception of [save] escapes. *)
Definition enforceLimit (now : Z) (user : Doc) : Prog Middleware :=
  user ← rollover now user;
  charge user.

(** A route [authMiddleware, enforceLimit, ...] up to the point where
    the handler of the operation starts. *)
Definition protected (now : Z) (req : Headers) : Prog Middleware :=
  r ← authMiddleware req;
  match r with
  | Respond r => Ret (Respond r)
  | Next user => enforceLimit now user
  end.

(** [req.body] of the JSON routes. *)
Record Form := mkForm {
  form_email : option string;
  form_password : option string;
  form_plan : option string
}.

(** [POST /api/auth/signup], lines 95-108. [now] is the clock, [oid]
    the identifier of the new document, [salt] and [uuid] the random
    values drawn by [bcrypt.hash] and [uuidv4]. *)
Definition signup (now : Z) (oid : ObjectId) (salt uuid : string) (form : Form)
    : Prog Response :=
  try_catch
    (if negb (JS.truthy (form_email form)) || negb (JS.truthy (form_password form)) then
       Ret (reply 400 "email & password required")
     else
       existing ← findOne (ByEmail (form_email form));
       match existing with
       | Some _ => Ret (reply 400 "Email exists")
       | None =>
           let mail := default "" (form_email form) in
           let hash := bcrypt_hash (default "" (form_password form)) salt in
           let key := genApiKey uuid in
           let tier := if bool_decide (form_plan form = Some "premium") then premium else free in
           user ← save (new_User now oid mail hash key tier);
           let token := jwt_sign (mkPayload (_id (fields user)) (email (fields user)))
                                 (JWT_SECRET env) now in
           Ret (mkResponse 200 (Credentials token (Some key) (email (fields user))
                                            (plan (fields user))))
       end)
    (fun err => Ret (reply 500 "Signup failed")).

(** [bcrypt.compare(password, hash)]: rejects when the password is
    missing. *)
Definition compare_password (password : option string) (hash : string) : Exn + bool :=
  match password with
  | Some pw => inr (bcrypt_compare pw hash)
  | None => inl BcryptError
  end.

(** [POST /api/auth/login], lines 111-121. *)
Definition login (now : Z) (form : Form) : Prog Response :=
  try_catch
    (user ← findOne (ByEmail (form_email form));
     match user with
     | None => Ret (reply 400 "Invalid credentials")
     | Some user =>
         ok ← lift (compare_password (form_password form) (passwordHash (fields user)));
         if negb ok then Ret (reply 400 "Invalid credentials")
         else
           let token := jwt_sign (mkPayload (_id (fields user)) (email (fields user)))
                                 (JWT_SECRET env) now in
           Ret (mkResponse 200 (Credentials token (apiKey (fields user))
                                            (email (fields user)) (plan (fields user))))
     end)
    (fun err => Ret (reply 500 "Login failed")).

(** The handler of [POST /api/auth/regenerate], lines 125-130, for
    [req.user = user] and [uuidv4() = uuid]. *)
Definition regenerate (uuid : string) (user : Doc) : Prog Response :=
  try_catch
    (user ← save (set_apiKey (genApiKey uuid) user);
     Ret (mkResponse 200 (ApiKey (apiKey (fields user)))))
    (fun err => Ret (reply 500 "Regenerate failed")).

(** The route [POST /api/auth/regenerate]: [authMiddleware], then the
    handler. *)
Definition regenerateApiKey (uuid : string) (req : Headers) : Prog Response :=
  r ← authMiddleware req;
  match r with
  | Respond r => Ret r
  | Next user => regenerate uuid user
  end.

(** [GET /api/me], lines 134-137. *)
Definition me (req : Headers) : Prog Response :=
  r ← authMiddleware req;
  match r with
  | Respond r => Ret r
  | Next user =>
      Ret (mkResponse 200 (Profile (email (fields user)) (plan (fields user))
                                   (apiKey (fields user))))
  end.

(** [POST /api/admin/promote], lines 250-260. *)
Definition promote (form : Form) : Prog Response :=
  try_catch
    (user ← findOne (ByEmail (form_email form));
     match user with
     | None => Ret (reply 404 "No user")
     | Some user =>
         _ ← save (set_plan premium user);
         Ret (mkResponse 200 Ok)
     end)
    (fun err => Ret (reply 500 "Promote failed")).

End Server.

(** ** [POST /api/split] *)

Section Split.

(** A page is opaque: the handler only copies pages. *)
Variable Page : Type.

(** The page that [addPage()] creates when it is given none. *)
Variable blank : Page.

(** The number of elements the runtime lets an array hold: a [push]
    beyond it throws [RangeError]. *)
Variable max_length : nat.

(** The uploaded file as [PDFDocument.load] sees it. *)
Inductive Upload :=
| ValidPdf (pages : list Page)
| CorruptPdf.

Record SplitRequest := mkSplitRequest {
  file : option Upload;            (* req.file *)
  body_pages : option string;      (* req.body.pages *)
  query_pages : option string      (* req.query.pages *)
}.

Inductive Reply :=
| Json (r : Response)
| Download (filename : string) (pages : list Page).  (* the pages of the file sent *)

Definition PDFDocument_load (data : Upload) : Exn + list Page :=
  match data with
  | ValidPdf pages => inr pages
  | CorruptPdf => inl TypeError
  end.

(** [srcPages[i]]: [undefined] unless [i] is an index of [src]. *)
Definition page_at (src : list Page) (i : option Z) : option Page :=
  match i with
  | Some i => if 0 <=? i then src !! Z.to_nat i else None
  | None => None
  end.

(** [outPdf.copyPages(src, indices)]: the pages in the order of
    [indices]; an index without a page throws. *)
Fixpoint copyPages (src : list Page) (indices : list (option Z)) : Exn + list Page :=
  match indices with
  | [] => inr []
  | i :: rest =>
      match page_at src i with
      | None => inl TypeError
      | Some p =>
          match copyPages src rest with
          | inl e => inl e
          | inr ps => inr (p :: ps)
          end
      end
  end.

(** [doc.save()] of pdf-lib: a document without pages is given one
    blank page before it is written. *)
Definition PDFDocument_save (doc : list Page) : list Page :=
  match doc with
  | [] => [blank]
  | _ => doc
  end.

(** [req.body.pages || req.query.pages] *)
Definition pagesQuery (req : SplitRequest) : option string :=
  if JS.truthy (body_pages req) then body_pages req else query_pages req.

(** [pagesToKeep.push(x)] *)
Definition push (x : option Z) (pagesToKeep : list (option Z)) : Exn + list (option Z) :=
  if decide (length pagesToKeep < max_length)%nat then inr (pagesToKeep ++ [x])
  else inl RangeError.

(** [for(let i=a;i<=b;i++) pagesToKeep.push(i-1)], line 174, from the
    value [i] on. The arithmetic is that of Numbers, so that [i++]
    leaves a large [i] as it is and the loop goes on until a [push]
    throws; [fuel] counts the iterations that the array has room for. *)
Fixpoint for_range (fuel : nat) (i b : Z) (pagesToKeep : list (option Z))
    : Exn + list (option Z) :=
  if i <=? b then
    match fuel with
    | O => inl RangeError
    | S fuel =>
        match push (Some (JS.number (i - 1))) pagesToKeep with
        | inl e => inl e
        | inr pagesToKeep => for_range fuel (JS.number (i + 1)) b pagesToKeep
        end
    end
  else inr pagesToKeep.

(** The body of [parts.forEach], lines 172-177: what one part does to
    [pagesToKeep]. [NaN] bounds make the loop run zero times; [NaN - 1]
    is [NaN]. *)
Definition part_pages (p : string) (pagesToKeep : list (option Z)) : Exn + list (option Z) :=
  if JS.includes "-" p then
    match (fun x => JS.parseInt (JS.trim x)) <$> JS.split "-" p with
    | Some a :: Some b :: _ => for_range max_length a b pagesToKeep
    | _ => inr pagesToKeep
    end
  else push ((fun n => JS.number (n - 1)) <$> JS.parseInt (JS.trim p)) pagesToKeep.

(** [parts.forEach(p => ...)] over the parts that remain. *)
Fixpoint forEach_part (parts : list string) (pagesToKeep : list (option Z))
    : Exn + list (option Z) :=
  match parts with
  | [] => inr pagesToKeep
  | p :: rest =>
      match part_pages p pagesToKeep with
      | inl e => inl e
      | inr pagesToKeep => forEach_part rest pagesToKeep
      end
  end.

(** Lines 165-179: [pagesToKeep]. *)
Definition pagesToKeep (pagesQuery : option string) : Exn + list (option Z) :=
  match pagesQuery with
  | Some q =>
      if JS.truthy (Some q) then forEach_part (JS.split "," q) []
      else inr [Some 0]
  | None => inr [Some 0]
  end.

(** [i => i>=0 && i<total] *)
Definition in_range (total : Z) (i : option Z) : bool :=
  match i with
  | Some i => (0 <=? i) && (i <? total)
  | None => false
  end.

(** The handler of [POST /api/split], lines 158-189. *)
Definition split (req : SplitRequest) : Prog Reply :=
  try_catch
    (match file req with
     | None => Ret (Json (reply 400 "no file"))
     | Some data =>
         pdf ← lift (PDFDocument_load data);
         let total := Z.of_nat (length pdf) in
         keep ← lift (pagesToKeep (pagesQuery req));
         copied ← lift (copyPages pdf (List.filter (in_range total) keep));
         let outPdf := [] ++ copied in
         Ret (Download "split.pdf" (PDFDocument_save outPdf))
     end)
    (fun err => Ret (Json (reply 500 "Split failed"))).

End Split.

Arguments ValidPdf {Page} pages.
Arguments CorruptPdf {Page}.
Arguments mkSplitRequest {Page} file body_pages query_pages.
Arguments Json {Page} r.
Arguments Download {Page} filename pages.
Arguments page_at {Page} src i.
Arguments copyPages {Page} src indices.
Arguments PDFDocument_save {Page} blank doc.
Arguments split {Page} blank max_length req.
Arguments file {Page} s.
Arguments pagesQuery {Page} req.

(** ** Error kinds of the specification *)

Inductive ErrorKind :=
| InvalidInput | DuplicateAccount | InvalidCredentials | MissingCredentials
| InvalidApiKey | InvalidToken | AccountNotFound | QuotaExceeded | OperationFailed.

(** The kind an error response names, by its status and message. The
    catch-all ["Auth error"] of [authMiddleware] names none of them. *)
Definition kind_of (r : Response) : option ErrorKind :=
  match r with
  | mkResponse 400 (Error "email & password required") => Some InvalidInput
  | mkResponse 400 (Error "Email exists") => Some DuplicateAccount
  | mkResponse 400 (Error "Invalid credentials") => Some InvalidCredentials
  | mkResponse 401 (Error "No credentials") => Some MissingCredentials
  | mkResponse 401 (Error "Invalid API key") => Some InvalidApiKey
  | mkResponse 401 (Error "Invalid token") => Some InvalidToken
  | mkResponse 404 (Error "No user") => Some AccountNotFound
  | mkResponse 429 (Error "Daily API limit reached") => Some QuotaExceeded
  | mkResponse 500 (Error _) => Some OperationFailed
  | _ => None
  end.

(** ** Stores, resolved accounts and sequences of requests *)

(** The [_id] index. *)
Definition unique_ids (s : Store) : Prop := NoDup (_id <$> s).

(** The document stored under an identifier. *)
Definition stored (s : Store) (i : ObjectId) : option User :=
  List.find (fun u => bool_decide (_id u = i)) s.

(** The count an account is checked against at time [now]: zero when
    the window rolls over, the stored count otherwise. *)
Definition count_at (now : Z) (u : User) : Z :=
  if expired now (dailyReset u) then 0 else dailyCount u.

(** Requests served one after the other, each to completion, at the
    given times. *)
Fixpoint serve {A : Type} (handler : Z -> Prog A) (times : list Z) (s : Store)
    : Store * list (Exn + A) :=
  match times with
  | [] => (s, [])
  | t :: rest =>
      let '(s1, r) := run (handler t) s in
      let '(s2, rs) := serve handler rest s1 in
      (s2, r :: rs)
  end.

Definition admitted (r : Exn + Middleware) : bool :=
  match r with
  | inr (Next _) => true
  | _ => false
  end.

Definition quota_exceeded : Response := reply 429 "Daily API limit reached".

(** The store with the document that has the identifier of [u']
    replaced by [u']. *)
Definition put (u' : User) (s : Store) : Store :=
  (fun v => if bool_decide (_id v = _id u') then u' else v) <$> s.

(** The account after the window check of lines 82-86 at time [now]. *)
Definition rolled (now : Z) (u : User) : User :=
  if expired now (dailyReset u) then with_dailyReset (Some now) (with_dailyCount 0 u)
  else u.

(** The API key [key] resolves to a free account whose window started
    at [r] and whose count is [c]. *)
Definition metered (key : string) (r : Z) (s : Store) (c : Z) : Prop :=
  unique_ids s /\
  exists u, List.find (matches (ByApiKey key)) s = Some u /\
            plan u = free /\ dailyReset u = Some r /\ dailyCount u = c.

(** ** A sample deployment *)

Module Sample.

(** No variable set: the default secret and the default limit of 20. *)
Definition env : Env := mkEnv None None.

(** A deployment with [FREE_PLAN_LIMIT=2]. *)
Definition env2 : Env := mkEnv None (Some "2").

(** Stand-ins for [jsonwebtoken] and [bcrypt]: a token is the secret, a
    colon and the account identifier; a hash is the password itself. *)
Definition jwt_sign (payload : JwtPayload) (secret : string) (now : Z) : string :=
  (secret ++ ":" ++ payload_id payload)%string.

Definition jwt_verify (token secret : string) : Exn + JwtPayload :=
  if JS.startsWith (secret ++ ":")%string token
  then inr (mkPayload (JS.slice (S (String.length secret)) token) "")
  else inl JsonWebTokenError.

Definition bcrypt_hash (password salt : string) : string := password.

Definition bcrypt_compare (password hash : string) : bool :=
  bool_decide (password = hash).

(** A free account with one unit of the default quota left, in a
    window that started at time 1000. *)
Definition alice : User :=
  mkUser "a1" "alice@example.com" "wonderland" (Some "pk_alice") free 1000 19 (Some 1000).

(** A fresh free account. *)
Definition bob : User :=
  mkUser "b2" "bob@example.com" "builder" (Some "pk_bob") free 1000 0 (Some 1000).

End Sample.

(** ** Properties of programs *)

(** A program that never saves, whatever its queries return. *)
Inductive read_only {A : Type} : Prog A -> Prop :=
| ro_Ret (a : A) : read_only (Ret a)
| ro_Throw (e : Exn) : read_only (Throw e)
| ro_FindOne (q : Query) (k : option Doc -> Prog A) :
    (forall r, read_only (k r)) -> read_only (FindOne q k)
| ro_FindById (i : ObjectId) (k : option Doc -> Prog A) :
    (forall r, read_only (k r)) -> read_only (FindById i k).

(** [d] is a view of the stored document [u]: the two agree on every
    path that [d] does not record as modified. *)
Record tracks (d : Doc) (u : User) : Prop := mkTracks {
  tr_old : isNew d = false;
  tr_id : _id (fields d) = _id u;
  tr_email : email (fields d) = email u;
  tr_hash : passwordHash (fields d) = passwordHash u;
  tr_created : createdAt (fields d) = createdAt u;
  tr_apiKey : p_apiKey ∉ modifiedPaths d -> apiKey (fields d) = apiKey u;
  tr_plan : p_plan ∉ modifiedPaths d -> plan (fields d) = plan u;
  tr_dailyCount : p_dailyCount ∉ modifiedPaths d -> dailyCount (fields d) = dailyCount u;
  tr_dailyReset : p_dailyReset ∉ modifiedPaths d -> dailyReset (fields d) = dailyReset u
}.

(** A document as a query returns it: stored, with no pending change. *)
Definition pristine (s : Store) (d : Doc) : Prop :=
  fields d ∈ s /\ isNew d = false /\ modifiedPaths d = [].

(** Rely and guarantee: as long as every store the program meets
    satisfies [I], which other requests may change between two of its
    operations, each of its saves succeeds into a store that satisfies
    [I] or fails, and its outcome satisfies [Q]. *)
Fixpoint stable {A : Type} (I : Store -> Prop) (Q : Exn + A -> Prop) (p : Prog A) : Prop :=
  match p with
  | Ret a => Q (inr a)
  | Throw e => Q (inl e)
  | FindOne q k => forall s, I s -> stable I Q (k (db_findOne q s))
  | FindById i k => forall s, I s -> stable I Q (k (db_findById i s))
  | Save d k =>
      forall s, I s ->
        match db_save d s with
        | inl e => stable I Q (k (inl e))
        | inr s' => I s' /\ stable I Q (k (inr (saved d)))
        end
  end.

(** The account a body field [email] names. *)
Definition lookup_email (mail : option string) (s : Store) : option User :=
  List.find (matches (ByEmail mail)) s.

(** ** Contracts as the specification words them *)

(** Section 4.2, bearer token: [InvalidToken] when verification fails
    or the token is expired, [AccountNotFound] when the bound
    identifier no longer resolves, the bound account otherwise. *)
Definition bearer_contract (verified : Exn + JwtPayload) (s : Store)
    (out : Exn + Middleware) : Prop :=
  match verified with
  | inl _ => exists r, out = inr (Respond r) /\ kind_of r = Some InvalidToken
  | inr payload =>
      match stored s (payload_id payload) with
      | None => exists r, out = inr (Respond r) /\ kind_of r = Some AccountNotFound
      | Some u => out = inr (Next (hydrate u))
      end
  end.

(** Section 8: signup with an email that already exists fails with
    [DuplicateAccount] and does not alter the existing account. *)
Definition duplicate_signup_contract (s : Store) (form : Form)
    (out : Store * (Exn + Response)) : Prop :=
  is_Some (lookup_email (form_email form) s) ->
  out.1 = s /\ exists r, out.2 = inr r /\ kind_of r = Some DuplicateAccount.

(** Section 8: of two concurrent requests of one account exactly one is
    admitted and the other is rejected. *)
Definition exactly_one_admitted (a b : Exn + Middleware) : Prop :=
  (admitted a = true /\ b = inr (Respond quota_exceeded)) \/
  (a = inr (Respond quota_exceeded) /\ admitted b = true).

(** ** The server as a pool of requests in flight *)

(** A request arriving at the server, with the values its handler will
    draw from the clock and the random generators. *)
Inductive Call :=
| CallSignup (now : Z) (oid : ObjectId) (salt uuid : string) (form : Form)
| CallLogin (now : Z) (form : Form)
| CallRegenerate (uuid : string) (req : Headers)
| CallMe (req : Headers)
| CallProtected (now : Z) (req : Headers)   (* merge, split, compress, convert, sign *)
| CallPromote (form : Form).

(** The API keys a call generates. *)
Definition draws (c : Call) : list string :=
  match c with
  | CallSignup _ _ _ uuid _ => [genApiKey uuid]
  | CallRegenerate uuid _ => [genApiKey uuid]
  | _ => []
  end.

Record Server := mkServer {
  db : Store;
  inflight : list (Prog Middleware)
}.

Section Pool.

Variable env : Env.
Variable jwt_verify : string -> string -> Exn + JwtPayload.
Variable jwt_sign : JwtPayload -> string -> Z -> string.
Variable bcrypt_hash : string -> string -> string.
Variable bcrypt_compare : string -> string -> bool.

(** A handler that sends its response. *)
Definition answer (p : Prog Response) : Prog Middleware :=
  r ← p; Ret (Respond r).

(** The part of a call that touches the collection. *)
Definition handle (c : Call) : Prog Middleware :=
  match c with
  | CallSignup now oid salt uuid form =>
      answer (signup env jwt_sign bcrypt_hash now oid salt uuid form)
  | CallLogin now form => answer (login env jwt_sign bcrypt_compare now form)
  | CallRegenerate uuid req => answer (regenerateApiKey env jwt_verify uuid req)
  | CallMe req => answer (me env jwt_verify req)
  | CallProtected now req => protected env jwt_verify now req
  | CallPromote form => answer (promote form)
  end.

(** The states the server can reach from [σ] while no call generates
    the key [old]: calls arrive, and any request in flight performs its
    next operation. *)
Inductive future (old : string) (σ : Server) : Server -> Prop :=
| future_now : future old σ σ
| future_arrive (σ' : Server) (c : Call) :
    future old σ σ' -> old ∉ draws c ->
    future old σ (mkServer (db σ') (inflight σ' ++ [handle c]))
| future_advance (σ' : Server) (i : nat) (p : Prog Middleware) :
    future old σ σ' -> inflight σ' !! i = Some p ->
    future old σ (mkServer (step p (db σ')).2 (<[i := (step p (db σ')).1]> (inflight σ'))).

End Pool.

(** No stored account has the API key [old]. *)
Definition key_free (old : string) (s : Store) : Prop :=
  Forall (fun u => apiKey u <> Some old) s.

(** Saving [d] cannot store the key [old]. *)
Definition harmless (old : string) (d : Doc) : Prop :=
  (isNew d = true \/ p_apiKey ∈ modifiedPaths d) -> apiKey (fields d) <> Some old.

(** [d] is a stored document whose key was not assigned. *)
Definition unkeyed (d : Doc) : Prop :=
  isNew d = false /\ p_apiKey ∉ modifiedPaths d.

(** What resolution hands on has no assigned key. *)
Definition handed_on (r : Exn + Middleware) : Prop :=
  match r with
  | inr (Next user) => unkeyed user
  | _ => True
  end.

(** The API key [key] resolves to the free account with identifier [i]
    whose window started at [r] and whose count satisfies [P]. *)
Definition account_in (key : string) (r : Z) (i : ObjectId) (P : Z -> Prop) (s : Store) : Prop :=
  unique_ids s /\
  exists v, List.find (matches (ByApiKey key)) s = Some v /\ _id v = i /\
            plan v = free /\ dailyReset v = Some r /\ P (dailyCount v).

(** A schedule in which both requests load the account before either
    of them saves it. *)
Definition overlap (sched : list bool) : bool :=
  match sched with
  | true :: false :: _ => true
  | false :: true :: _ => true
  | [false] => true        (* the second loads, then the first runs to its end *)
  | _ => false
  end.

(** ** [POST /api/merge], [/api/compress] and [/api/sign] *)

Section Pdf.

Variable Page : Type.

(** The page that [addPage()] creates when it is given none. *)
Variable blank : Page.

(** [first.drawText(name, { x: width - 150, y: 40, size: 12, font, color })]
    with [width] the width of the page: the page with the label drawn
    on it, when the font can encode the label. *)
Variable drawText : string -> Page -> Page.

(** Whether the WinAnsi encoding of the standard font has every
    character of a text, for the texts that are not plain ASCII. *)
Variable font_encodes : string -> bool.

(** The characters from the space to the tilde. *)
Definition printable (a : ascii) : bool :=
  let n := N_of_ascii a in (32 <=? n)%N && (n <=? 126)%N.

Fixpoint all_printable (text : string) : bool :=
  match text with
  | EmptyString => true
  | String a text' => printable a && all_printable text'
  end.

(** Can [drawText] encode [text]? WinAnsi has every printable ASCII
    character; for any other text the font decides, and [drawText]
    throws when it cannot. *)
Definition encodes (text : string) : bool :=
  all_printable text || font_encodes text.

(** [pdf.getPageIndices()]: [0, 1, ..., pageCount - 1]. *)
Definition getPageIndices (pdf : list Page) : list (option Z) :=
  Some <$> seqZ 0 (Z.of_nat (length pdf)).

(** The loop of lines 144-149 over the files that remain, with the
    pages added to [mergedPdf] so far. *)
Fixpoint merge_files (files : list (Upload Page)) (mergedPdf : list Page)
    : Prog (list Page) :=
  match files with
  | [] => Ret mergedPdf
  | f :: rest =>
      pdf ← lift (PDFDocument_load Page f);
      copied ← lift (copyPages pdf (getPageIndices pdf));
      merge_files rest (mergedPdf ++ copied)
  end.

(** The handler of [POST /api/merge], lines 140-156, for [req.files]. *)
Definition merge (files : option (list (Upload Page))) : Prog (Reply Page) :=
  try_catch
    (match files with
     | None => Ret (Json (reply 400 "no files"))
     | Some fs =>
         if bool_decide (length fs = 0%nat) then Ret (Json (reply 400 "no files"))
         else
           mergedPdf ← merge_files fs [];
           Ret (Download "merged.pdf" (PDFDocument_save blank mergedPdf))
     end)
    (fun err => Ret (Json (reply 500 "Merge failed"))).

(** The handler of [POST /api/compress], lines 191-205, for [req.file]. *)
Definition compress (file : option (Upload Page)) : Prog (Reply Page) :=
  try_catch
    (match file with
     | None => Ret (Json (reply 400 "no file"))
     | Some data =>
         pdf ← lift (PDFDocument_load Page data);
         copied ← lift (copyPages pdf (getPageIndices pdf));
         let outPdf := [] ++ copied in
         Ret (Download "compressed.pdf" (PDFDocument_save blank outPdf))
     end)
    (fun err => Ret (Json (reply 500 "Compress failed"))).

Record SignRequest := mkSignRequest {
  sign_file : option (Upload Page);   (* req.file *)
  sign_name : option string           (* req.body.name *)
}.

(** The handler of [POST /api/sign], lines 230-247. [pages[0]] of a
    document without pages is [undefined], and [first.getSize()] then
    throws; [first.drawText] throws for a label that the font cannot
    encode. *)
Definition sign (req : SignRequest) : Prog (Reply Page) :=
  try_catch
    (match sign_file req with
     | None => Ret (Json (reply 400 "no file"))
     | Some data =>
         let name := JS.or_else (sign_name req) "Signed" in
         pdf ← lift (PDFDocument_load Page data);
         match pdf with
         | [] => Throw TypeError
         | first :: rest =>
             if encodes name then
               Ret (Download "signed.pdf" (PDFDocument_save blank (drawText name first :: rest)))
             else Throw EncodingError
         end
     end)
    (fun err => Ret (Json (reply 500 "Sign failed"))).

End Pdf.

Arguments getPageIndices {Page} pdf.
Arguments merge_files {Page} files mergedPdf.
Arguments merge {Page} blank files.
Arguments compress {Page} blank file.
Arguments mkSignRequest {Page} sign_file sign_name.
Arguments sign_file {Page} s.
Arguments sign_name {Page} s.
Arguments sign {Page} blank drawText font_encodes req.

(** ** Protected routes *)

Section Routes.

Variable env : Env.
Variable jwt_verify : string -> string -> Exn + JwtPayload.
Context {Page : Type}.

(** [app.post(path, authMiddleware, enforceLimit, upload, handler)]: the
    handler runs only when both middlewares call [next()]; [handler] is
    the handler applied to what the upload middleware parsed. *)
Definition route (now : Z) (req : Headers) (handler : Prog (Reply Page)) : Prog (Reply Page) :=
  r ← protected env jwt_verify now req;
  match r with
  | Respond r => Ret (Json r)
  | Next _ => handler
  end.

End Routes.

(** ** Invariants of the collection *)

(** An account as [signup] creates it and the ledger maintains it: a
    key made by [genApiKey], a count that is not negative, a window. *)
Definition healthy (u : User) : Prop :=
  0 <= dailyCount u /\ is_Some (dailyReset u) /\
  exists k, apiKey u = Some k /\ JS.startsWith "pk_" k = true.

(** Every account of [s0] is still in [s], with its identifier, email,
    password hash and creation time, and premium if it was premium. *)
Definition keeps (s0 s : Store) : Prop :=
  forall u, u ∈ s0 ->
    exists v, v ∈ s /\ _id v = _id u /\ email v = email u /\
              passwordHash v = passwordHash u /\ createdAt v = createdAt u /\
              (plan u = premium -> plan v = premium).

Section Evolution.

Variable env : Env.
Variable jwt_verify : string -> string -> Exn + JwtPayload.
Variable jwt_sign : JwtPayload -> string -> Z -> string.
Variable bcrypt_hash : string -> string -> string.
Variable bcrypt_compare : string -> string -> bool.

(** The states the server can reach from [σ]: any call arrives, and any
    request in flight performs its next operation. *)
Inductive evolves (σ : Server) : Server -> Prop :=
| evolves_now : evolves σ σ
| evolves_arrive (σ' : Server) (c : Call) :
    evolves σ σ' ->
    evolves σ (mkServer (db σ')
                 (inflight σ' ++ [handle env jwt_verify jwt_sign bcrypt_hash bcrypt_compare c]))
| evolves_advance (σ' : Server) (i : nat) (p : Prog Middleware) :
    evolves σ σ' -> inflight σ' !! i = Some p ->
    evolves σ (mkServer (step p (db σ')).2 (<[i := (step p (db σ')).1]> (inflight σ'))).

End Evolution.

(** A save of [d] never lowers a plan: a new document, or a stored one
    whose plan, if assigned, is premium. *)
Definition upgrades (d : Doc) : Prop :=
  isNew d = false -> p_plan ∈ modifiedPaths d -> plan (fields d) = premium.

(** ** The browser client: [src/frontend/src/App.jsx] *)

Module App.

Local Abbreviation server_signup := signup.
Local Abbreviation server_login := login.

(** [res.ok] *)
Definition ok (r : Response) : bool := (200 <=? status r) && (status r <=? 299).

(** The fields of the parsed response body [j] that the client reads;
    [None] is [undefined]. *)
Definition j_token (b : Body) : option string :=
  match b with
  | Credentials token _ _ _ => Some token
  | _ => None
  end.

Definition j_apiKey (b : Body) : option string :=
  match b with
  | Credentials _ key _ _ => key
  | ApiKey key => key
  | Profile _ _ key => key
  | _ => None
  end.

Definition j_error (b : Body) : option string :=
  match b with
  | Error error => Some error
  | _ => None
  end.

(** A value used where a string is expected: [undefined] becomes the
    text ["undefined"]. *)
Definition to_string (v : option string) : string := default "undefined" v.

Section Client.

Variable env : Env.
Variable jwt_verify : string -> string -> Exn + JwtPayload.
Variable jwt_sign : JwtPayload -> string -> Z -> string.
Variable bcrypt_hash : string -> string -> string.
Variable bcrypt_compare : string -> string -> bool.
Variable Page : Type.
Variable blank : Page.
Variable max_length : nat.
Variable drawText : string -> Page -> Page.
Variable font_encodes : string -> bool.

(** What the page shows or hands to the user. *)
Inductive Event :=
| Alert (text : string)                 (* alert('Choose file') *)
| AlertBody (r : Response)              (* alert(await res.text()) *)
| Saved (blob : Reply Page).            (* the download named 'result' *)

(** The state of the component, the two items of [localStorage], and
    the events so far. *)
Record State := mkState {
  email : string;
  password : string;
  token : option string;
  apiKey : option string;
  file : option (Upload Page);
  status : string;
  stored_token : option string;         (* localStorage 'token' *)
  stored_apiKey : option string;        (* localStorage 'apiKey' *)
  events : list Event
}.

(** The state when the component mounts with the given storage. *)
Definition mount (stored_token stored_apiKey : option string) : State :=
  mkState "" "" (Some (JS.or_else stored_token "")) (Some (JS.or_else stored_apiKey ""))
          None "" stored_token stored_apiKey [].

(** Lines 19 and 29: what the client does with the response to a
    signup or a login. *)
Definition credentials (done failed : string) (st : State) (res : Response) : State :=
  if ok res then
    mkState (email st) (password st) (j_token (body res)) (j_apiKey (body res))
            (file st) done
            (Some (to_string (j_token (body res))))
            (Some (to_string (j_apiKey (body res))))
            (events st)
  else
    mkState (email st) (password st) (token st) (apiKey st) (file st)
            (JS.or_else (j_error (body res)) failed)
            (stored_token st) (stored_apiKey st) (events st).

(** [signup(e)], lines 13-21, against the server; the server draws
    [now], [oid], [salt] and [uuid]. *)
Definition signup (now : Z) (oid : ObjectId) (salt uuid : string) (st : State) : Prog State :=
  res ← server_signup env jwt_sign bcrypt_hash now oid salt uuid
          (mkForm (Some (email st)) (Some (password st)) None);
  Ret (credentials "Signed up" "Signup failed" st res).

(** [login(e)], lines 23-31. *)
Definition login (now : Z) (st : State) : Prog State :=
  res ← server_login env jwt_sign bcrypt_compare now
          (mkForm (Some (email st)) (Some (password st)) None);
  Ret (credentials "Logged in" "Login failed" st res).

(** [pick(e)], line 33. *)
Definition pick (f : option (Upload Page)) (st : State) : State :=
  mkState (email st) (password st) (token st) (apiKey st) f ""
          (stored_token st) (stored_apiKey st) (events st).

(** The buttons of lines 69-73 whose routes are modelled. *)
Inductive Button := Merge | Split | Compress | Sign.

(** The handler that receives the form the button sends: the chosen
    file under the field the button names, and nothing else. *)
Definition handler (b : Button) (f : Upload Page) : Prog (Reply Page) :=
  match b with
  | Merge => merge blank (Some [f])
  | Split => split blank max_length (mkSplitRequest (Some f) None None)
  | Compress => compress blank (Some f)
  | Sign => sign blank drawText font_encodes (mkSignRequest (Some f) None)
  end.

(** [callApi(path, fieldName)], lines 35-47, for the route of a button:
    the request carries the header [x-api-key] and no other
    credential. *)
Definition callApi (now : Z) (b : Button) (st : State) : Prog State :=
  match file st with
  | None =>
      Ret (mkState (email st) (password st) (token st) (apiKey st) (file st) (status st)
                   (stored_token st) (stored_apiKey st) (events st ++ [Alert "Choose file"]))
  | Some f =>
      res ← route env jwt_verify now (mkHeaders (Some (to_string (apiKey st))) None)
              (handler b f);
      Ret (match res with
           | Json r =>
               if ok r then
                 mkState (email st) (password st) (token st) (apiKey st) (file st) "Done"
                         (stored_token st) (stored_apiKey st) (events st ++ [Saved res])
               else
                 mkState (email st) (password st) (token st) (apiKey st) (file st) "Error"
                         (stored_token st) (stored_apiKey st) (events st ++ [AlertBody r])
           | Download _ _ =>                       (* res.send: status 200 *)
               mkState (email st) (password st) (token st) (apiKey st) (file st) "Done"
                       (stored_token st) (stored_apiKey st) (events st ++ [Saved res])
           end)
  end.

End Client.

Arguments Alert {Page} text.
Arguments AlertBody {Page} r.
Arguments Saved {Page} blob.
Arguments mkState {Page} email password token apiKey file status stored_token stored_apiKey events.
Arguments email {Page} s.
Arguments password {Page} s.
Arguments token {Page} s.
Arguments apiKey {Page} s.
Arguments file {Page} s.
Arguments status {Page} s.
Arguments stored_token {Page} s.
Arguments stored_apiKey {Page} s.
Arguments events {Page} s.
Arguments mount {Page} stored_token stored_apiKey.
Arguments credentials {Page} done failed st res.
Arguments signup env jwt_sign bcrypt_hash {Page} now oid salt uuid st.
Arguments login env jwt_sign bcrypt_compare {Page} now st.
Arguments pick {Page} f st.
Arguments handler {Page} blank max_length drawText font_encodes b f.
Arguments callApi env jwt_verify {Page} blank max_length drawText font_encodes now b st.

End App.


(** Section 8, page-range split: out-of-range indices are silently
    dropped, never causing an error, so that the output is a document
    that holds pages of the input only. *)
Definition silent_drop_contract {Page : Type} (pdf : list Page) (out : Exn + Reply Page)
    : Prop :=
  exists pages, out = inr (Download "split.pdf" pages) /\ Forall (fun p => p ∈ pdf) pages.

(** ** Requests in flight *)

(** What holds of a request however long it has been in flight: every
    document that [p] saves satisfies [G] and its outcome satisfies
    [Q], whatever the collection holds when [p] reads or writes it. *)
Fixpoint guarded {A : Type} (G : Doc -> Prop) (Q : Exn + A -> Prop) (p : Prog A) : Prop :=
  match p with
  | Ret a => Q (inr a)
  | Throw e => Q (inl e)
  | FindOne q k => forall s, guarded G Q (k (db_findOne q s))
  | FindById i k => forall s, guarded G Q (k (db_findById i s))
  | Save d k => G d /\ (forall e, guarded G Q (k (inl e))) /\ guarded G Q (k (inr (saved d)))
  end.

(** No stored account other than the one with identifier [i] has the
    API key [old]. *)
Definition key_free_but (old : string) (i : ObjectId) (s : Store) : Prop :=
  Forall (fun u => _id u <> i -> apiKey u <> Some old) s.


(** * Properties *)

(** ** JavaScript primitives on sample inputs *)

Example parseInt_20 : JS.parseInt "20" = Some 20.
Proof. reflexivity. Qed.
Example parseInt_junk : JS.parseInt "abc" = None.
Proof. reflexivity. Qed.
Example parseInt_prefix : JS.parseInt " -12px" = Some (-12).
Proof. reflexivity. Qed.
Example split_commas : JS.split "," "1,,2-3" = ["1"; ""; "2-3"].
Proof. reflexivity. Qed.
Example trim_both : JS.trim "  2 " = "2".
Proof. reflexivity. Qed.
Example FREE_LIMIT_default : FREE_LIMIT (mkEnv None None) = Some 20.
Proof. reflexivity. Qed.
Example genApiKey_sample : genApiKey "ab-cd-ef" = "pk_abcdef".
Proof. reflexivity. Qed.

(** ** Numbers *)

Lemma number_safe (z : Z) : - 2 ^ 53 <= z <= 2 ^ 53 -> JS.number z = z.
Proof.
  intros Hz. unfold JS.number. destruct (Z.ltb_spec (Z.abs z) (2 ^ 53)) as [|Hge]; [reflexivity|].
  assert (z = 2 ^ 53 \/ z = - 2 ^ 53) as [-> | ->] by lia; reflexivity.
Qed.

(** Adding one to [2^53] gives [2^53]. *)
Lemma number_stuck : JS.number (2 ^ 53 + 1) = 2 ^ 53.
Proof. reflexivity. Qed.

(** ** Page-range split *)

Section SplitFacts.

Context {Page : Type}.
Variable blank : Page.
Variable max_length : nat.
Implicit Types (pdf : list Page) (i : option Z) (l : list (option Z)).

(** The filter of line 181 keeps exactly the indices that have a page. *)
Lemma in_range_page_at pdf i :
  in_range (Z.of_nat (length pdf)) i = true <-> is_Some (page_at pdf i).
Proof.
  destruct i as [i|]; simpl.
  - destruct (Z.leb_spec 0 i) as [Hi|Hi]; simpl.
    + rewrite Z.ltb_lt, lookup_lt_is_Some. lia.
    + split; [discriminate | intros [p Hp]; discriminate].
  - split; [discriminate | intros [p Hp]; discriminate].
Qed.

(** Copying the filtered indices never throws, and yields the pages of
    the requested indices that exist, in the order requested. *)
Lemma copyPages_filter pdf l :
  copyPages pdf (List.filter (in_range (Z.of_nat (length pdf))) l)
  = inr (omap (page_at pdf) l).
Proof.
  induction l as [|i l IH]; simpl; [reflexivity|].
  destruct (in_range (Z.of_nat (length pdf)) i) eqn:Hi.
  - apply in_range_page_at in Hi as [p Hp]. simpl. rewrite Hp, IH. reflexivity.
  - destruct (page_at pdf i) as [p|] eqn:Hp; [|exact IH].
    assert (in_range (Z.of_nat (length pdf)) i = true) as Hi'
      by (apply in_range_page_at; eauto).
    congruence.
Qed.

Lemma omap_all_None pdf l :
  Forall (fun i => page_at pdf i = None) l -> omap (page_at pdf) l = [].
Proof.
  induction 1 as [|i l Hi _ IH]; simpl; [reflexivity|]. rewrite Hi. exact IH.
Qed.

Lemma save_nonempty (doc : list Page) : doc <> [] -> PDFDocument_save blank doc = doc.
Proof. destruct doc; [contradiction | reflexivity]. Qed.

(** What the handler answers for a readable upload. *)
Lemma split_valid pdf bp qp s :
  run (split blank max_length (mkSplitRequest (Some (ValidPdf pdf)) bp qp)) s
  = (s, inr match pagesToKeep max_length
                    (pagesQuery (mkSplitRequest (Some (ValidPdf pdf)) bp qp)) with
            | inr keep =>
                Download "split.pdf" (PDFDocument_save blank (omap (page_at pdf) keep))
            | inl _ => Json (reply 500 "Split failed")
            end).
Proof.
  unfold split. cbn [file PDFDocument_load lift try_catch mbind Prog_bind bind].
  destruct (pagesToKeep _ _) as [e|keep]; [reflexivity|].
  cbn [lift try_catch mbind Prog_bind bind]. rewrite copyPages_filter. reflexivity.
Qed.

Lemma push_room (x : option Z) l :
  (length l < max_length)%nat -> push max_length x l = inr (l ++ [x]).
Proof. intros H. unfold push. rewrite decide_True by exact H. reflexivity. Qed.

(** A range between safe integers that the array has room for pushes
    the indices [a - 1] to [b - 1]. *)
Lemma for_range_safe (b : Z) (fuel : nat) :
  forall (a : Z) l,
    - 2 ^ 53 < a -> b < 2 ^ 53 ->
    (Z.to_nat (b - a + 1) <= fuel)%nat ->
    (length l + Z.to_nat (b - a + 1) <= max_length)%nat ->
    for_range max_length fuel a b l
    = inr (l ++ ((fun n : Z => Some (n - 1)) <$> seqZ a (b - a + 1))).
Proof.
  induction fuel as [|fuel IH]; intros a l Ha Hb Hfuel Hroom; cbn [for_range].
  - destruct (Z.leb_spec a b); [lia|]. rewrite seqZ_nil by lia. rewrite app_nil_r. reflexivity.
  - destruct (Z.leb_spec a b) as [Hab|Hab].
    + rewrite push_room by lia. rewrite !number_safe by lia.
      rewrite IH; [| lia | lia | lia | rewrite length_app; simpl; lia].
      rewrite (seqZ_cons a) by lia. rewrite fmap_cons, <- app_assoc. simpl.
      replace (Z.pred (b - a + 1)) with (b - (a + 1) + 1) by lia. reflexivity.
    + rewrite seqZ_nil by lia. rewrite app_nil_r. reflexivity.
Qed.

(** A range between safe integers that the array has no room for
    ends in [RangeError]. *)
Lemma for_range_full (b : Z) (fuel : nat) :
  forall (a : Z) l,
    - 2 ^ 53 < a -> b < 2 ^ 53 -> a <= b ->
    (max_length < length l + Z.to_nat (b - a + 1))%nat ->
    for_range max_length fuel a b l = inl RangeError.
Proof.
  induction fuel as [|fuel IH]; intros a l Ha Hb Hab Hroom; cbn [for_range];
    destruct (Z.leb_spec a b); try lia; [reflexivity|].
  unfold push. destruct (decide (length l < max_length)%nat) as [Hl|Hl]; [|reflexivity].
  rewrite number_safe by lia. apply IH; [lia | lia | | rewrite length_app; simpl; lia].
  destruct (Z.le_gt_cases (a + 1) b); [assumption|]. exfalso.
  replace (Z.to_nat (b - a + 1)) with 1%nat in Hroom by lia. lia.
Qed.

(** A range whose variable does not advance ends in [RangeError]
    whatever the room. *)
Lemma for_range_stuck (i b : Z) (fuel : nat) :
  JS.number (i + 1) = i -> i <= b ->
  forall l, for_range max_length fuel i b l = inl RangeError.
Proof.
  intros Hstuck Hib. induction fuel as [|fuel IH]; intros l; cbn [for_range];
    destruct (Z.leb_spec i b); try lia; [reflexivity|].
  destruct (push _ _ l) as [e|l'] eqn:Hpush.
  - unfold push in Hpush. destruct (decide _); [discriminate|]. congruence.
  - rewrite Hstuck. apply IH.
Qed.

(** A specification of one part. *)
Lemma pagesToKeep_one (p : string) :
  p <> "" -> JS.split "," p = [p] ->
  pagesToKeep max_length (Some p) = part_pages max_length p [].
Proof.
  intros Hp Hsplit. unfold pagesToKeep, JS.truthy.
  rewrite bool_decide_eq_false_2 by exact Hp. cbn [negb]. rewrite Hsplit.
  cbn [forEach_part]. destruct (part_pages _ _ _); reflexivity.
Qed.

(** A specification in the body is the one that counts. *)
Lemma split_body pdf (spec : string) qp s :
  spec <> "" ->
  run (split blank max_length (mkSplitRequest (Some (ValidPdf pdf)) (Some spec) qp)) s
  = (s, inr match pagesToKeep max_length (Some spec) with
            | inr keep =>
                Download "split.pdf" (PDFDocument_save blank (omap (page_at pdf) keep))
            | inl _ => Json (reply 500 "Split failed")
            end).
Proof.
  intros Hspec. rewrite split_valid. unfold pagesQuery, JS.truthy. cbn [body_pages].
  rewrite bool_decide_eq_false_2 by exact Hspec. reflexivity.
Qed.

(** The range from [2^53] to [2^53]. *)
Lemma pagesToKeep_stuck :
  pagesToKeep max_length (Some "9007199254740992-9007199254740992") = inl RangeError.
Proof.
  rewrite pagesToKeep_one by (discriminate || reflexivity). unfold part_pages.
  change (JS.includes "-" "9007199254740992-9007199254740992") with true. cbv iota.
  change ((fun x => JS.parseInt (JS.trim x)) <$> JS.split "-" "9007199254740992-9007199254740992")
    with [Some (2 ^ 53); Some (2 ^ 53)].
  cbv iota. apply for_range_stuck; [exact number_stuck | lia].
Qed.

End SplitFacts.

(** C9. On a 5-page document the pages specification ["2-3"] (in the
    body or in the query) yields exactly the second and third page, in
    that order, when an array can hold two elements. For every pages
    specification on every readable document, either building the list
    of kept pages fails and the answer is 500 ["Split failed"], or the
    answer is a document with the requested pages that exist, in the
    order requested, the out-of-range indices being dropped silently.
    When none of the requested pages exists the document sent holds
    one blank page, as for ["0,10"] on five pages. The range
    ["9007199254740992-9007199254740992"], whose only index is out of
    range, is answered 500 whatever an array can hold: adding one to
    the loop variable does not change it. *)
Theorem split_page_ranges (Page : Type) (blank : Page) (max_length : nat) :
  (2 <= max_length)%nat ->
  (forall (p1 p2 p3 p4 p5 : Page) qp s,
     run (split blank max_length
            (mkSplitRequest (Some (ValidPdf [p1; p2; p3; p4; p5])) (Some "2-3") qp)) s
     = (s, inr (Download "split.pdf" [p2; p3]))) /\
  (forall (p1 p2 p3 p4 p5 : Page) s,
     run (split blank max_length
            (mkSplitRequest (Some (ValidPdf [p1; p2; p3; p4; p5])) None (Some "2-3"))) s
     = (s, inr (Download "split.pdf" [p2; p3]))) /\
  (forall (pdf : list Page) bp qp s,
     let req := mkSplitRequest (Some (ValidPdf pdf)) bp qp in
     (exists e, pagesToKeep max_length (pagesQuery req) = inl e /\
                run (split blank max_length req) s = (s, inr (Json (reply 500 "Split failed")))) \/
     (exists keep, pagesToKeep max_length (pagesQuery req) = inr keep /\
                   run (split blank max_length req) s
                   = (s, inr (Download "split.pdf"
                                (PDFDocument_save blank (omap (page_at pdf) keep)))) /\
                   (Forall (fun i => page_at pdf i = None) keep ->
                    run (split blank max_length req) s
                    = (s, inr (Download "split.pdf" [blank]))))) /\
  (forall (p1 p2 p3 p4 p5 : Page) qp s,
     run (split blank max_length
            (mkSplitRequest (Some (ValidPdf [p1; p2; p3; p4; p5])) (Some "0,10") qp)) s
     = (s, inr (Download "split.pdf" [blank]))) /\
  (forall (pdf : list Page) qp s,
     run (split blank max_length
            (mkSplitRequest (Some (ValidPdf pdf))
               (Some "9007199254740992-9007199254740992") qp)) s
     = (s, inr (Json (reply 500 "Split failed")))).
Proof.
  intros Hroom.
  assert (pagesToKeep max_length (Some "2-3") = inr [Some 1; Some 2]) as H23.
  { rewrite pagesToKeep_one by (discriminate || reflexivity). unfold part_pages.
    change (JS.includes "-" "2-3") with true. cbv iota.
    change ((fun x => JS.parseInt (JS.trim x)) <$> JS.split "-" "2-3") with [Some 2; Some 3].
    cbv iota. rewrite for_range_safe by (simpl; lia). reflexivity. }
  assert (pagesToKeep max_length (Some "0,10") = inr [Some (-1); Some 9]) as H010.
  { unfold pagesToKeep. change (JS.truthy (Some "0,10")) with true. cbv iota.
    change (JS.split "," "0,10") with ["0"; "10"]. cbn [forEach_part].
    unfold part_pages. change (JS.includes "-" "0") with false.
    change (JS.includes "-" "10") with false. cbv iota.
    change ((fun n => JS.number (n - 1)) <$> JS.parseInt (JS.trim "0")) with (Some (-1)).
    change ((fun n => JS.number (n - 1)) <$> JS.parseInt (JS.trim "10")) with (Some 9).
    rewrite push_room by (simpl; lia). rewrite push_room by (simpl; lia). reflexivity. }
  split; [|split; [|split; [|split]]].
  - intros. rewrite split_body by discriminate. rewrite H23. reflexivity.
  - intros. rewrite split_valid. unfold pagesQuery. cbn [body_pages query_pages JS.truthy].
    rewrite H23. reflexivity.
  - clear H23 H010. intros pdf bp qp s req. unfold req. rewrite split_valid.
    destruct (pagesToKeep _ _) as [e|keep];
      [left; exists e; split; reflexivity | right].
    exists keep. split; [reflexivity|]. split; [reflexivity|].
    intros Hout. rewrite (omap_all_None _ _ Hout). reflexivity.
  - intros. rewrite split_body by discriminate. rewrite H010. reflexivity.
  - intros. rewrite split_body by discriminate. rewrite pagesToKeep_stuck. reflexivity.
Qed.

(** Five pages, a blank page [""] and room for eight indices. *)
Lemma split_page_ranges_witness :
  run (split "" 8 (mkSplitRequest (Some (ValidPdf ["a"; "b"; "c"; "d"; "e"])) (Some "2-3") None)) []
    = ([], inr (Download "split.pdf" ["b"; "c"])) /\
  run (split "" 8 (mkSplitRequest (Some (ValidPdf ["a"; "b"; "c"; "d"; "e"])) (Some "0,10") None)) []
    = ([], inr (Download "split.pdf" [""])) /\
  run (split "" 8 (mkSplitRequest (Some (ValidPdf ["a"; "b"; "c"; "d"; "e"]))
                     (Some "9007199254740992-9007199254740992") None)) []
    = ([], inr (Json (reply 500 "Split failed"))).
Proof.
  pose proof (split_page_ranges string "" 8 ltac:(lia)) as (H23 & _ & _ & H010 & Hbig).
  split; [apply H23 | split; [apply H010 | apply Hbig]].
Defined.

(** The contract of section 8 fails on five pages: the only index of
    the range is out of range and the answer is an error, and the
    out-of-range indices of ["0,10"] leave a page that the input does
    not have. *)
Lemma split_contract_counterexample :
  (forall max_length,
     ~ silent_drop_contract ["a"; "b"; "c"; "d"; "e"]
         (run (split "" max_length
                 (mkSplitRequest (Some (ValidPdf ["a"; "b"; "c"; "d"; "e"]))
                    (Some "9007199254740992-9007199254740992") None)) []).2) /\
  ~ silent_drop_contract ["a"; "b"; "c"; "d"; "e"]
      (run (split "" 8
              (mkSplitRequest (Some (ValidPdf ["a"; "b"; "c"; "d"; "e"]))
                 (Some "0,10") None)) []).2.
Proof.
  split.
  - intros max_length (pages & Hout & _).
    rewrite split_body, pagesToKeep_stuck in Hout by discriminate. discriminate Hout.
  - intros (pages & Hout & Hin). vm_compute in Hout. injection Hout as <-.
    apply Forall_cons in Hin as [Hin _]. vm_compute in Hin.
    repeat (apply elem_of_cons in Hin as [Hin|Hin]; [discriminate Hin|]).
    inversion Hin.
Qed.

(** C10. Without a pages specification, neither in the body nor in the
    query, the output holds exactly the first page of the input. An
    input without pages has no first page: the output is then the one
    blank page of every document saved without pages. An empty
    specification counts as none. *)
Theorem split_default_first_page (Page : Type) (blank : Page) (max_length : nat) :
  (forall (p : Page) (rest : list Page) s,
     run (split blank max_length (mkSplitRequest (Some (ValidPdf (p :: rest))) None None)) s
     = (s, inr (Download "split.pdf" [p]))) /\
  (forall s,
     run (split blank max_length (mkSplitRequest (Some (ValidPdf [])) None None)) s
     = (s, inr (Download "split.pdf" [blank]))) /\
  (forall (p : Page) (rest : list Page) bp qp s,
     JS.truthy bp = false -> JS.truthy qp = false ->
     run (split blank max_length (mkSplitRequest (Some (ValidPdf (p :: rest))) bp qp)) s
     = (s, inr (Download "split.pdf" [p]))).
Proof.
  split; [|split].
  - intros. rewrite split_valid. reflexivity.
  - intros. rewrite split_valid. reflexivity.
  - intros p rest bp qp s Hbp Hqp. rewrite split_valid. unfold pagesQuery.
    cbn [body_pages query_pages]. rewrite Hbp. unfold pagesToKeep.
    destruct qp as [q|]; [|reflexivity]. rewrite Hqp. reflexivity.
Qed.

(** An empty specification in the body and none in the query. *)
Lemma split_default_first_page_witness :
  run (split "" 8 (mkSplitRequest (Some (ValidPdf ["a"; "b"])) (Some "") None)) []
  = ([], inr (Download "split.pdf" ["a"])).
Proof.
  exact (proj2 (proj2 (split_default_first_page string "" 8)) "a" ["b"] (Some "") None []
           eq_refl eq_refl).
Defined.

(** ** Running programs *)

Lemma run_bind {A B : Type} (f : A -> Prog B) (p : Prog A) (s : Store) :
  run (p ≫= f) s
  = match run p s with
    | (s', inr a) => run (f a) s'
    | (s', inl e) => (s', inl e)
    end.
Proof.
  unfold mbind, Prog_bind. revert s.
  induction p as [a|e|q k IH|i k IH|d k IH]; intros s; simpl; auto.
  destruct (db_save d s); apply IH.
Qed.

Lemma run_try_catch {A : Type} (p : Prog A) (h : Exn -> Prog A) (s : Store) :
  run (try_catch p h) s
  = match run p s with
    | (s', inr a) => (s', inr a)
    | (s', inl e) => run (h e) s'
    end.
Proof.
  revert s.
  induction p as [a|e|q k IH|i k IH|d k IH]; intros s; simpl; auto.
  destruct (db_save d s); apply IH.
Qed.

Lemma run_save_ok (d : Doc) (s s' : Store) :
  db_save d s = inr s' -> run (save d) s = (s', inr (saved d)).
Proof. intros H. unfold save. simpl. rewrite H. reflexivity. Qed.

Lemma run_save_err (d : Doc) (s : Store) (e : Exn) :
  db_save d s = inl e -> run (save d) s = (s, inl e).
Proof. intros H. unfold save. simpl. rewrite H. reflexivity. Qed.

(** ** Looking up documents *)

Lemma find_some_elem {A} (P : A -> bool) (l : list A) (x : A) :
  List.find P l = Some x -> x ∈ l /\ P x = true.
Proof.
  intros H. apply find_some in H as [Hin HP]. split; [|exact HP].
  apply list_elem_of_In, Hin.
Qed.

Lemma find_map_stable {A} (P : A -> bool) (f : A -> A) (l : list A) :
  (forall x, P (f x) = P x) -> List.find P (map f l) = f <$> List.find P l.
Proof.
  intros HP. induction l as [|x l IH]; simpl; [reflexivity|].
  rewrite HP. destruct (P x); [reflexivity | exact IH].
Qed.

Lemma stored_elem (s : Store) (u : User) :
  unique_ids s -> u ∈ s -> stored s (_id u) = Some u.
Proof.
  unfold unique_ids, stored. induction s as [|v s IH]; intros Hnd Hin.
  - inversion Hin.
  - simpl in *. apply NoDup_cons in Hnd as [Hv Hnd].
    apply elem_of_cons in Hin as [->|Hin].
    + rewrite bool_decide_eq_true_2 by reflexivity. reflexivity.
    + rewrite bool_decide_eq_false_2; [auto|].
      intros Heq. apply Hv. rewrite Heq. apply list_elem_of_fmap. eauto.
Qed.

Lemma stored_id_taken (s : Store) (i : ObjectId) (u : User) :
  stored s i = Some u -> id_taken i s = true /\ _id u = i /\ u ∈ s.
Proof.
  unfold stored. intros H. apply find_some_elem in H as [Hin Hi].
  apply bool_decide_eq_true in Hi. split; [|auto].
  unfold id_taken. apply existsb_exists. exists u.
  split; [apply list_elem_of_In, Hin | apply bool_decide_eq_true, Hi].
Qed.

(** ** Documents and the update [save] sends *)

Lemma tracks_hydrate (u : User) : tracks (hydrate u) u.
Proof. split; reflexivity. Qed.


Lemma patch_fields (d : Doc) (u : User) :
  patch d u
  = mkUser (_id u) (email u) (passwordHash u)
      (if decide (p_apiKey ∈ modifiedPaths d) then apiKey (fields d) else apiKey u)
      (if decide (p_plan ∈ modifiedPaths d) then plan (fields d) else plan u)
      (createdAt u)
      (if decide (p_dailyCount ∈ modifiedPaths d) then dailyCount (fields d) else dailyCount u)
      (if decide (p_dailyReset ∈ modifiedPaths d) then dailyReset (fields d) else dailyReset u).
Proof.
  unfold patch. induction (modifiedPaths d) as [|p l IH]; simpl.
  - repeat case_decide; try (exfalso; eapply not_elem_of_nil; eassumption).
    destruct u; reflexivity.
  - rewrite IH. destruct p; simpl;
      unfold with_apiKey, with_plan, with_dailyCount, with_dailyReset; simpl;
      repeat case_decide;
      repeat match goal with
        | H : _ ∈ _ :: _ |- _ => apply elem_of_cons in H as [?|?]; try discriminate
        | H : ¬ (_ ∈ _ :: _) |- _ => rewrite not_elem_of_cons in H; destruct H
        end;
      try contradiction; try congruence; reflexivity.
Qed.

Lemma patch_tracks (d : Doc) (u : User) : tracks d u -> patch d u = fields d.
Proof.
  intros [Hn Hi He Hh Hc Hk Hp Hdc Hdr]. rewrite patch_fields.
  destruct (fields d) as [i e h k p c dc dr]; simpl in *.
  repeat case_decide; f_equal; auto; symmetry; auto.
Qed.

Lemma tracks_assign (p : Path) (u' : User) (d : Doc) (u : User) :
  tracks d u ->
  _id u' = _id (fields d) -> email u' = email (fields d) ->
  passwordHash u' = passwordHash (fields d) -> createdAt u' = createdAt (fields d) ->
  (p <> p_apiKey -> apiKey u' = apiKey (fields d)) ->
  (p <> p_plan -> plan u' = plan (fields d)) ->
  (p <> p_dailyCount -> dailyCount u' = dailyCount (fields d)) ->
  (p <> p_dailyReset -> dailyReset u' = dailyReset (fields d)) ->
  tracks (assign p u' d) u.
Proof.
  intros [Hn Hi He Hh Hc Hk Hp Hdc Hdr] Ei Ee Eh Ec Ek Ep Edc Edr.
  unfold assign. case_decide; [split; assumption|].
  assert (forall q, q ∉ (if decide (p ∈ modifiedPaths d) then modifiedPaths d
                          else p :: modifiedPaths d) -> q <> p /\ q ∉ modifiedPaths d) as Hq.
  { intros q Hq. case_decide.
    - split; [intros -> | assumption]. contradiction.
    - apply not_elem_of_cons in Hq. exact Hq. }
  split; simpl; try congruence.
  - intros Hm. apply Hq in Hm as [Hne Hm]. rewrite Ek by congruence. auto.
  - intros Hm. apply Hq in Hm as [Hne Hm]. rewrite Ep by congruence. auto.
  - intros Hm. apply Hq in Hm as [Hne Hm]. rewrite Edc by congruence. auto.
  - intros Hm. apply Hq in Hm as [Hne Hm]. rewrite Edr by congruence. auto.
Qed.

Lemma find_map_stable_in {A} (P : A -> bool) (f : A -> A) (l : list A) :
  (forall x, x ∈ l -> P (f x) = P x) -> List.find P (map f l) = f <$> List.find P l.
Proof.
  induction l as [|x l IH]; intros HP; simpl; [reflexivity|].
  rewrite HP by apply list_elem_of_here.
  destruct (P x); [reflexivity|].
  apply IH. intros y Hy. apply HP. apply list_elem_of_further, Hy.
Qed.

Lemma unique_ids_same (s : Store) (u v : User) :
  unique_ids s -> u ∈ s -> v ∈ s -> _id v = _id u -> v = u.
Proof.
  intros Hnd Hu Hv Heq.
  pose proof (stored_elem s u Hnd Hu) as H1.
  pose proof (stored_elem s v Hnd Hv) as H2.
  rewrite Heq in H2. congruence.
Qed.

Lemma put_ids (u' : User) (s : Store) : _id <$> put u' s = _id <$> s.
Proof.
  unfold put. rewrite <- list_fmap_compose. apply list_fmap_ext.
  intros j v _. simpl. case_bool_decide as Hid; [symmetry; exact Hid | reflexivity].
Qed.

Lemma put_unique_ids (u' : User) (s : Store) : unique_ids s -> unique_ids (put u' s).
Proof. unfold unique_ids. rewrite put_ids. auto. Qed.

Lemma put_stored (u' : User) (s : Store) (i : ObjectId) :
  stored (put u' s) i
  = (fun v => if bool_decide (_id v = _id u') then u' else v) <$> stored s i.
Proof.
  unfold stored, put. apply find_map_stable.
  intros v. destruct (decide (_id v = _id u')) as [Hid|Hid].
  - rewrite (bool_decide_eq_true_2 _ Hid), Hid. reflexivity.
  - rewrite (bool_decide_eq_false_2 _ Hid). reflexivity.
Qed.

Lemma put_stored_same (u' u : User) (s : Store) :
  stored s (_id u') = Some u -> stored (put u' s) (_id u') = Some u'.
Proof.
  intros H. rewrite put_stored, H. simpl.
  apply stored_id_taken in H as (_ & Hid & _).
  rewrite bool_decide_eq_true_2 by exact Hid. reflexivity.
Qed.


Lemma put_same (u : User) (s : Store) : unique_ids s -> u ∈ s -> put u s = s.
Proof.
  intros Hnd Hin. unfold put. rewrite <- (list_fmap_id s) at 2.
  apply list_fmap_ext. intros j v Hv. simpl. case_bool_decide; [|reflexivity].
  symmetry. eapply unique_ids_same; eauto.
  eapply list_elem_of_lookup_2; eauto.
Qed.

(** Saving a view of a stored document replaces that document by the
    fields of the view. *)
Lemma db_save_tracked (d : Doc) (u : User) (s : Store) :
  unique_ids s -> u ∈ s -> tracks d u ->
  bool_decide (p_apiKey ∈ modifiedPaths d) && apiKey_taken (_id u) (apiKey (fields d)) s = false ->
  db_save d s = inr (put (fields d) s).
Proof.
  intros Hnd Hin Htr Hfree. unfold db_save.
  rewrite (tr_old _ _ Htr), (tr_id _ _ Htr).
  destruct (stored_id_taken s (_id u) u (stored_elem s u Hnd Hin)) as [Htaken _].
  rewrite Htaken, Hfree. clear Hfree. simpl. f_equal.
  unfold put. apply list_fmap_ext. intros j v Hv. simpl.
  rewrite (tr_id _ _ Htr). case_bool_decide as Hid; [|reflexivity].
  assert (v = u) as ->.
  { eapply unique_ids_same; eauto. eapply list_elem_of_lookup_2; eauto. }
  apply patch_tracks, Htr.
Qed.


Lemma assign_fields (p : Path) (u' : User) (d : Doc) : fields (assign p u' d) = u'.
Proof. unfold assign. case_decide; [symmetry; assumption | reflexivity]. Qed.

Lemma assign_modified (p q : Path) (u' : User) (d : Doc) :
  q ∈ modifiedPaths (assign p u' d) -> q = p \/ q ∈ modifiedPaths d.
Proof.
  unfold assign. case_decide; [auto|]. simpl. case_decide; [auto|].
  intros Hq. apply elem_of_cons in Hq. exact Hq.
Qed.

Lemma tracks_set_dailyCount (v : Z) (d : Doc) (u : User) :
  tracks d u -> tracks (set_dailyCount v d) u.
Proof.
  intros H. apply tracks_assign; auto; intros Hp; try reflexivity; congruence.
Qed.

Lemma tracks_set_dailyReset (v : Z) (d : Doc) (u : User) :
  tracks d u -> tracks (set_dailyReset v d) u.
Proof.
  intros H. apply tracks_assign; auto; intros Hp; try reflexivity; congruence.
Qed.

Lemma tracks_set_apiKey (v : string) (d : Doc) (u : User) :
  tracks d u -> tracks (set_apiKey v d) u.
Proof.
  intros H. apply tracks_assign; auto; intros Hp; try reflexivity; congruence.
Qed.

Lemma tracks_set_plan (v : Plan) (d : Doc) (u : User) :
  tracks d u -> tracks (set_plan v d) u.
Proof.
  intros H. apply tracks_assign; auto; intros Hp; try reflexivity; congruence.
Qed.

(** ** The quota ledger: [enforceLimit] *)

Section Ledger.

Variable env : Env.
Implicit Types (s : Store) (u : User) (now : Z).

Lemma limit_plan (d d' : Doc) :
  plan (fields d) = plan (fields d') -> limit env d = limit env d'.
Proof. unfold limit. intros ->. reflexivity. Qed.

(** The window check persists the rolled account and hands it on. *)
Lemma run_rollover s u now :
  unique_ids s -> u ∈ s ->
  run (rollover now (hydrate u)) s = (put (rolled now u) s, inr (hydrate (rolled now u))).
Proof.
  intros Hids Hin. unfold rollover, rolled. simpl fields.
  destruct (expired now (dailyReset u)) eqn:Hexp.
  - set (d := set_dailyReset now (set_dailyCount 0 (hydrate u))).
    assert (tracks d u) as Htr
      by apply tracks_set_dailyReset, tracks_set_dailyCount, tracks_hydrate.
    assert (fields d = with_dailyReset (Some now) (with_dailyCount 0 u)) as Hf.
    { unfold d, set_dailyReset, set_dailyCount. rewrite !assign_fields. reflexivity. }
    assert (p_apiKey ∉ modifiedPaths d) as Hk.
    { intros Hm. unfold d, set_dailyReset, set_dailyCount in Hm.
      apply assign_modified in Hm as [Hm|Hm]; [discriminate|].
      apply assign_modified in Hm as [Hm|Hm]; [discriminate|].
      simpl in Hm. inversion Hm. }
    erewrite run_save_ok.
    2:{ apply (db_save_tracked d u); auto.
        rewrite bool_decide_eq_false_2 by exact Hk. reflexivity. }
    unfold saved, hydrate. rewrite Hf. reflexivity.
  - simpl. rewrite put_same by assumption. reflexivity.
Qed.

(** The charge on an account whose count is below the limit. *)
Lemma run_charge_admit s u :
  unique_ids s -> u ∈ s ->
  JS.ge (dailyCount u) (limit env (hydrate u)) = false ->
  run (charge env (hydrate u)) s
  = (put (with_dailyCount (dailyCount u + 1) u) s,
     inr (Next (hydrate (with_dailyCount (dailyCount u + 1) u)))).
Proof.
  intros Hids Hin Hlt. unfold charge. simpl fields. rewrite Hlt.
  set (d := set_dailyCount (dailyCount u + 1) (hydrate u)).
  assert (tracks d u) as Htr by apply tracks_set_dailyCount, tracks_hydrate.
  assert (fields d = with_dailyCount (dailyCount u + 1) u) as Hf.
  { unfold d, set_dailyCount. rewrite assign_fields. reflexivity. }
  assert (p_apiKey ∉ modifiedPaths d) as Hk.
  { intros Hm. unfold d, set_dailyCount in Hm.
    apply assign_modified in Hm as [Hm|Hm]; [discriminate|].
    simpl in Hm. inversion Hm. }
  rewrite run_bind. erewrite run_save_ok.
  2:{ apply (db_save_tracked d u); auto.
      rewrite bool_decide_eq_false_2 by exact Hk. reflexivity. }
  simpl. unfold saved, hydrate. rewrite Hf. reflexivity.
Qed.

(** The charge on an account that has used its quota. *)
Lemma run_charge_reject s u :
  JS.ge (dailyCount u) (limit env (hydrate u)) = true ->
  run (charge env (hydrate u)) s = (s, inr (Respond quota_exceeded)).
Proof. intros Hge. unfold charge. simpl fields. rewrite Hge. reflexivity. Qed.

Lemma rolled_elem s u now : unique_ids s -> u ∈ s -> rolled now u ∈ put (rolled now u) s.
Proof.
  intros Hids Hin.
  assert (_id (rolled now u) = _id u) as Hid by (unfold rolled; case_match; reflexivity).
  pose proof (stored_elem s u Hids Hin) as Hst. rewrite <- Hid in Hst.
  apply put_stored_same in Hst. apply stored_id_taken in Hst as (_ & _ & H). exact H.
Qed.

Lemma rolled_plan now u : plan (rolled now u) = plan u.
Proof. unfold rolled. case_match; reflexivity. Qed.

Lemma rolled_id now u : _id (rolled now u) = _id u.
Proof. unfold rolled. case_match; reflexivity. Qed.

Lemma rolled_count now u : dailyCount (rolled now u) = count_at now u.
Proof. unfold rolled, count_at. case_match; reflexivity. Qed.

(** [enforceLimit] is the window check followed by the charge on the
    rolled account. *)
Lemma run_enforceLimit s u now :
  unique_ids s -> u ∈ s ->
  run (enforceLimit env now (hydrate u)) s
  = run (charge env (hydrate (rolled now u))) (put (rolled now u) s).
Proof.
  intros Hids Hin. unfold enforceLimit. rewrite run_bind, run_rollover by assumption.
  reflexivity.
Qed.

End Ledger.

(** ** Identity resolution: [authMiddleware] *)

Section Resolver.

Variable env : Env.
Variable jwt_verify : string -> string -> Exn + JwtPayload.
Implicit Types (s : Store) (u : User) (key : string).

Lemma truthy_nonempty key : key <> "" -> JS.truthy (Some key) = true.
Proof. intros H. unfold JS.truthy. rewrite bool_decide_eq_false_2 by exact H. reflexivity. Qed.

(** A request with a non-empty API key is resolved by the key alone. *)
Lemma run_auth_key s key auth :
  key <> "" ->
  run (authMiddleware env jwt_verify (mkHeaders (Some key) auth)) s
  = (s, inr match db_findOne (ByApiKey key) s with
            | None => Respond (reply 401 "Invalid API key")
            | Some user => Next user
            end).
Proof.
  intros Hkey. unfold authMiddleware. cbn [x_api_key].
  rewrite truthy_nonempty by exact Hkey.
  rewrite run_try_catch. unfold auth_by_key. rewrite run_bind. simpl.
  destruct (db_findOne (ByApiKey key) s); reflexivity.
Qed.

(** A request with no API key and a bearer token is resolved by the
    token. *)
Lemma run_auth_token s token :
  run (authMiddleware env jwt_verify (mkHeaders None (Some ("Bearer " ++ token)%string))) s
  = (s, inr match jwt_verify token (JWT_SECRET env) with
            | inl _ => Respond (reply 401 "Auth error")
            | inr payload =>
                match db_findById (payload_id payload) s with
                | None => Respond (reply 401 "Invalid token")
                | Some user => Next user
                end
            end).
Proof.
  unfold authMiddleware. cbn [x_api_key authorization].
  rewrite run_try_catch. unfold auth_by_token.
  change (JS.startsWith "Bearer " ("Bearer " ++ token)%string) with true.
  change (JS.slice 7 ("Bearer " ++ token)%string) with token.
  cbv iota. rewrite run_bind.
  destruct (jwt_verify token (JWT_SECRET env)) as [e|payload]; simpl; [reflexivity|].
  destruct (db_findById (payload_id payload) s); reflexivity.
Qed.

End Resolver.

(** ** Requests of one account within one window *)

Section Window.

Variable env : Env.
Variable jwt_verify : string -> string -> Exn + JwtPayload.
Variables (key : string) (auth : option string) (r N : Z).
Hypothesis key_nonempty : key <> "".
Hypothesis free_limit : FREE_LIMIT env = Some N.

Local Abbreviation metered := (metered key r).
Local Abbreviation request :=
  (fun t : Z => protected env jwt_verify t (mkHeaders (Some key) auth)).

Lemma metered_put (s : Store) (u u' : User) :
  unique_ids s -> List.find (matches (ByApiKey key)) s = Some u ->
  _id u' = _id u -> apiKey u' = apiKey u ->
  List.find (matches (ByApiKey key)) (put u' s) = Some u'.
Proof.
  intros Hids Hfind Hid Hkey. unfold put.
  destruct (find_some_elem _ _ _ Hfind) as [Hin Hm].
  rewrite find_map_stable_in.
  - rewrite Hfind. simpl. rewrite bool_decide_eq_true_2 by congruence. reflexivity.
  - intros x Hx. case_bool_decide as Hx'; [|reflexivity].
    assert (x = u) as -> by (eapply unique_ids_same; eauto; congruence).
    simpl. rewrite Hkey. reflexivity.
Qed.

Lemma request_admitted (s : Store) (c t : Z) :
  metered s c -> t - r <= day -> c < N ->
  exists s' d, run (request t) s = (s', inr (Next d)) /\ metered s' (c + 1).
Proof.
  intros (Hids & u & Hfind & Hplan & Hreset & Hcount) Ht Hc.
  destruct (find_some_elem _ _ _ Hfind) as [Hin _].
  unfold protected. rewrite run_bind, run_auth_key by exact key_nonempty.
  unfold db_findOne. rewrite Hfind. simpl fmap. cbv iota beta.
  rewrite run_enforceLimit by assumption.
  assert (rolled t u = u) as ->.
  { unfold rolled, expired. rewrite Hreset.
    destruct (Z.ltb_spec day (t - r)); [lia | reflexivity]. }
  rewrite put_same by assumption.
  rewrite run_charge_admit; try assumption.
  2:{ unfold limit. simpl. rewrite Hplan, free_limit. simpl.
      apply Z.leb_gt. lia. }
  eexists _, _. split; [reflexivity|]. split; [apply put_unique_ids, Hids|].
  exists (with_dailyCount (dailyCount u + 1) u).
  split; [apply (metered_put s u); auto|].
  simpl. rewrite Hcount. auto.
Qed.

Lemma request_rejected (s : Store) (c t : Z) :
  metered s c -> t - r <= day -> N <= c ->
  run (request t) s = (s, inr (Respond quota_exceeded)).
Proof.
  intros (Hids & u & Hfind & Hplan & Hreset & Hcount) Ht Hc.
  destruct (find_some_elem _ _ _ Hfind) as [Hin _].
  unfold protected. rewrite run_bind, run_auth_key by exact key_nonempty.
  unfold db_findOne. rewrite Hfind. simpl fmap. cbv iota beta.
  rewrite run_enforceLimit by assumption.
  assert (rolled t u = u) as ->.
  { unfold rolled, expired. rewrite Hreset.
    destruct (Z.ltb_spec day (t - r)); [lia | reflexivity]. }
  rewrite put_same by assumption.
  apply run_charge_reject.
  unfold limit. simpl. rewrite Hplan, free_limit. simpl. apply Z.leb_le. lia.
Qed.

(** From count [c], the next [N - c] requests in the window are
    admitted and the one after them is rejected. *)
Lemma serve_window (n : nat) :
  forall (times : list Z) (s : Store) (c : Z),
    metered s c -> c + Z.of_nat n = N -> length times = S n ->
    Forall (fun t => t - r <= day) times ->
    admitted <$> (serve request times s).2 = replicate n true ++ [false] /\
    last (serve request times s).2 = Some (inr (Respond quota_exceeded)) /\
    metered (serve request times s).1 N.
Proof.
  induction n as [|n IH]; intros times s c Hm Hc Hlen Hwin.
  - destruct times as [|t [|t' times]]; try discriminate.
    apply Forall_cons in Hwin as [Ht _].
    simpl. rewrite (request_rejected s c t) by (auto; lia). simpl.
    replace N with c by lia. auto.
  - destruct times as [|t times]; [discriminate|].
    apply Forall_cons in Hwin as [Ht Hwin].
    destruct (request_admitted s c t Hm Ht) as (s' & d & Hrun & Hm'); [lia|].
    destruct (IH times s' (c + 1) Hm') as (Ha & Hl & Hs); [lia | simpl in Hlen; lia | auto |].
    cbn [serve]. rewrite Hrun. destruct (serve _ times s') as [s2 rs] eqn:Hserve.
    cbn [fst snd] in *. rewrite fmap_cons, Ha.
    split; [reflexivity|]. split; [|exact Hs].
    destruct rs; [discriminate | exact Hl].
Qed.

End Window.

(** ** The claims about the quota ledger *)

(** C2. For a resolved account [u] whose window started at [r]: when
    more than 24 hours have passed at [now], the window check stores
    [dailyCount = 0] and [dailyReset = now] whatever the count was, and
    the limit check then runs on that account; when 24 hours or less
    have passed, the window check changes neither the store nor the
    account. *)
Theorem window_rollover (env : Env) (s : Store) (u : User) (now r : Z) :
  unique_ids s -> u ∈ s -> dailyReset u = Some r ->
  (day < now - r ->
     let u' := with_dailyReset (Some now) (with_dailyCount 0 u) in
     run (rollover now (hydrate u)) s = (put u' s, inr (hydrate u')) /\
     stored (put u' s) (_id u) = Some u' /\
     dailyCount u' = 0 /\ dailyReset u' = Some now /\
     run (enforceLimit env now (hydrate u)) s = run (charge env (hydrate u')) (put u' s)) /\
  (now - r <= day ->
     run (rollover now (hydrate u)) s = (s, inr (hydrate u)) /\
     run (enforceLimit env now (hydrate u)) s = run (charge env (hydrate u)) s).
Proof.
  intros Hids Hin Hreset.
  pose proof (run_rollover s u now Hids Hin) as Hroll.
  pose proof (run_enforceLimit env s u now Hids Hin) as Henf.
  unfold rolled, expired in Hroll, Henf. rewrite Hreset in Hroll, Henf.
  split; intros Ht.
  - destruct (Z.ltb_spec day (now - r)); [|lia].
    split; [exact Hroll|]. split; [|repeat split; auto].
    apply (put_stored_same (with_dailyReset (Some now) (with_dailyCount 0 u)) u).
    simpl. apply stored_elem; assumption.
  - destruct (Z.ltb_spec day (now - r)); [lia|].
    rewrite put_same in Hroll, Henf by assumption. auto.
Qed.

(** A request by [Sample.alice] more than a day after time 1000 resets
    her count of 19; a request exactly a day after it does not. *)
Lemma window_rollover_witness :
  run (rollover 90000000 (hydrate Sample.alice)) [Sample.alice]
  = ([with_dailyReset (Some 90000000) (with_dailyCount 0 Sample.alice)],
     inr (hydrate (with_dailyReset (Some 90000000) (with_dailyCount 0 Sample.alice)))) /\
  run (rollover 86401000 (hydrate Sample.alice)) [Sample.alice]
  = ([Sample.alice], inr (hydrate Sample.alice)).
Proof.
  split.
  - refine (proj1 (proj1 (window_rollover Sample.env [Sample.alice] Sample.alice
                            90000000 1000 _ _ _) _)).
    + apply NoDup_singleton.
    + apply list_elem_of_here.
    + reflexivity.
    + unfold day. lia.
  - refine (proj1 (proj2 (window_rollover Sample.env [Sample.alice] Sample.alice
                            86401000 1000 _ _ _) _)).
    + apply NoDup_singleton.
    + apply list_elem_of_here.
    + reflexivity.
    + unfold day. lia.
Defined.

(** C1. For a resolved account, with [c] its count after the window
    check: if [c >= limit] the request is answered 429 (QuotaExceeded)
    and the stored count stays [c]; otherwise the request is admitted
    and the stored count is [c + 1]. The limit is [FREE_LIMIT] (20
    unless configured) for a free account and 1000000 for a premium
    one. In a window, a free account that starts at count 0 has its
    first [N] requests admitted and request [N + 1] rejected, [N]
    being the configured limit. *)
Theorem admit_postcondition (env : Env) :
  (forall (s : Store) (u : User) (now : Z),
     unique_ids s -> u ∈ s ->
     let c := count_at now u in
     let out := run (enforceLimit env now (hydrate u)) s in
     (JS.ge c (limit env (hydrate u)) = true ->
        out = (put (rolled now u) s, inr (Respond quota_exceeded)) /\
        kind_of quota_exceeded = Some QuotaExceeded /\
        dailyCount <$> stored out.1 (_id u) = Some c) /\
     (JS.ge c (limit env (hydrate u)) = false ->
        exists user',
          out.2 = inr (Next user') /\
          stored out.1 (_id u) = Some (fields user') /\
          fields user' = with_dailyCount (c + 1) (rolled now u) /\
          dailyCount <$> stored out.1 (_id u) = Some (c + 1))) /\
  (forall (u : User),
     (plan u = free -> limit env (hydrate u) = FREE_LIMIT env) /\
     (plan u = premium -> limit env (hydrate u) = Some 1000000) /\
     (env_FREE_PLAN_LIMIT env = None -> FREE_LIMIT env = Some 20)) /\
  (forall jwt_verify (key : string) (auth : option string) (r N : Z)
          (s : Store) (times : list Z),
     key <> "" -> FREE_LIMIT env = Some N -> 0 <= N ->
     metered key r s 0 ->
     length times = S (Z.to_nat N) ->
     Forall (fun t => t - r <= day) times ->
     let outcomes :=
       (serve (fun t => protected env jwt_verify t (mkHeaders (Some key) auth)) times s).2 in
     admitted <$> outcomes = replicate (Z.to_nat N) true ++ [false] /\
     last outcomes = Some (inr (Respond quota_exceeded))).
Proof.
  split; [|split].
  - intros s u now Hids Hin c out.
    assert (stored (put (rolled now u) s) (_id u) = Some (rolled now u)) as Hst.
    { rewrite <- (rolled_id now u). apply (put_stored_same _ u).
      rewrite rolled_id. apply stored_elem; assumption. }
    pose proof (rolled_elem s u now Hids Hin) as Hin'.
    pose proof (put_unique_ids (rolled now u) s Hids) as Hids'.
    assert (limit env (hydrate (rolled now u)) = limit env (hydrate u)) as Hlim
      by (apply limit_plan, rolled_plan).
    unfold out, c. rewrite run_enforceLimit by assumption. rewrite <- rolled_count.
    split; intros Hge; rewrite <- Hlim in Hge.
    + rewrite run_charge_reject by exact Hge. simpl. rewrite Hst. auto.
    + rewrite run_charge_admit by assumption.
      eexists. split; [reflexivity|]. simpl.
      assert (stored (put (with_dailyCount (dailyCount (rolled now u) + 1) (rolled now u))
                          (put (rolled now u) s)) (_id u)
              = Some (with_dailyCount (dailyCount (rolled now u) + 1) (rolled now u))) as ->.
      { rewrite <- (rolled_id now u).
        apply (put_stored_same (with_dailyCount _ (rolled now u)) (rolled now u)).
        simpl. rewrite rolled_id. exact Hst. }
      auto.
  - intros u. unfold limit, FREE_LIMIT. simpl. repeat split.
    + intros ->. reflexivity.
    + intros ->. reflexivity.
    + intros ->. reflexivity.
  - intros jv key auth r N s times Hkey Hlim HN Hm Hlen Hwin outcomes.
    destruct (serve_window env jv key auth r N Hkey Hlim (Z.to_nat N) times s 0)
      as (Ha & Hl & _); auto. lia.
Qed.

(** With [FREE_PLAN_LIMIT=2], three requests by [Sample.bob] in his
    window: admitted, admitted, rejected. With the default limit, a
    request by [Sample.alice] at count 19 leaves her count at 20. *)
Lemma admit_postcondition_witness :
  admitted <$> (serve (fun t => protected Sample.env2 Sample.jwt_verify t
                                  (mkHeaders (Some "pk_bob") None))
                      [2000; 3000; 4000] [Sample.alice; Sample.bob]).2
  = [true; true; false] /\
  dailyCount <$> stored (run (enforceLimit Sample.env 2000 (hydrate Sample.alice))
                             [Sample.alice; Sample.bob]).1 "a1"
  = Some 20.
Proof.
  split.
  - refine (proj1 (proj2 (proj2 (admit_postcondition Sample.env2)) Sample.jwt_verify
                     "pk_bob" None 1000 2 [Sample.alice; Sample.bob] [2000; 3000; 4000]
                     _ _ _ _ _ _)).
    + discriminate.
    + reflexivity.
    + lia.
    + split.
      * apply (bool_decide_unpack _). vm_compute. exact I.
      * exists Sample.bob. repeat split; reflexivity.
    + reflexivity.
    + unfold day. repeat constructor; lia.
  - assert (unique_ids [Sample.alice; Sample.bob]) as Hids
      by (apply (bool_decide_unpack _); vm_compute; exact I).
    assert (Sample.alice ∈ [Sample.alice; Sample.bob]) as Hin by apply list_elem_of_here.
    destruct (proj2 (proj1 (admit_postcondition Sample.env)
                       [Sample.alice; Sample.bob] Sample.alice 2000 Hids Hin) eq_refl)
      as (user' & _ & _ & _ & H).
    exact H.
Defined.

(** ** Read-only programs *)

Lemma read_only_bind {A B : Type} (p : Prog A) (f : A -> Prog B) :
  read_only p -> (forall a, read_only (f a)) -> read_only (p ≫= f).
Proof.
  intros Hp Hf. unfold mbind, Prog_bind.
  induction Hp as [a|e|q k _ IH|i k _ IH]; simpl; try constructor; auto.
Qed.

Lemma read_only_try_catch {A : Type} (p : Prog A) (h : Exn -> Prog A) :
  read_only p -> (forall e, read_only (h e)) -> read_only (try_catch p h).
Proof.
  intros Hp Hh.
  induction Hp as [a|e|q k _ IH|i k _ IH]; simpl; try constructor; auto.
Qed.

Lemma read_only_step {A : Type} (p : Prog A) (s : Store) :
  read_only p -> (step p s).2 = s /\ read_only (step p s).1.
Proof. intros Hp. destruct Hp; simpl; split; auto; constructor. Qed.

Lemma read_only_run {A : Type} (p : Prog A) (s : Store) :
  read_only p -> (run p s).1 = s.
Proof. intros Hp. induction Hp; simpl; auto. Qed.

Local Ltac answered := eexists; split; [reflexivity | try exact I].

Lemma find_pristine (P : User -> bool) (s : Store) (d : Doc) :
  hydrate <$> List.find P s = Some d -> pristine s d.
Proof.
  destruct (List.find P s) as [u|] eqn:Hu; [|discriminate].
  intros [= <-]. apply find_some_elem in Hu as [Hin _]. repeat split; auto.
Qed.

Section ResolverFrame.

Variable env : Env.
Variable jwt_verify : string -> string -> Exn + JwtPayload.

Lemma auth_by_key_read_only (key : string) : read_only (auth_by_key key).
Proof.
  unfold auth_by_key. apply read_only_bind; [repeat constructor|].
  intros [d|]; constructor.
Qed.

Lemma auth_by_token_read_only (auth : option string) :
  read_only (auth_by_token env jwt_verify auth).
Proof.
  unfold auth_by_token. destruct auth as [auth|]; [|constructor].
  destruct (JS.startsWith "Bearer " auth); [|constructor].
  apply read_only_bind.
  - destruct (jwt_verify _ _); constructor.
  - intros payload. apply read_only_bind; [repeat constructor|].
    intros [d|]; constructor.
Qed.

Lemma authMiddleware_read_only (req : Headers) :
  read_only (authMiddleware env jwt_verify req).
Proof.
  unfold authMiddleware. apply read_only_try_catch; [|constructor].
  destruct (x_api_key req) as [key|]; [destruct (JS.truthy (Some key))|];
    auto using auth_by_key_read_only, auth_by_token_read_only.
Qed.

Lemma run_auth_by_key (key : string) (s : Store) :
  exists m, run (auth_by_key key) s = (s, inr m) /\
            match m with Next user => pristine s user | Respond _ => True end.
Proof.
  unfold auth_by_key. rewrite run_bind. simpl.
  destruct (db_findOne (ByApiKey key) s) as [d|] eqn:Hd; simpl.
  - answered. eapply find_pristine, Hd.
  - answered.
Qed.

Lemma run_auth_by_token (auth : option string) (s : Store) :
  exists r, run (auth_by_token env jwt_verify auth) s = (s, r) /\
            match r with
            | inr (Next user) => pristine s user
            | _ => True
            end.
Proof.
  unfold auth_by_token. destruct auth as [auth|]; [|simpl; answered].
  destruct (JS.startsWith "Bearer " auth); [|simpl; answered].
  rewrite run_bind.
  destruct (jwt_verify _ _) as [e|payload]; simpl; [answered|].
  destruct (db_findById (payload_id payload) s) as [d|] eqn:Hd; simpl.
  - answered. eapply find_pristine, Hd.
  - answered.
Qed.

(** Resolution always answers; an account it hands on is a stored
    document without pending changes. *)
Lemma run_authMiddleware (req : Headers) (s : Store) :
  exists m, run (authMiddleware env jwt_verify req) s = (s, inr m) /\
            match m with Next user => pristine s user | Respond _ => True end.
Proof.
  unfold authMiddleware. rewrite run_try_catch.
  assert (forall auth, exists m,
            match run (auth_by_token env jwt_verify auth) s with
            | (s', inr a) => (s', inr a)
            | (s', inl e) => run (Ret (Respond (reply 401 "Auth error"))) s'
            end = (s, inr m) /\
            match m with Next user => pristine s user | Respond _ => True end) as Htok.
  { intros auth. destruct (run_auth_by_token auth s) as (r & -> & Hr).
    destruct r as [e|m]; simpl; [answered | eauto]. }
  destruct (x_api_key req) as [key|]; [destruct (JS.truthy (Some key))|]; auto.
  destruct (run_auth_by_key key s) as (m & -> & Hm). eauto.
Qed.

End ResolverFrame.

(** C8. Identity resolution is read-only: [authMiddleware] contains no
    save, so each of its operations, and its run as a whole, leaves the
    store as it was, whatever the request and whatever the outcome; it
    always answers, and the account it hands on is a stored document
    with no pending change. *)
Theorem resolution_read_only (env : Env) (jwt_verify : string -> string -> Exn + JwtPayload)
    (req : Headers) :
  read_only (authMiddleware env jwt_verify req) /\
  forall s : Store,
    (step (authMiddleware env jwt_verify req) s).2 = s /\
    exists m, run (authMiddleware env jwt_verify req) s = (s, inr m) /\
              match m with Next user => pristine s user | Respond _ => True end.
Proof.
  split; [apply authMiddleware_read_only|]. intros s. split.
  - apply read_only_step, authMiddleware_read_only.
  - apply run_authMiddleware.
Qed.

(** ** The claims about credentials *)

(** C4, as the code has it. A request with no API key (or an empty one)
    and a bearer token is answered 401 ["Auth error"], which names none
    of the error kinds, whenever [jwt.verify] throws (bad signature or
    expired token); it is answered 401 ["Invalid token"], the kind
    InvalidToken, when the token verifies but its identifier resolves
    to no account; otherwise the account with the identifier bound to
    the token is handed on. *)
Theorem bearer_resolution (env : Env) (jwt_verify : string -> string -> Exn + JwtPayload)
    (key : option string) (token : string) (s : Store) :
  JS.truthy key = false ->
  run (authMiddleware env jwt_verify (mkHeaders key (Some ("Bearer " ++ token)%string))) s
  = (s, inr match jwt_verify token (JWT_SECRET env) with
            | inl _ => Respond (reply 401 "Auth error")
            | inr payload =>
                match stored s (payload_id payload) with
                | None => Respond (reply 401 "Invalid token")
                | Some u => Next (hydrate u)
                end
            end) /\
  kind_of (reply 401 "Auth error") = None /\
  kind_of (reply 401 "Invalid token") = Some InvalidToken.
Proof.
  intros Hkey. split; [|split; reflexivity].
  assert (run (authMiddleware env jwt_verify (mkHeaders key (Some ("Bearer " ++ token)%string))) s
          = run (authMiddleware env jwt_verify (mkHeaders None (Some ("Bearer " ++ token)%string))) s)
    as ->.
  { unfold authMiddleware. cbn [x_api_key authorization].
    destruct key as [k|]; [|reflexivity]. rewrite Hkey. reflexivity. }
  rewrite run_auth_token. unfold db_findById.
  destruct (jwt_verify token (JWT_SECRET env)) as [e|payload]; [reflexivity|].
  destruct (stored s (payload_id payload)) as [u|] eqn:Hu; unfold stored in Hu; rewrite Hu;
    reflexivity.
Qed.

(** A token for [Sample.alice], presented without an API key. *)
Lemma bearer_resolution_witness :
  run (authMiddleware Sample.env Sample.jwt_verify
         (mkHeaders None (Some "Bearer change_this_jwt_secret:a1"))) [Sample.alice]
  = ([Sample.alice], inr (Next (hydrate Sample.alice))).
Proof.
  refine (proj1 (bearer_resolution Sample.env Sample.jwt_verify None
                   "change_this_jwt_secret:a1" [Sample.alice] _)).
  reflexivity.
Defined.

(** C4, as the specification words it, fails: a forged token is not
    answered with the kind InvalidToken, and a valid token of an
    account that is gone is not answered with the kind
    AccountNotFound. *)
Lemma bearer_contract_counterexample :
  ~ bearer_contract
      (Sample.jwt_verify "forged" (JWT_SECRET Sample.env)) [Sample.alice]
      (run (authMiddleware Sample.env Sample.jwt_verify
              (mkHeaders None (Some "Bearer forged"))) [Sample.alice]).2 /\
  ~ bearer_contract
      (Sample.jwt_verify "change_this_jwt_secret:gone" (JWT_SECRET Sample.env)) [Sample.alice]
      (run (authMiddleware Sample.env Sample.jwt_verify
              (mkHeaders None (Some "Bearer change_this_jwt_secret:gone"))) [Sample.alice]).2.
Proof.
  split; intros (r & Hr & Hk); vm_compute in Hr; injection Hr as <-; discriminate Hk.
Qed.

Lemma run_findOne_email {A : Type} (mail : option string) (f : option Doc -> Prog A) (s : Store) :
  run (findOne (ByEmail mail) ≫= f) s = run (f (hydrate <$> lookup_email mail s)) s.
Proof. reflexivity. Qed.




(** A login that names an existing account and carries no password
    takes neither failing branch: [bcrypt.compare] rejects and the
    [catch] answers 500. *)
Example login_without_password :
  run (login Sample.env Sample.jwt_sign Sample.bcrypt_compare 5000
         (mkForm (Some "alice@example.com") None None)) [Sample.alice]
  = ([Sample.alice], inr (reply 500 "Login failed")).
Proof. reflexivity. Qed.

(** C6, as the code has it. A signup whose email belongs to an existing
    account never changes the store. When the email and the password
    are both non-empty it is answered 400 ["Email exists"]
    (DuplicateAccount); when one of them is missing or empty the check
    of line 98 answers first, 400 ["email & password required"]
    (InvalidInput). *)
Theorem signup_existing_email (env : Env) (jwt_sign : JwtPayload -> string -> Z -> string)
    (bcrypt_hash : string -> string -> string)
    (now : Z) (oid : ObjectId) (salt uuid : string) (form : Form) (s : Store) (u : User) :
  lookup_email (form_email form) s = Some u ->
  let out := run (signup env jwt_sign bcrypt_hash now oid salt uuid form) s in
  out.1 = s /\
  (JS.truthy (form_email form) && JS.truthy (form_password form) = true ->
     out.2 = inr (reply 400 "Email exists")) /\
  (JS.truthy (form_email form) && JS.truthy (form_password form) = false ->
     out.2 = inr (reply 400 "email & password required")) /\
  kind_of (reply 400 "Email exists") = Some DuplicateAccount /\
  kind_of (reply 400 "email & password required") = Some InvalidInput.
Proof.
  intros Hu out. unfold out, signup. rewrite run_try_catch.
  destruct (JS.truthy (form_email form)); destruct (JS.truthy (form_password form));
    cbn [negb orb andb];
    try rewrite run_findOne_email, Hu; simpl; repeat split; auto; discriminate.
Qed.

(** A second signup with the email of [Sample.alice]. *)
Lemma signup_existing_email_witness :
  run (signup Sample.env Sample.jwt_sign Sample.bcrypt_hash 7000 "c3" "salt" "00-11"
         (mkForm (Some "alice@example.com") (Some "rabbit") (Some "premium"))) [Sample.alice]
  = ([Sample.alice], inr (reply 400 "Email exists")).
Proof.
  destruct (signup_existing_email Sample.env Sample.jwt_sign Sample.bcrypt_hash
              7000 "c3" "salt" "00-11"
              (mkForm (Some "alice@example.com") (Some "rabbit") (Some "premium"))
              [Sample.alice] Sample.alice eq_refl) as (H1 & H2 & _).
  apply injective_projections; [exact H1 | exact (H2 eq_refl)].
Defined.

(** C6, as the specification words it, fails: a signup with the email
    of [Sample.alice] and no password is answered InvalidInput, not
    DuplicateAccount. *)
Lemma duplicate_signup_counterexample :
  ~ duplicate_signup_contract [Sample.alice]
      (mkForm (Some "alice@example.com") None None)
      (run (signup Sample.env Sample.jwt_sign Sample.bcrypt_hash 7000 "c3" "salt" "00-11"
              (mkForm (Some "alice@example.com") None None)) [Sample.alice]).
Proof.
  intros H. destruct H as (_ & r & Hr & Hk).
  - exists Sample.alice. reflexivity.
  - vm_compute in Hr. injection Hr as <-. discriminate Hk.
Qed.

(** ** Rely and guarantee *)

Section Stable.

Context {A : Type} (I : Store -> Prop).
Implicit Types (p : Prog A) (Q : Exn + A -> Prop).

Lemma stable_mono Q Q' p :
  (forall r, Q r -> Q' r) -> stable I Q p -> stable I Q' p.
Proof.
  intros HQ. induction p as [a|e|q k IH|i k IH|d k IH]; simpl; auto.
  intros Hp s Hs. specialize (Hp s Hs).
  destruct (db_save d s); [|split; [tauto|]]; apply IH; tauto.
Qed.

Lemma stable_step Q p s :
  stable I Q p -> I s -> I (step p s).2 /\ stable I Q (step p s).1.
Proof.
  destruct p as [a|e|q k|i k|d k]; simpl; auto.
  intros Hp Hs. specialize (Hp s Hs). destruct (db_save d s); simpl; auto.
Qed.

Lemma stable_run Q p s :
  stable I Q p -> I s -> I (run p s).1 /\ Q (run p s).2.
Proof.
  revert s. induction p as [a|e|q k IH|i k IH|d k IH]; simpl; auto.
  intros s Hp Hs. specialize (Hp s Hs).
  destruct (db_save d s); [|destruct Hp]; apply IH; auto.
Qed.

Lemma stable_try_catch Q p (h : Exn -> Prog A) :
  stable I (fun r => match r with
                     | inl e => stable I Q (h e)
                     | inr a => Q (inr a)
                     end) p ->
  stable I Q (try_catch p h).
Proof.
  induction p as [a|e|q k IH|i k IH|d k IH]; simpl; auto.
  intros Hp s Hs. specialize (Hp s Hs).
  destruct (db_save d s); [|split; [tauto|]]; apply IH; tauto.
Qed.

End Stable.

Lemma stable_bind {A B : Type} (I : Store -> Prop) (Q : Exn + B -> Prop)
    (p : Prog A) (f : A -> Prog B) :
  stable I (fun r => match r with
                     | inl e => Q (inl e)
                     | inr a => stable I Q (f a)
                     end) p ->
  stable I Q (p ≫= f).
Proof.
  unfold mbind, Prog_bind.
  induction p as [a|e|q k IH|i k IH|d k IH]; simpl; auto.
  intros Hp s Hs. specialize (Hp s Hs).
  destruct (db_save d s); [|split; [tauto|]]; apply IH; tauto.
Qed.

(** Two requests that are stable under the same invariant keep it and
    reach their outcomes however they are interleaved. *)
Lemma stable_interleave {A B : Type} (I : Store -> Prop)
    (Q : Exn + A -> Prop) (R : Exn + B -> Prop) (sched : list bool) :
  forall (p : Prog A) (q : Prog B) (s : Store),
    stable I Q p -> stable I R q -> I s ->
    I (interleave sched p q s).1.1 /\
    Q (interleave sched p q s).1.2 /\
    R (interleave sched p q s).2.
Proof.
  induction sched as [|b sched IH]; intros p q s Hp Hq Hs.
  - simpl. destruct (stable_run I Q p s Hp Hs) as [Hs1 Ha].
    destruct (run p s) as [s1 a]. simpl in *.
    destruct (stable_run I R q s1 Hq Hs1) as [Hs2 Hb].
    destruct (run q s1) as [s2 b]. simpl in *. auto.
  - destruct b; simpl.
    + destruct (stable_step I Q p s Hp Hs) as [Hs1 Hp1].
      destruct (step p s) as [p1 s1]. apply IH; auto.
    + destruct (stable_step I R q s Hq Hs) as [Hs1 Hq1].
      destruct (step q s) as [q1 s1]. apply IH; auto.
Qed.

(** ** A revoked key stays revoked *)

Section Revoked.

Variable old : string.
Local Abbreviation K := (key_free old).
Local Abbreviation any := (fun _ : Exn + _ => True).

Lemma hydrate_unkeyed (u : User) : unkeyed (hydrate u).
Proof. split; [reflexivity | apply not_elem_of_nil]. Qed.

Lemma find_unkeyed (P : User -> bool) (s : Store) (d : Doc) :
  hydrate <$> List.find P s = Some d -> unkeyed d.
Proof.
  destruct (List.find P s); [|discriminate]. intros [= <-]. apply hydrate_unkeyed.
Qed.

Lemma unkeyed_harmless (d : Doc) : unkeyed d -> harmless old d.
Proof. intros [Hn Hk] [H|H]; [congruence | contradiction]. Qed.

Lemma saved_unkeyed (d : Doc) : unkeyed (saved d).
Proof. split; [reflexivity | apply not_elem_of_nil]. Qed.

Lemma unkeyed_assign (p : Path) (u' : User) (d : Doc) :
  p <> p_apiKey -> unkeyed d -> unkeyed (assign p u' d).
Proof.
  intros Hp [Hn Hk]. split.
  - unfold assign. case_decide; auto.
  - intros Hm. apply assign_modified in Hm as [Hm|Hm]; [congruence | contradiction].
Qed.

Lemma db_save_key_free (d : Doc) (s s' : Store) :
  K s -> harmless old d -> db_save d s = inr s' -> K s'.
Proof.
  unfold key_free, db_save, harmless. intros Hs Hd.
  destruct (isNew d) eqn:Hnew.
  - case_match; [discriminate|]. intros [= <-].
    apply Forall_app. split; [exact Hs|]. constructor; [auto | constructor].
  - case_match; [discriminate|]. case_match; [discriminate|]. intros [= <-].
    apply Forall_fmap. eapply Forall_impl; [exact Hs|].
    intros v Hv. simpl.
    destruct (bool_decide (_id v = _id (fields d))); [|exact Hv].
    rewrite patch_fields. simpl. case_decide; auto.
Qed.

Lemma stable_save {A : Type} (Q : Exn + A -> Prop) (d : Doc) (f : Doc -> Prog A) :
  harmless old d -> (forall e, Q (inl e)) -> stable K Q (f (saved d)) ->
  stable K Q (save d ≫= f).
Proof.
  intros Hd He Hf s Hs. simpl.
  destruct (db_save d s) as [e|s'] eqn:Hsave; simpl; [apply He|].
  split; [|exact Hf]. eapply db_save_key_free; eauto.
Qed.

Lemma stable_save_ret (Q : Exn + Doc -> Prop) (d : Doc) :
  harmless old d -> (forall e, Q (inl e)) -> Q (inr (saved d)) ->
  stable K Q (save d).
Proof.
  intros Hd He Hf s Hs. simpl.
  destruct (db_save d s) as [e|s'] eqn:Hsave; simpl; [apply He|].
  split; [|exact Hf]. eapply db_save_key_free; eauto.
Qed.

Lemma stable_answer (p : Prog Response) : stable K any p -> stable K any (answer p).
Proof.
  intros Hp. unfold answer. apply stable_bind.
  eapply stable_mono; [|exact Hp]. intros [e|r] _; exact I.
Qed.

Section Handlers.

Variable env : Env.
Variable jwt_verify : string -> string -> Exn + JwtPayload.
Variable jwt_sign : JwtPayload -> string -> Z -> string.
Variable bcrypt_hash : string -> string -> string.
Variable bcrypt_compare : string -> string -> bool.

Lemma stable_authMiddleware (req : Headers) :
  stable K handed_on (authMiddleware env jwt_verify req).
Proof.
  unfold authMiddleware. apply stable_try_catch.
  assert (forall auth,
            stable K (fun r => match r with
                               | inl e => stable K handed_on (Ret (Respond (reply 401 "Auth error")))
                               | inr a => handed_on (inr a)
                               end) (auth_by_token env jwt_verify auth)) as Htok.
  { intros [auth|]; [|exact I]. unfold auth_by_token.
    destruct (JS.startsWith "Bearer " auth); [|exact I].
    apply stable_bind.
    destruct (jwt_verify _ _) as [e|payload]; simpl; [exact I|].
    intros s Hs. destruct (db_findById (payload_id payload) s) as [d|] eqn:Hd; simpl; [|exact I].
    eapply find_unkeyed, Hd. }
  destruct (x_api_key req) as [key|]; [destruct (JS.truthy (Some key))|]; auto.
  simpl. intros s Hs.
  destruct (db_findOne (ByApiKey key) s) as [d|] eqn:Hd; simpl; [|exact I].
  eapply find_unkeyed, Hd.
Qed.

Lemma stable_enforceLimit (now : Z) (user : Doc) :
  unkeyed user -> stable K any (enforceLimit env now user).
Proof.
  intros Hu. unfold enforceLimit. apply stable_bind.
  assert (forall d, unkeyed d -> stable K any (charge env d)) as Hcharge.
  { intros d Hd. unfold charge. case_match; [exact I|].
    apply stable_save; [|auto|exact I].
    apply unkeyed_harmless, unkeyed_assign; [discriminate | exact Hd]. }
  unfold rollover. case_match; [|simpl; auto].
  apply stable_save_ret; [|auto|].
  - apply unkeyed_harmless.
    repeat (apply unkeyed_assign; [discriminate|]). exact Hu.
  - simpl. apply Hcharge, saved_unkeyed.
Qed.

Lemma stable_protected (now : Z) (req : Headers) :
  stable K any (protected env jwt_verify now req).
Proof.
  unfold protected. apply stable_bind.
  eapply stable_mono; [|apply stable_authMiddleware].
  intros [e|[r|user]] Hr; simpl; auto. apply stable_enforceLimit, Hr.
Qed.

Lemma stable_findOne_email {A : Type} (Q : Exn + A -> Prop) (mail : option string)
    (f : option Doc -> Prog A) :
  (forall r, match r with Some d => unkeyed d | None => True end -> stable K Q (f r)) ->
  stable K Q (findOne (ByEmail mail) ≫= f).
Proof.
  intros Hf s Hs. apply Hf.
  destruct (db_findOne (ByEmail mail) s) as [d|] eqn:Hd; [|exact I].
  eapply find_unkeyed, Hd.
Qed.

Lemma stable_signup (now : Z) (oid : ObjectId) (salt uuid : string) (form : Form) :
  genApiKey uuid <> old ->
  stable K any (signup env jwt_sign bcrypt_hash now oid salt uuid form).
Proof.
  intros Hfresh. unfold signup. apply stable_try_catch.
  case_match; [exact I|].
  apply stable_findOne_email. intros [d|] _; [exact I|].
  apply stable_save; [|intros e; exact I|exact I].
  intros _. simpl. congruence.
Qed.

Lemma stable_login (now : Z) (form : Form) :
  stable K any (login env jwt_sign bcrypt_compare now form).
Proof.
  unfold login. apply stable_try_catch.
  apply stable_findOne_email. intros [d|] _; [|exact I].
  apply stable_bind. destruct (compare_password bcrypt_compare _ _) as [e|ok]; simpl; [exact I|].
  destruct ok; exact I.
Qed.

Lemma stable_regenerate (uuid : string) (user : Doc) :
  genApiKey uuid <> old -> unkeyed user -> stable K any (regenerate uuid user).
Proof.
  intros Hfresh Hu. unfold regenerate. apply stable_try_catch.
  apply stable_save; [|intros e; exact I|exact I].
  unfold set_apiKey, harmless. rewrite assign_fields. simpl. congruence.
Qed.

Lemma stable_regenerateApiKey (uuid : string) (req : Headers) :
  genApiKey uuid <> old -> stable K any (regenerateApiKey env jwt_verify uuid req).
Proof.
  intros Hfresh. unfold regenerateApiKey. apply stable_bind.
  eapply stable_mono; [|apply stable_authMiddleware].
  intros [e|[r|user]] Hr; simpl; auto. apply stable_regenerate; auto.
Qed.

Lemma stable_me (req : Headers) : stable K any (me env jwt_verify req).
Proof.
  unfold me. apply stable_bind.
  eapply stable_mono; [|apply stable_authMiddleware].
  intros [e|[r|user]] Hr; simpl; auto.
Qed.

Lemma stable_promote (form : Form) : stable K any (promote form).
Proof.
  unfold promote. apply stable_try_catch.
  apply stable_findOne_email. intros [d|] Hd; [|exact I].
  apply stable_save; [|intros e; exact I|exact I].
  apply unkeyed_harmless, unkeyed_assign; [discriminate | exact Hd].
Qed.

Lemma stable_handle (c : Call) :
  old ∉ draws c ->
  stable K any (handle env jwt_verify jwt_sign bcrypt_hash bcrypt_compare c).
Proof.
  destruct c; cbn [handle draws]; intros Hc;
    try (assert (genApiKey uuid <> old) as Hfresh
           by (intros Heq; apply Hc; rewrite Heq; apply list_elem_of_here)).
  - apply stable_answer, stable_signup, Hfresh.
  - apply stable_answer, stable_login.
  - apply stable_answer, stable_regenerateApiKey, Hfresh.
  - apply stable_answer, stable_me.
  - apply stable_protected.
  - apply stable_answer, stable_promote.
Qed.

(** While no call generates [old], the store stays free of [old] and
    every request in flight stays unable to store it. *)
Lemma future_key_free (σ σ' : Server) :
  K (db σ) -> Forall (stable K any) (inflight σ) ->
  future env jwt_verify jwt_sign bcrypt_hash bcrypt_compare old σ σ' ->
  K (db σ') /\ Forall (stable K any) (inflight σ').
Proof.
  intros Hs Hp Hfut. induction Hfut as [|σ' c _ [IHs IHp] Hc|σ' i p _ [IHs IHp] Hi]; simpl.
  - auto.
  - split; [exact IHs|]. apply Forall_app. split; [exact IHp|].
    constructor; [apply stable_handle, Hc | constructor].
  - assert (stable K any p) as Hstable.
    { eapply Forall_lookup_1; eauto. }
    destruct (stable_step K any p (db σ') Hstable IHs) as [Hs' Hp'].
    split; [exact Hs'|]. apply Forall_insert; assumption.
Qed.

End Handlers.

(** An API key that no account has is refused. *)
Lemma revoked_key_refused env jwt_verify (auth : option string) (s : Store) :
  old <> "" -> K s ->
  run (authMiddleware env jwt_verify (mkHeaders (Some old) auth)) s
  = (s, inr (Respond (reply 401 "Invalid API key"))).
Proof.
  intros Hold Hs. rewrite run_auth_key by exact Hold.
  unfold db_findOne. destruct (List.find _ s) as [u|] eqn:Hu; [|reflexivity].
  apply find_some_elem in Hu as [Hin Hm]. apply bool_decide_eq_true in Hm.
  unfold key_free in Hs. rewrite Forall_forall in Hs. exfalso. eapply Hs; eauto.
Qed.

End Revoked.

(** ** Requests in flight across a rotation *)

Section InFlight.

Variable old : string.
Local Abbreviation G := (harmless old).
Local Abbreviation any := (fun _ : Exn + _ => True).

Lemma guarded_mono {A : Type} (Q Q' : Exn + A -> Prop) (p : Prog A) :
  (forall r, Q r -> Q' r) -> guarded G Q p -> guarded G Q' p.
Proof.
  intros HQ. induction p as [a|e|q k IH|i k IH|d k IH]; simpl; auto.
  intros (Hd & He & Hs). split; [exact Hd|]. split; [intros e|]; apply IH; auto.
Qed.

Lemma guarded_bind {A B : Type} (Q : Exn + B -> Prop) (p : Prog A) (f : A -> Prog B) :
  guarded G (fun r => match r with
                      | inl e => Q (inl e)
                      | inr a => guarded G Q (f a)
                      end) p ->
  guarded G Q (p ≫= f).
Proof.
  unfold mbind, Prog_bind.
  induction p as [a|e|q k IH|i k IH|d k IH]; simpl; auto.
  intros (Hd & He & Hs). split; [exact Hd|]. split; [intros e|]; apply IH; auto.
Qed.

Lemma guarded_try_catch {A : Type} (Q : Exn + A -> Prop) (p : Prog A) (h : Exn -> Prog A) :
  guarded G (fun r => match r with
                      | inl e => guarded G Q (h e)
                      | inr a => Q (inr a)
                      end) p ->
  guarded G Q (try_catch p h).
Proof.
  induction p as [a|e|q k IH|i k IH|d k IH]; simpl; auto.
  intros (Hd & He & Hs). split; [exact Hd|]. split; [intros e|]; apply IH; auto.
Qed.

(** A request in flight stays guarded whatever store its next
    operation meets, and the operation keeps every property of the
    store that harmless saves keep. *)
Lemma guarded_step {A : Type} (Q : Exn + A -> Prop) (p : Prog A) (s : Store) :
  guarded G Q p ->
  guarded G Q (step p s).1 /\
  forall I : Store -> Prop,
    (forall d s s', G d -> I s -> db_save d s = inr s' -> I s') ->
    I s -> I (step p s).2.
Proof.
  destruct p as [a|e|q k|i k|d k]; simpl; auto.
  intros (Hd & He & Hs). destruct (db_save d s) as [e|s'] eqn:Hsave; simpl; [auto|].
  split; [exact Hs|]. intros I HI Hs0. eapply HI; eauto.
Qed.

Lemma guarded_save {A : Type} (Q : Exn + A -> Prop) (d : Doc) (f : Doc -> Prog A) :
  G d -> (forall e, Q (inl e)) -> guarded G Q (f (saved d)) ->
  guarded G Q (save d ≫= f).
Proof. intros Hd He Hf. simpl. auto. Qed.

Lemma guarded_save_ret (Q : Exn + Doc -> Prop) (d : Doc) :
  G d -> (forall e, Q (inl e)) -> Q (inr (saved d)) -> guarded G Q (save d).
Proof. intros Hd He Hf. simpl. auto. Qed.

Lemma guarded_findOne {A : Type} (Q : Exn + A -> Prop) (q : Query) (f : option Doc -> Prog A) :
  (forall r, match r with Some d => unkeyed d | None => True end -> guarded G Q (f r)) ->
  guarded G Q (findOne q ≫= f).
Proof.
  intros Hf s. apply Hf.
  destruct (db_findOne q s) as [d|] eqn:Hd; [|exact I].
  eapply find_unkeyed, Hd.
Qed.

Lemma guarded_answer (p : Prog Response) : guarded G any p -> guarded G any (answer p).
Proof.
  intros Hp. unfold answer. apply guarded_bind.
  eapply guarded_mono; [|exact Hp]. intros [e|r] _; exact I.
Qed.

Lemma db_save_key_free_but (i : ObjectId) (d : Doc) (s s' : Store) :
  G d -> key_free_but old i s -> db_save d s = inr s' -> key_free_but old i s'.
Proof.
  unfold key_free_but, db_save, harmless. intros Hd Hs.
  destruct (isNew d) eqn:Hnew.
  - case_match; [discriminate|]. intros [= <-].
    apply Forall_app. split; [exact Hs|]. constructor; [auto | constructor].
  - case_match; [discriminate|]. case_match; [discriminate|]. intros [= <-].
    apply Forall_fmap. eapply Forall_impl; [exact Hs|].
    intros v Hv. simpl.
    destruct (bool_decide (_id v = _id (fields d))) eqn:Hid; [|exact Hv].
    apply bool_decide_eq_true in Hid.
    intros Hne. rewrite patch_fields. simpl. case_decide; [auto|].
    apply Hv. rewrite patch_fields in Hne. exact Hne.
Qed.

Section Handlers.

Variable env : Env.
Variable jwt_verify : string -> string -> Exn + JwtPayload.
Variable jwt_sign : JwtPayload -> string -> Z -> string.
Variable bcrypt_hash : string -> string -> string.
Variable bcrypt_compare : string -> string -> bool.

Lemma guarded_authMiddleware (req : Headers) :
  guarded G handed_on (authMiddleware env jwt_verify req).
Proof.
  unfold authMiddleware. apply guarded_try_catch.
  assert (forall auth,
            guarded G (fun r => match r with
                                | inl e => guarded G handed_on
                                             (Ret (Respond (reply 401 "Auth error")))
                                | inr a => handed_on (inr a)
                                end) (auth_by_token env jwt_verify auth)) as Htok.
  { intros [auth|]; [|exact I]. unfold auth_by_token.
    destruct (JS.startsWith "Bearer " auth); [|exact I].
    apply guarded_bind.
    destruct (jwt_verify _ _) as [e|payload]; simpl; [exact I|].
    intros s. destruct (db_findById (payload_id payload) s) as [d|] eqn:Hd; simpl; [|exact I].
    eapply find_unkeyed, Hd. }
  destruct (x_api_key req) as [key|]; [destruct (JS.truthy (Some key))|]; auto.
  simpl. intros s.
  destruct (db_findOne (ByApiKey key) s) as [d|] eqn:Hd; simpl; [|exact I].
  eapply find_unkeyed, Hd.
Qed.

Lemma guarded_enforceLimit (now : Z) (user : Doc) :
  unkeyed user -> guarded G any (enforceLimit env now user).
Proof.
  intros Hu. unfold enforceLimit. apply guarded_bind.
  assert (forall d, unkeyed d -> guarded G any (charge env d)) as Hcharge.
  { intros d Hd. unfold charge. case_match; [exact I|].
    apply guarded_save; [|auto|exact I].
    apply unkeyed_harmless, unkeyed_assign; [discriminate | exact Hd]. }
  unfold rollover. case_match; [|simpl; auto].
  apply guarded_save_ret; [|auto|].
  - apply unkeyed_harmless.
    repeat (apply unkeyed_assign; [discriminate|]). exact Hu.
  - apply Hcharge, saved_unkeyed.
Qed.

Lemma guarded_protected (now : Z) (req : Headers) :
  guarded G any (protected env jwt_verify now req).
Proof.
  unfold protected. apply guarded_bind.
  eapply guarded_mono; [|apply guarded_authMiddleware].
  intros [e|[r|user]] Hr; simpl; auto. apply guarded_enforceLimit, Hr.
Qed.

Lemma guarded_signup (now : Z) (oid : ObjectId) (salt uuid : string) (form : Form) :
  genApiKey uuid <> old ->
  guarded G any (signup env jwt_sign bcrypt_hash now oid salt uuid form).
Proof.
  intros Hfresh. unfold signup. apply guarded_try_catch.
  case_match; [exact I|].
  apply guarded_findOne. intros [d|] _; [exact I|].
  apply guarded_save; [|intros e; exact I|exact I].
  intros _. simpl. congruence.
Qed.

Lemma guarded_login (now : Z) (form : Form) :
  guarded G any (login env jwt_sign bcrypt_compare now form).
Proof.
  unfold login. apply guarded_try_catch.
  apply guarded_findOne. intros [d|] _; [|exact I].
  apply guarded_bind. destruct (compare_password bcrypt_compare _ _) as [e|ok]; simpl; [exact I|].
  destruct ok; exact I.
Qed.

Lemma guarded_regenerate (uuid : string) (user : Doc) :
  genApiKey uuid <> old -> guarded G any (regenerate uuid user).
Proof.
  intros Hfresh. unfold regenerate. apply guarded_try_catch.
  apply guarded_save; [|intros e; exact I|exact I].
  unfold set_apiKey, harmless. rewrite assign_fields. simpl. congruence.
Qed.

Lemma guarded_regenerateApiKey (uuid : string) (req : Headers) :
  genApiKey uuid <> old -> guarded G any (regenerateApiKey env jwt_verify uuid req).
Proof.
  intros Hfresh. unfold regenerateApiKey. apply guarded_bind.
  eapply guarded_mono; [|apply guarded_authMiddleware].
  intros [e|[r|user]] Hr; cbn beta iota; try exact I. apply guarded_regenerate, Hfresh.
Qed.

Lemma guarded_me (req : Headers) : guarded G any (me env jwt_verify req).
Proof.
  unfold me. apply guarded_bind.
  eapply guarded_mono; [|apply guarded_authMiddleware].
  intros [e|[r|user]] Hr; simpl; auto.
Qed.

Lemma guarded_promote (form : Form) : guarded G any (promote form).
Proof.
  unfold promote. apply guarded_try_catch.
  apply guarded_findOne. intros [d|] Hd; [|exact I].
  apply guarded_save; [|intros e; exact I|exact I].
  apply unkeyed_harmless, unkeyed_assign; [discriminate | exact Hd].
Qed.

Lemma guarded_handle (c : Call) :
  old ∉ draws c ->
  guarded G any (handle env jwt_verify jwt_sign bcrypt_hash bcrypt_compare c).
Proof.
  destruct c; cbn [handle draws]; intros Hc;
    try (assert (genApiKey uuid <> old) as Hfresh
           by (intros Heq; apply Hc; rewrite Heq; apply list_elem_of_here)).
  - apply guarded_answer, guarded_signup, Hfresh.
  - apply guarded_answer, guarded_login.
  - apply guarded_answer, guarded_regenerateApiKey, Hfresh.
  - apply guarded_answer, guarded_me.
  - apply guarded_protected.
  - apply guarded_answer, guarded_promote.
Qed.

Local Abbreviation future' :=
  (future env jwt_verify jwt_sign bcrypt_hash bcrypt_compare old).

(** While no call generates [old], every request in flight stays
    guarded, and the store keeps every property that harmless saves
    keep, from any state of the server. *)
Lemma future_guarded (I : Store -> Prop) (σ σ' : Server) :
  (forall d s s', G d -> I s -> db_save d s = inr s' -> I s') ->
  I (db σ) -> Forall (guarded G any) (inflight σ) ->
  future' σ σ' ->
  I (db σ') /\ Forall (guarded G any) (inflight σ').
Proof.
  intros HI Hs Hp Hfut.
  induction Hfut as [|σ' c _ [IHs IHp] Hc|σ' j p _ [IHs IHp] Hj]; simpl.
  - auto.
  - split; [exact IHs|]. apply Forall_app. split; [exact IHp|].
    constructor; [apply guarded_handle, Hc | constructor].
  - assert (guarded G any p) as Hg by (eapply Forall_lookup_1; eauto).
    destruct (guarded_step any p (db σ') Hg) as [Hp' Hs'].
    split; [apply Hs'; assumption | apply Forall_insert; assumption].
Qed.

(** *** One rotation among the requests in flight *)

Lemma db_save_unique_ids (d : Doc) (s s' : Store) :
  unique_ids s -> db_save d s = inr s' -> unique_ids s'.
Proof.
  unfold db_save, unique_ids. intros Hs. destruct (isNew d).
  - destruct (id_taken _ s) eqn:Hid; [discriminate|]. case_match; [discriminate|].
    intros [= <-]. rewrite fmap_app. apply NoDup_app.
    split; [exact Hs|]. split; [|apply NoDup_singleton].
    intros j Hj Hd. apply list_elem_of_singleton in Hd. subst j.
    apply list_elem_of_fmap in Hj as (v & Hv & Hin).
    apply not_true_iff_false in Hid. apply Hid. unfold id_taken.
    apply existsb_exists. exists v. split; [apply list_elem_of_In, Hin|].
    apply bool_decide_eq_true_2. symmetry. exact Hv.
  - case_match; [discriminate|]. case_match; [discriminate|]. intros [= <-].
    assert (_id <$> map (fun v => if bool_decide (_id v = _id (fields d)) then patch d v else v) s
            = _id <$> s) as ->; [|exact Hs].
    change (map ?f s) with (f <$> s). rewrite <- list_fmap_compose.
    apply list_fmap_ext. intros j v _. simpl.
    destruct (bool_decide (_id v = _id (fields d))); [rewrite patch_fields|]; reflexivity.
Qed.

Variable uuid : string.
Variable i : ObjectId.
Hypothesis fresh : genApiKey uuid <> old.

Local Abbreviation regenerating req :=
  (handle env jwt_verify jwt_sign bcrypt_hash bcrypt_compare (CallRegenerate uuid req)).

(** The first operation of a regenerate request that presents the key
    [old]: the lookup by the key. *)
Lemma step_rotation_key (auth : option string) (s : Store) :
  old <> "" ->
  step (regenerating (mkHeaders (Some old) auth)) s
  = (match List.find (matches (ByApiKey old)) s with
     | Some v => answer (regenerate uuid (hydrate v))
     | None => Ret (Respond (reply 401 "Invalid API key"))
     end, s).
Proof.
  intros Hne. cbn [handle]. unfold regenerateApiKey, authMiddleware. cbn [x_api_key].
  rewrite (truthy_nonempty old Hne). unfold auth_by_key.
  cbn [answer findOne mbind Prog_bind bind try_catch step]. unfold db_findOne.
  destruct (List.find _ s) as [v|]; reflexivity.
Qed.

(** The first operation of a regenerate request that presents a bearer
    token which verifies: the lookup by the identifier in the token. *)
Lemma step_rotation_token (key : option string) (token : string) (payload : JwtPayload)
    (s : Store) :
  JS.truthy key = false ->
  jwt_verify token (JWT_SECRET env) = inr payload ->
  step (regenerating (mkHeaders key (Some ("Bearer " ++ token)%string))) s
  = (match List.find (fun u => bool_decide (_id u = payload_id payload)) s with
     | Some v => answer (regenerate uuid (hydrate v))
     | None => Ret (Respond (reply 401 "Invalid token"))
     end, s).
Proof.
  intros Hkey Hverify. cbn [handle]. unfold regenerateApiKey, authMiddleware. cbn [x_api_key].
  assert (match key with
          | Some key0 =>
              if JS.truthy (Some key0) then auth_by_key key0
              else auth_by_token env jwt_verify
                     (authorization (mkHeaders key (Some ("Bearer " ++ token)%string)))
          | None => auth_by_token env jwt_verify
                      (authorization (mkHeaders key (Some ("Bearer " ++ token)%string)))
          end
          = auth_by_token env jwt_verify (Some ("Bearer " ++ token)%string)) as ->.
  { destruct key as [k|]; [|reflexivity]. rewrite Hkey. reflexivity. }
  unfold auth_by_token.
  change (JS.startsWith "Bearer " ("Bearer " ++ token)%string) with true. cbv iota.
  change (JS.slice 7 ("Bearer " ++ token)%string) with token. cbv zeta.
  rewrite Hverify.
  cbn [answer lift findById mbind Prog_bind bind try_catch step]. unfold db_findById.
  destruct (List.find _ s) as [v|]; reflexivity.
Qed.

(** Its second operation: the save of the new key. *)
Lemma step_regenerate (d : Doc) (s : Store) :
  step (answer (regenerate uuid d)) s
  = match db_save (set_apiKey (genApiKey uuid) d) s with
    | inl e => (Ret (Respond (reply 500 "Regenerate failed")), s)
    | inr s' =>
        (Ret (Respond (mkResponse 200 (ApiKey (apiKey (fields (set_apiKey (genApiKey uuid) d)))))),
         s')
    end.
Proof.
  unfold answer, regenerate. cbn [save mbind Prog_bind bind try_catch step].
  destruct (db_save _ s); reflexivity.
Qed.

Lemma regenerate_harmless (d : Doc) : G (set_apiKey (genApiKey uuid) d).
Proof. unfold set_apiKey, harmless. rewrite assign_fields. simpl. congruence. Qed.

(** When the save of the rotation succeeds, no account is left with
    the old key. *)
Lemma regenerate_key_free (v : User) (s s' : Store) :
  key_free_but old i s -> _id v = i -> apiKey v = Some old ->
  db_save (set_apiKey (genApiKey uuid) (hydrate v)) s = inr s' ->
  key_free old s'.
Proof.
  intros Hs Hid Hkey.
  assert (set_apiKey (genApiKey uuid) (hydrate v)
          = mkDoc (with_apiKey (Some (genApiKey uuid)) v) false [p_apiKey]) as ->.
  { unfold set_apiKey, assign. cbn [fields hydrate]. rewrite decide_False; [reflexivity|].
    intros Heq. apply (f_equal apiKey) in Heq. simpl in Heq. congruence. }
  unfold db_save. cbn [isNew fields modifiedPaths].
  case_match; [discriminate|]. case_match; [discriminate|]. intros [= <-].
  unfold key_free, key_free_but in *. apply Forall_fmap. eapply Forall_impl; [exact Hs|].
  intros w Hw. simpl. destruct (bool_decide (_id w = _id v)) eqn:Hwv.
  - unfold patch. simpl. congruence.
  - apply Hw. apply bool_decide_eq_false in Hwv. congruence.
Qed.

(** The account with identifier [i] is the only one that may have the
    old key, and identifiers are distinct. *)
Local Abbreviation rotating := (fun s : Store => key_free_but old i s /\ unique_ids s).

Lemma db_save_rotating (d : Doc) (s s' : Store) :
  G d -> rotating s -> db_save d s = inr s' -> rotating s'.
Proof.
  intros Hd [Hbut Hids] Hsave.
  split; [eapply db_save_key_free_but | eapply db_save_unique_ids]; eauto.
Qed.

Lemma rotating_key_free (v : User) (s : Store) :
  rotating s -> v ∈ s -> _id v = i -> apiKey v <> Some old -> key_free old s.
Proof.
  intros [Hbut Hids] Hv Hid Hkey. unfold key_free, key_free_but in *.
  rewrite Forall_forall in *. intros w Hw.
  destruct (decide (_id w = i)) as [Hwi|Hwi]; [|auto].
  assert (w = v) as -> by (eapply unique_ids_same; eauto; congruence). exact Hkey.
Qed.

Variable req : Headers.

(** The request resolves to the account with identifier [i] or is
    answered with an error, whatever it finds. *)
Hypothesis resolves :
  forall s, rotating s ->
    (exists r, status r <> 200 /\ step (regenerating req) s = (Ret (Respond r), s)) \/
    (exists v, v ∈ s /\ _id v = i /\
               step (regenerating req) s = (answer (regenerate uuid (hydrate v)), s)).

(** The rotation, wherever it stands among the requests in flight:
    not started, about to save the account it loaded, or answered; once
    it is answered 200 no account has the old key. *)
Lemma rotation_stages (σ1 σ : Server) :
  rotating (db σ1) -> Forall (guarded G any) (inflight σ1) -> old ∉ draws (CallRegenerate uuid req) ->
  future' (mkServer (db σ1) (inflight σ1 ++ [regenerating req])) σ ->
  rotating (db σ) /\ Forall (guarded G any) (inflight σ) /\
  exists p, inflight σ !! length (inflight σ1) = Some p /\
    (p = regenerating req \/
     (exists v, _id v = i /\ p = answer (regenerate uuid (hydrate v)) /\
                (apiKey v = Some old \/ key_free old (db σ))) \/
     (exists r, p = Ret (Respond r) /\ (status r = 200 -> key_free old (db σ)))).
Proof.
  intros Hs Hp Hdraw Hfut.
  induction Hfut as [|σ' c _ (IHs & IHp & p & Hp' & Hstage) Hc
                     |σ' j q _ (IHs & IHp & p & Hp' & Hstage) Hj]; cbn [db inflight].
  - split; [exact Hs|]. split.
    + apply Forall_app. split; [exact Hp|]. constructor; [|constructor].
      apply guarded_handle, Hdraw.
    + exists (regenerating req). split; [|auto]. apply list_lookup_middle. reflexivity.
  - split; [exact IHs|]. split.
    + apply Forall_app. split; [exact IHp|].
      constructor; [apply guarded_handle, Hc | constructor].
    + exists p. split; [|exact Hstage].
      apply lookup_app_l_Some. exact Hp'.
  - assert (guarded G any q) as Hg by (eapply Forall_lookup_1; eauto).
    destruct (guarded_step any q (db σ') Hg) as [Hq' Hkeep].
    assert (forall d s s', G d -> key_free old s -> db_save d s = inr s' -> key_free old s')
      as Hfree by (intros d s s' Hd Hk; eapply db_save_key_free; eauto).
    split; [apply (Hkeep rotating); [exact db_save_rotating | exact IHs]|].
    split; [apply Forall_insert; assumption|].
    destruct (decide (j = length (inflight σ1))) as [->|Hne].
    + assert (q = p) as -> by congruence.
      exists (step p (db σ')).1. split.
      { apply list_lookup_insert_eq. eapply lookup_lt_Some, Hp'. }
      destruct Hstage as [->|[(v & Hid & -> & Hkey)|(r & -> & Hr)]].
      * destruct (resolves (db σ') IHs) as [(r & Hr & ->)|(v & Hin & Hid & ->)]; cbn [fst snd].
        -- right. right. exists r. split; [reflexivity|]. intros H200. contradiction.
        -- right. left. exists v. split; [exact Hid|]. split; [reflexivity|].
           destruct (decide (apiKey v = Some old)) as [Hkey|Hkey]; [left; exact Hkey|].
           right. eapply rotating_key_free; eauto.
      * rewrite step_regenerate.
        destruct (db_save _ (db σ')) as [e|s'] eqn:Hsave; cbn [fst snd].
        -- right. right. eexists. split; [reflexivity|]. discriminate.
        -- right. right. eexists. split; [reflexivity|]. intros _.
           destruct Hkey as [Hkey|Hkey].
           ++ eapply regenerate_key_free; [exact (proj1 IHs) | | |]; eauto.
           ++ eapply Hfree; [apply regenerate_harmless | exact Hkey | exact Hsave].
      * right. right. exists r. split; [reflexivity|]. exact Hr.
    + exists p. split; [rewrite list_lookup_insert_ne by exact Hne; exact Hp'|].
      destruct Hstage as [->|[(v & Hid & -> & Hkey)|(r & -> & Hr)]]; [auto| |].
      * right. left. exists v. split; [exact Hid|]. split; [reflexivity|].
        destruct Hkey as [Hkey|Hkey]; [left; exact Hkey|].
        right. apply (Hkeep (key_free old)); assumption.
      * right. right. exists r. split; [reflexivity|]. intros H200.
        apply (Hkeep (key_free old)); [exact Hfree | exact (Hr H200)].
Qed.

(** Once the rotation has been answered 200, no account has the old
    key, whatever else is in flight. *)
Lemma rotation_answered (σ1 σ : Server) (resp : Response) :
  rotating (db σ1) -> Forall (guarded G any) (inflight σ1) ->
  future' (mkServer (db σ1) (inflight σ1 ++ [regenerating req])) σ ->
  inflight σ !! length (inflight σ1) = Some (Ret (Respond resp)) -> status resp = 200 ->
  key_free old (db σ) /\ Forall (guarded G any) (inflight σ).
Proof.
  intros Hs Hp Hfut Hat H200.
  assert (old ∉ draws (CallRegenerate uuid req)) as Hdraw.
  { cbn [draws]. intros Hin. apply list_elem_of_singleton in Hin. congruence. }
  destruct (rotation_stages σ1 σ Hs Hp Hdraw Hfut) as (_ & Hg & p & Hp' & Hstage).
  split; [|exact Hg]. rewrite Hat in Hp'. injection Hp' as <-.
  destruct Hstage as [Heq|[(v & _ & Heq & _)|(r & Heq & Hr)]].
  - exfalso.
    assert (rotating []) as Hnil by (split; [constructor | apply NoDup_nil_2]).
    destruct (resolves [] Hnil) as [(r & Hr & Hstep)|(v & Hin & _)]; [|inversion Hin].
    rewrite <- Heq in Hstep. cbn [step] in Hstep. injection Hstep as <-. contradiction.
  - discriminate Heq.
  - injection Heq as <-. exact (Hr H200).
Qed.

End Handlers.

End InFlight.

(** ** Rotating the API key *)

Lemma unique_keys_same (s : Store) (u v : User) (k : string) :
  NoDup (omap apiKey s) -> u ∈ s -> v ∈ s ->
  apiKey u = Some k -> apiKey v = Some k -> _id v <> _id u -> False.
Proof.
  intros Hkeys Hu Hv Hku Hkv Hne.
  induction s as [|w s IH]; [inversion Hu|].
  simpl in Hkeys.
  apply elem_of_cons in Hu as [->|Hu]; apply elem_of_cons in Hv as [->|Hv].
  - congruence.
  - rewrite Hku in Hkeys. apply NoDup_cons in Hkeys as [Hnot _].
    apply Hnot. apply list_elem_of_omap. eauto.
  - rewrite Hkv in Hkeys. apply NoDup_cons in Hkeys as [Hnot _].
    apply Hnot. apply list_elem_of_omap. eauto.
  - apply IH; auto. destruct (apiKey w); [apply NoDup_cons in Hkeys as [_ ?]|]; auto.
Qed.

Lemma put_key_free (old : string) (s : Store) (u u' : User) :
  unique_ids s -> NoDup (omap apiKey s) -> u ∈ s ->
  apiKey u = Some old -> _id u' = _id u -> apiKey u' <> Some old ->
  key_free old (put u' s).
Proof.
  intros Hids Hkeys Hin Hold Hid Hnew. unfold key_free, put.
  apply Forall_fmap, Forall_forall. intros v Hv. simpl.
  case_bool_decide as Hv'; [exact Hnew|].
  intros Hkv. eapply (unique_keys_same s u v); eauto. congruence.
Qed.

Lemma find_put_key (k : string) (s : Store) (u' : User) :
  apiKey_taken (_id u') (Some k) s = false -> apiKey u' = Some k ->
  id_taken (_id u') s = true ->
  List.find (matches (ByApiKey k)) (put u' s) = Some u'.
Proof.
  intros Hfree Hk. induction s as [|v s IH]; [discriminate|].
  simpl in *. apply orb_false_elim in Hfree as [Hv Hfree].
  destruct (decide (_id v = _id u')) as [Hid|Hid].
  - intros _. rewrite (bool_decide_eq_true_2 _ Hid).
    rewrite (bool_decide_eq_true_2 _ Hk). reflexivity.
  - rewrite (bool_decide_eq_false_2 _ Hid) in *. simpl. intros Htaken.
    rewrite andb_true_r in Hv. rewrite Hv. auto.
Qed.

(** C5. For an account [u] with API key [old] in a collection with
    distinct identifiers and distinct keys, and a freshly generated key.
    Served alone, a regenerate request of [u] that is answered 200
    carries the new key in its response; afterwards a request with the
    old key is answered 401 ["Invalid API key"] (InvalidApiKey), a
    request with the new key resolves to the same account, now holding
    the new key, and the old key stays refused in every state the
    server reaches, whatever calls arrive and however their operations
    interleave. Served among other requests, with any requests in
    flight when it arrives, while it runs and after it: once a
    regenerate request of [u], which presents the old key or a bearer
    token that verifies for [u], has been answered 200, the old key is
    refused in every state the server reaches, also while requests that
    loaded the account before the rotation complete. Both as long as no
    call generates the old key again. *)
Theorem regenerate_revokes (env : Env) (jwt_verify : string -> string -> Exn + JwtPayload)
    (jwt_sign : JwtPayload -> string -> Z -> string)
    (bcrypt_hash : string -> string -> string) (bcrypt_compare : string -> string -> bool)
    (s : Store) (uuid old : string) (u : User) :
  unique_ids s -> NoDup (omap apiKey s) ->
  apiKey u = Some old -> old <> "" -> genApiKey uuid <> old ->
  let u' := with_apiKey (Some (genApiKey uuid)) u in
  let future := future env jwt_verify jwt_sign bcrypt_hash bcrypt_compare old in
  let refused (s : Store) :=
    forall auth,
      run (authMiddleware env jwt_verify (mkHeaders (Some old) auth)) s
      = (s, inr (Respond (reply 401 "Invalid API key"))) in
  (forall (req : Headers) (s' : Store) (resp : Response),
     run (authMiddleware env jwt_verify req) s = (s, inr (Next (hydrate u))) ->
     run (regenerateApiKey env jwt_verify uuid req) s = (s', inr resp) ->
     status resp = 200 ->
     resp = mkResponse 200 (ApiKey (Some (genApiKey uuid))) /\
     refused s' /\
     (forall auth,
        run (authMiddleware env jwt_verify (mkHeaders (Some (genApiKey uuid)) auth)) s'
        = (s', inr (Next (hydrate u')))) /\
     stored s' (_id u) = Some u' /\
     (forall σ : Server, future (mkServer s' []) σ -> refused (db σ))) /\
  kind_of (reply 401 "Invalid API key") = Some InvalidApiKey /\
  (u ∈ s ->
   forall req : Headers,
     (exists auth, req = mkHeaders (Some old) auth) \/
     (exists key token payload,
        req = mkHeaders key (Some ("Bearer " ++ token)%string) /\ JS.truthy key = false /\
        jwt_verify token (JWT_SECRET env) = inr payload /\ payload_id payload = _id u) ->
   forall (σ1 σ2 σ3 : Server) (resp : Response),
     future (mkServer s []) σ1 ->
     future (mkServer (db σ1)
               (inflight σ1 ++ [handle env jwt_verify jwt_sign bcrypt_hash bcrypt_compare
                                  (CallRegenerate uuid req)])) σ2 ->
     inflight σ2 !! length (inflight σ1) = Some (Ret (Respond resp)) ->
     status resp = 200 ->
     future σ2 σ3 ->
     refused (db σ3)).
Proof.
  intros Hids Hkeys Hold Hne Hfresh u' future refused.
  split; [|split; [reflexivity|]].
  - intros req s' resp Hauth Hrun Hstatus.
    assert (u ∈ s) as Hin.
    { destruct (run_authMiddleware env jwt_verify req s) as (m & Hm & Hp).
      rewrite Hauth in Hm. injection Hm as <-. apply Hp. }
    set (d := set_apiKey (genApiKey uuid) (hydrate u)).
    assert (tracks d u) as Htr by apply tracks_set_apiKey, tracks_hydrate.
    assert (fields d = u') as Hf by (unfold d, set_apiKey; apply assign_fields).
    assert (p_apiKey ∈ modifiedPaths d) as Hmod.
    { unfold d, set_apiKey, assign. case_decide as Heq.
      - exfalso. apply Hfresh. apply (f_equal apiKey) in Heq. simpl in Heq. congruence.
      - simpl. apply list_elem_of_here. }
    pose proof (stored_id_taken s (_id u) u (stored_elem s u Hids Hin)) as (Htaken & _ & _).
    unfold regenerateApiKey in Hrun. rewrite run_bind, Hauth in Hrun.
    unfold regenerate in Hrun. fold d in Hrun.
    rewrite run_try_catch, run_bind in Hrun.
    destruct (apiKey_taken (_id u) (Some (genApiKey uuid)) s) eqn:Hdup.
    { exfalso. rewrite (run_save_err d s DuplicateKeyError) in Hrun.
      - simpl in Hrun. injection Hrun as _ <-. discriminate Hstatus.
      - unfold db_save. rewrite (tr_old _ _ Htr), (bool_decide_eq_true_2 _ Hmod), Hf.
        change (_id u') with (_id u). change (apiKey u') with (Some (genApiKey uuid)).
        rewrite Htaken, Hdup. reflexivity. }
    rewrite (run_save_ok d s (put u' s)) in Hrun.
    2:{ rewrite <- Hf. apply (db_save_tracked d u); auto.
        rewrite Hf. change (apiKey u') with (Some (genApiKey uuid)).
        rewrite Hdup. apply andb_false_r. }
    simpl in Hrun. rewrite Hf in Hrun. injection Hrun as <- <-.
    assert (key_free old (put u' s)) as Hfree.
    { apply (put_key_free old s u); auto. simpl. congruence. }
    assert (genApiKey uuid <> "") as Hnew by discriminate.
    split; [reflexivity|]. split; [|split; [|split]].
    + intros auth. apply revoked_key_refused; assumption.
    + intros auth. rewrite run_auth_key by exact Hnew. unfold db_findOne.
      rewrite (find_put_key (genApiKey uuid) s u'); auto.
    + change (_id u) with (_id u'). apply (put_stored_same u' u).
      exact (stored_elem s u Hids Hin).
    + intros σ Hfut auth.
      destruct (future_key_free old env jwt_verify jwt_sign bcrypt_hash bcrypt_compare
                  (mkServer (put u' s) []) σ Hfree (Forall_nil_2 _) Hfut) as [Hk _].
      apply revoked_key_refused; assumption.
  - intros Hin req Hreq σ1 σ2 σ3 resp Hbefore Hduring Hat H200 Hafter auth'.
    assert (key_free_but old (_id u) s /\ unique_ids s) as Hbut.
    { split; [|exact Hids]. apply Forall_forall. intros v Hv Hvu Hkv.
      exact (unique_keys_same s u v old Hkeys Hin Hv Hold Hkv Hvu). }
    destruct (future_guarded old env jwt_verify jwt_sign bcrypt_hash bcrypt_compare
                (fun s => key_free_but old (_id u) s /\ unique_ids s) (mkServer s []) σ1
                (db_save_rotating old (_id u))
                Hbut (Forall_nil_2 _) Hbefore) as [Hbut1 Hpool1].
    assert (forall s0, key_free_but old (_id u) s0 /\ unique_ids s0 ->
              (exists r, status r <> 200 /\
                 step (handle env jwt_verify jwt_sign bcrypt_hash bcrypt_compare
                         (CallRegenerate uuid req)) s0 = (Ret (Respond r), s0)) \/
              (exists v, v ∈ s0 /\ _id v = _id u /\
                 step (handle env jwt_verify jwt_sign bcrypt_hash bcrypt_compare
                         (CallRegenerate uuid req)) s0
                 = (answer (regenerate uuid (hydrate v)), s0))) as Hresolves.
    { intros s0 [Hbut0 _].
      destruct Hreq as [[auth ->]|(key & token & payload & -> & Hkey & Hverify & Hid)].
      - rewrite step_rotation_key by exact Hne.
        destruct (List.find _ s0) as [v|] eqn:Hfind.
        + right. exists v. apply find_some_elem in Hfind as [Hv Hm].
          apply bool_decide_eq_true in Hm. split; [exact Hv|]. split; [|reflexivity].
          destruct (decide (_id v = _id u)) as [|Hvu]; [assumption|]. exfalso.
          unfold key_free_but in Hbut0. rewrite Forall_forall in Hbut0.
          exact (Hbut0 v Hv Hvu Hm).
        + left. eexists. split; [|reflexivity]. discriminate.
      - rewrite (step_rotation_token env jwt_verify jwt_sign bcrypt_hash bcrypt_compare
                   uuid key token payload s0 Hkey Hverify).
        destruct (List.find _ s0) as [v|] eqn:Hfind.
        + right. exists v. apply find_some_elem in Hfind as [Hv Hm].
          apply bool_decide_eq_true in Hm. split; [exact Hv|]. split; [congruence | reflexivity].
        + left. eexists. split; [|reflexivity]. discriminate. }
    destruct (rotation_answered old env jwt_verify jwt_sign bcrypt_hash bcrypt_compare
                uuid (_id u) Hfresh req Hresolves σ1 σ2 resp Hbut1 Hpool1 Hduring Hat H200)
      as [Hfree2 Hpool2].
    destruct (future_guarded old env jwt_verify jwt_sign bcrypt_hash bcrypt_compare
                (key_free old) σ2 σ3
                (fun d s0 s1 Hd Hs => db_save_key_free old d s0 s1 Hs Hd)
                Hfree2 Hpool2 Hafter) as [Hfree3 _].
    apply revoked_key_refused; assumption.
Qed.

(** [Sample.alice] rotates her key with [uuidv4() = "00-ff"]: served
    alone; and while a request of hers that has loaded her account with
    the old key is in flight, which saves her count after the rotation
    has been answered. *)
Lemma regenerate_revokes_witness :
  run (authMiddleware Sample.env Sample.jwt_verify (mkHeaders (Some "pk_alice") None))
      [with_apiKey (Some "pk_00ff") Sample.alice; Sample.bob]
    = ([with_apiKey (Some "pk_00ff") Sample.alice; Sample.bob],
       inr (Respond (reply 401 "Invalid API key"))) /\
  run (authMiddleware Sample.env Sample.jwt_verify (mkHeaders (Some "pk_alice") None))
      [with_dailyCount 20 (with_apiKey (Some "pk_00ff") Sample.alice); Sample.bob]
    = ([with_dailyCount 20 (with_apiKey (Some "pk_00ff") Sample.alice); Sample.bob],
       inr (Respond (reply 401 "Invalid API key"))).
Proof.
  assert (unique_ids [Sample.alice; Sample.bob]) as Hids
    by (apply (bool_decide_unpack _); vm_compute; exact I).
  assert (NoDup (omap apiKey [Sample.alice; Sample.bob])) as Hkeys
    by (apply (bool_decide_unpack _); vm_compute; exact I).
  assert ("pk_alice" <> "") as Hne by discriminate.
  assert (genApiKey "00-ff" <> "pk_alice") as Hfresh by discriminate.
  pose proof (regenerate_revokes Sample.env Sample.jwt_verify Sample.jwt_sign
                Sample.bcrypt_hash Sample.bcrypt_compare
                [Sample.alice; Sample.bob] "00-ff" "pk_alice" Sample.alice
                Hids Hkeys eq_refl Hne Hfresh) as (Halone & _ & Hamong).
  split.
  - exact (proj1 (proj2 (Halone (mkHeaders (Some "pk_alice") None)
                           [with_apiKey (Some "pk_00ff") Sample.alice; Sample.bob]
                           (mkResponse 200 (ApiKey (Some "pk_00ff")))
                           eq_refl eq_refl eq_refl)) None).
  - pose proof (future_now Sample.env Sample.jwt_verify Sample.jwt_sign Sample.bcrypt_hash
                  Sample.bcrypt_compare "pk_alice" (mkServer [Sample.alice; Sample.bob] []))
      as B0.
    pose proof (future_arrive _ _ _ _ _ _ _ _
                  (CallProtected 2000 (mkHeaders (Some "pk_alice") None)) B0
                  (not_elem_of_nil _)) as B1.
    pose proof (future_advance _ _ _ _ _ _ _ _ 0 _ B1 eq_refl) as B2.
    pose proof (future_now Sample.env Sample.jwt_verify Sample.jwt_sign Sample.bcrypt_hash
                  Sample.bcrypt_compare "pk_alice"
                  (mkServer [Sample.alice; Sample.bob]
                     [(step (protected Sample.env Sample.jwt_verify 2000
                               (mkHeaders (Some "pk_alice") None))
                            [Sample.alice; Sample.bob]).1;
                      handle Sample.env Sample.jwt_verify Sample.jwt_sign Sample.bcrypt_hash
                        Sample.bcrypt_compare
                        (CallRegenerate "00-ff" (mkHeaders (Some "pk_alice") None))])) as D0.
    pose proof (future_advance _ _ _ _ _ _ _ _ 1 _ D0 eq_refl) as D1.
    pose proof (future_advance _ _ _ _ _ _ _ _ 1 _ D1 eq_refl) as D2.
    match type of D2 with
    | future _ _ _ _ _ _ _ ?σ2 =>
        pose proof (future_advance _ _ _ _ _ _ _ _ 0 _
                      (future_now Sample.env Sample.jwt_verify Sample.jwt_sign
                         Sample.bcrypt_hash Sample.bcrypt_compare "pk_alice" σ2) eq_refl) as A1
    end.
    exact (Hamong (list_elem_of_here _ _) (mkHeaders (Some "pk_alice") None)
             (or_introl (ex_intro _ None eq_refl)) _ _ _
             (mkResponse 200 (ApiKey (Some "pk_00ff"))) B2 D2 eq_refl eq_refl A1 None).
Defined.

(** ** Two requests of one account in flight *)

Lemma run_step {A : Type} (p : Prog A) (s : Store) :
  run (step p s).1 (step p s).2 = run p s.
Proof. destruct p as [a|e|q k|i k|d k]; simpl; auto. destruct (db_save d s); reflexivity. Qed.

Lemma set_dailyCount_new (v : Z) (u : User) :
  v <> dailyCount u ->
  set_dailyCount v (hydrate u) = mkDoc (with_dailyCount v u) false [p_dailyCount].
Proof.
  intros Hv. unfold set_dailyCount, assign. simpl. case_decide as Heq; [|reflexivity].
  apply (f_equal dailyCount) in Heq. simpl in Heq. contradiction.
Qed.

Section Race.

Variable env : Env.
Variable jwt_verify : string -> string -> Exn + JwtPayload.
Variables (key : string) (r N c : Z) (i : ObjectId).
Hypothesis key_nonempty : key <> "".
Hypothesis free_limit : FREE_LIMIT env = Some N.
Hypothesis one_left : c + 1 = N.

Local Abbreviation I_any := (account_in key r i (fun n => n = c \/ n = c + 1)).
Local Abbreviation I_full := (account_in key r i (fun n => n = c + 1)).
Local Abbreviation settled :=
  (fun a : Exn + Middleware => admitted a = true \/ a = inr (Respond quota_exceeded)).

Lemma account_in_weaken (P P' : Z -> Prop) (s : Store) :
  (forall n, P n -> P' n) -> account_in key r i P s -> account_in key r i P' s.
Proof.
  intros HP (Hids & v & Hv & Hi & Hp & Hr & Hc). split; [exact Hids|].
  exists v. repeat split; auto.
Qed.

(** The first operation of a protected request loads the account. *)
Lemma step_protected (t : Z) (auth : option string) (s : Store) (v : User) :
  List.find (matches (ByApiKey key)) s = Some v ->
  step (protected env jwt_verify t (mkHeaders (Some key) auth)) s
  = (enforceLimit env t (hydrate v), s).
Proof.
  intros Hv. unfold protected, authMiddleware. cbn [x_api_key].
  rewrite (truthy_nonempty key key_nonempty).
  cbn [auth_by_key findOne mbind Prog_bind bind try_catch step].
  unfold db_findOne. rewrite Hv. reflexivity.
Qed.

(** Within the window, an account below the limit is charged by a
    single save, whatever count is stored by then. *)
Lemma enforceLimit_below (t : Z) (u : User) :
  plan u = free -> dailyReset u = Some r -> dailyCount u = c -> t - r <= day ->
  enforceLimit env t (hydrate u)
  = save (set_dailyCount (c + 1) (hydrate u)) ≫= (fun user => Ret (Next user)).
Proof.
  intros Hp Hr Hc Ht. unfold enforceLimit, rollover, expired. simpl fields. rewrite Hr.
  destruct (Z.ltb_spec day (t - r)); [lia|].
  cbn [mbind Prog_bind bind]. unfold charge, limit. simpl fields.
  rewrite Hp, free_limit, Hc. simpl JS.ge.
  destruct (Z.leb_spec N c); [lia | reflexivity].
Qed.

(** Within the window, an account at the limit is rejected without any
    operation. *)
Lemma enforceLimit_full (t : Z) (u : User) :
  plan u = free -> dailyReset u = Some r -> dailyCount u = c + 1 -> t - r <= day ->
  enforceLimit env t (hydrate u) = Ret (Respond quota_exceeded).
Proof.
  intros Hp Hr Hc Ht. unfold enforceLimit, rollover, expired. simpl fields. rewrite Hr.
  destruct (Z.ltb_spec day (t - r)); [lia|].
  cbn [mbind Prog_bind bind]. unfold charge, limit. simpl fields.
  rewrite Hp, free_limit, Hc. simpl JS.ge.
  destruct (Z.leb_spec N (c + 1)); [reflexivity | lia].
Qed.

(** The save of the charge, against a store in which the account has
    count [c] or [c + 1]: it succeeds and leaves count [c + 1]. *)
Lemma save_charge (u : User) (s : Store) :
  _id u = i -> dailyCount u = c -> I_any s ->
  exists s', db_save (set_dailyCount (c + 1) (hydrate u)) s = inr s' /\ I_full s'.
Proof.
  intros Hi Hc (Hids & v & Hv & Hvi & Hp & Hr & Hvc).
  destruct (find_some_elem _ _ _ Hv) as [Hin Hm].
  rewrite set_dailyCount_new by lia.
  pose proof (stored_id_taken s (_id v) v (stored_elem s v Hids Hin)) as (Htaken & _ & _).
  unfold db_save. simpl. rewrite Hi, <- Hvi, Htaken. simpl.
  eexists. split; [reflexivity|]. split.
  - unfold unique_ids. rewrite <- list_fmap_compose.
    erewrite list_fmap_ext; [exact Hids|].
    intros j w _. simpl. destruct (bool_decide (_id w = _id v)); reflexivity.
  - exists (with_dailyCount (c + 1) v).
    rewrite find_map_stable_in.
    + rewrite Hv. simpl. rewrite bool_decide_eq_true_2 by reflexivity.
      repeat split; auto.
    + intros w Hw. destruct (bool_decide (_id w = _id v)); reflexivity.
Qed.

Lemma stable_charge (t : Z) (u : User) :
  _id u = i -> plan u = free -> dailyReset u = Some r -> dailyCount u = c -> t - r <= day ->
  stable I_any (fun a => admitted a = true) (enforceLimit env t (hydrate u)).
Proof.
  intros Hi Hp Hr Hc Ht. rewrite enforceLimit_below by assumption.
  intros s Hs. simpl.
  destruct (save_charge u s Hi Hc Hs) as (s' & -> & Hs'). simpl.
  split; [|reflexivity]. eapply account_in_weaken; [|exact Hs']. auto.
Qed.

Lemma step_charge (t : Z) (u : User) (s : Store) :
  _id u = i -> plan u = free -> dailyReset u = Some r -> dailyCount u = c -> t - r <= day ->
  I_any s ->
  exists d s', step (enforceLimit env t (hydrate u)) s = (Ret (Next d), s') /\ I_full s'.
Proof.
  intros Hi Hp Hr Hc Ht Hs. rewrite enforceLimit_below by assumption. simpl.
  destruct (save_charge u s Hi Hc Hs) as (s' & -> & Hs'). simpl. eauto.
Qed.

Lemma stable_protected_any (t : Z) (auth : option string) :
  t - r <= day ->
  stable I_any settled (protected env jwt_verify t (mkHeaders (Some key) auth)).
Proof.
  intros Ht. unfold protected, authMiddleware. cbn [x_api_key].
  rewrite (truthy_nonempty key key_nonempty).
  cbn [auth_by_key findOne mbind Prog_bind bind try_catch stable].
  intros s (Hids & v & Hv & Hvi & Hp & Hr & [Hc|Hc]).
  - unfold db_findOne. rewrite Hv.
    change (stable I_any settled (enforceLimit env t (hydrate v))).
    eapply stable_mono; [|apply stable_charge; auto]. simpl. auto.
  - unfold db_findOne. rewrite Hv.
    change (stable I_any settled (enforceLimit env t (hydrate v))).
    rewrite enforceLimit_full by assumption. simpl. auto.
Qed.

Lemma stable_protected_full (t : Z) (auth : option string) :
  t - r <= day ->
  stable I_full (eq (inr (Respond quota_exceeded)))
         (protected env jwt_verify t (mkHeaders (Some key) auth)).
Proof.
  intros Ht. unfold protected, authMiddleware. cbn [x_api_key].
  rewrite (truthy_nonempty key key_nonempty).
  cbn [auth_by_key findOne mbind Prog_bind bind try_catch stable].
  intros s (Hids & v & Hv & Hvi & Hp & Hr & Hc).
  unfold db_findOne. rewrite Hv.
  change (stable I_full (eq (inr (Respond quota_exceeded))) (enforceLimit env t (hydrate v))).
  rewrite enforceLimit_full by assumption. reflexivity.
Qed.

(** A request that runs alone on an account with one unit left is
    admitted and leaves the account at the limit. *)
Lemma run_protected_last (t : Z) (auth : option string) (s : Store) :
  account_in key r i (fun n => n = c) s -> t - r <= day ->
  exists d s', run (protected env jwt_verify t (mkHeaders (Some key) auth)) s
               = (s', inr (Next d)) /\ I_full s'.
Proof.
  intros Hs Ht. pose proof Hs as (Hids & v & Hv & Hvi & Hp & Hr & Hc).
  rewrite <- run_step, (step_protected t auth s v Hv). cbn [fst snd].
  destruct (step_charge t v s) as (d & s' & Hstep & Hs'); auto.
  { eapply account_in_weaken; [|exact Hs]. auto. }
  rewrite <- run_step, Hstep. simpl. eauto.
Qed.

Lemma run_protected_full (t : Z) (auth : option string) (s : Store) :
  I_full s -> t - r <= day ->
  (run (protected env jwt_verify t (mkHeaders (Some key) auth)) s).2
  = inr (Respond quota_exceeded).
Proof.
  intros Hs Ht.
  destruct (stable_run I_full _ _ s (stable_protected_full t auth Ht) Hs) as [_ H].
  symmetry. exact H.
Qed.

End Race.

Lemma interleave_true {A B : Type} (sched : list bool) (p : Prog A) (q : Prog B) (s : Store) :
  interleave (true :: sched) p q s = interleave sched (step p s).1 q (step p s).2.
Proof. simpl. destruct (step p s). reflexivity. Qed.

Lemma interleave_false {A B : Type} (sched : list bool) (p : Prog A) (q : Prog B) (s : Store) :
  interleave (false :: sched) p q s = interleave sched p (step q s).1 (step q s).2.
Proof. simpl. destruct (step q s). reflexivity. Qed.

(** C3, as the code has it. Two requests of a free account that has
    exactly one unit left in its window, interleaved by any schedule:
    at least one of them is admitted. Exactly one is admitted, and the
    other rejected, when the schedule lets one of them save before the
    other loads the account; both are admitted when both load the
    account before either saves. *)
Theorem concurrent_admission (env : Env) (jwt_verify : string -> string -> Exn + JwtPayload)
    (key : string) (auth1 auth2 : option string) (r N c : Z) (i : ObjectId)
    (s : Store) (t1 t2 : Z) (sched : list bool) :
  key <> "" -> FREE_LIMIT env = Some N -> c + 1 = N ->
  account_in key r i (fun n => n = c) s ->
  t1 - r <= day -> t2 - r <= day ->
  let out := interleave sched
               (protected env jwt_verify t1 (mkHeaders (Some key) auth1))
               (protected env jwt_verify t2 (mkHeaders (Some key) auth2)) s in
  (admitted out.1.2 = true \/ admitted out.2 = true) /\
  (overlap sched = false -> exactly_one_admitted out.1.2 out.2) /\
  (overlap sched = true -> admitted out.1.2 = true /\ admitted out.2 = true).
Proof.
  intros Hkey Hlim Hone Hs Ht1 Ht2 out.
  set (p := protected env jwt_verify t1 (mkHeaders (Some key) auth1)) in *.
  set (q := protected env jwt_verify t2 (mkHeaders (Some key) auth2)) in *.
  pose proof Hs as (Hids & v & Hv & Hvi & Hp & Hr & Hc).
  assert (account_in key r i (fun n => n = c \/ n = c + 1) s) as Hany
    by (eapply account_in_weaken; [|exact Hs]; auto).
  pose proof (step_protected env jwt_verify key Hkey t1 auth1 s v Hv) as Hstep1.
  pose proof (step_protected env jwt_verify key Hkey t2 auth2 s v Hv) as Hstep2.
  fold p in Hstep1. fold q in Hstep2.
  pose proof (stable_charge env key r N c i Hlim Hone t1 v Hvi Hp Hr Hc Ht1) as Hadm1.
  pose proof (stable_charge env key r N c i Hlim Hone t2 v Hvi Hp Hr Hc Ht2) as Hadm2.
  (* the first request runs to its end, then the second *)
  assert (forall p', run p' s = run p s ->
            exactly_one_admitted
              (let '(s1, a) := run p' s in let '(s2, b) := run q s1 in (s2, a, b)).1.2
              (let '(s1, a) := run p' s in let '(s2, b) := run q s1 in (s2, a, b)).2)
    as Hserial.
  { intros p' ->.
    destruct (run_protected_last env jwt_verify key r N c i Hkey Hlim Hone t1 auth1 s Hs Ht1)
      as (d & s1 & Hrun & Hfull).
    fold p in Hrun. rewrite Hrun.
    pose proof (run_protected_full env jwt_verify key r N c i Hkey Hlim Hone t2 auth2 s1
                  Hfull Ht2) as Hq.
    fold q in Hq. destruct (run q s1) as [s2 b]. simpl in *. subst b.
    left. auto. }
  assert (forall a b, exactly_one_admitted a b -> admitted a = true \/ admitted b = true)
    as Hone_some by (intros a b [[H _]|[_ H]]; auto).
  unfold out. clear out. subst p q.
  destruct sched as [|[|] [|[|] rest]]; cbn [overlap];
    repeat (progress (rewrite ?interleave_true, ?interleave_false, ?Hstep1, ?Hstep2;
                      cbn [fst snd])).
  - (* no interleaving *)
    specialize (Hserial _ eq_refl). split; [eauto|]. split; [auto | discriminate].
  - (* the first loads, then runs to its end *)
    specialize (Hserial (enforceLimit env t1 (hydrate v))).
    rewrite <- (run_step (protected _ _ t1 _) s), Hstep1 in Hserial.
    specialize (Hserial eq_refl).
    split; [eauto|]. split; [auto | discriminate].
  - (* the first completes before the second starts *)
    destruct (step_charge env key r N c i Hlim Hone t1 v s Hvi Hp Hr Hc Ht1 Hany)
      as (d & s1 & Hstep & Hfull).
    rewrite Hstep, ?Hstep2. cbn [fst snd].
    assert (stable (account_in key r i (fun n => n = c + 1))
                   (eq (inr (Next d))) (Ret (Next d))) as Hret by reflexivity.
    pose proof (stable_protected_full env jwt_verify key r N c i Hkey Hlim Hone t2 auth2 Ht2)
      as Hrej.
    destruct (stable_interleave _ _ _ rest _ _ s1 Hret Hrej Hfull) as (_ & <- & <-).
    split; [left; reflexivity|]. split; [left; auto | discriminate].
  - (* both load before either saves *)
    destruct (stable_interleave _ _ _ rest _ _ s Hadm1 Hadm2 Hany) as (_ & Ha & Hb).
    split; [left; exact Ha|]. split; [discriminate | intros _; split; [exact Ha | exact Hb]].
  - (* the second loads, then the first runs to its end *)
    destruct (stable_interleave _ _ _ [] _ _ s
                (stable_protected_any env jwt_verify key r N c i Hkey Hlim Hone t1 auth1 Ht1)
                Hadm2 Hany) as (_ & _ & Hb).
    split; [right; exact Hb|]. split; [discriminate|]. intros _. split; [|exact Hb].
    destruct (run_protected_last env jwt_verify key r N c i Hkey Hlim Hone t1 auth1 s Hs Ht1)
      as (d & s1 & Hrun & Hfull).
    cbn [interleave]. rewrite Hrun.
    destruct (run (enforceLimit env t2 (hydrate v)) s1) as [s2 b]. reflexivity.
  - (* both load before either saves *)
    destruct (stable_interleave _ _ _ rest _ _ s Hadm1 Hadm2 Hany) as (_ & Ha & Hb).
    split; [left; exact Ha|]. split; [discriminate | intros _; split; [exact Ha | exact Hb]].
  - (* the second completes before the first starts *)
    destruct (step_charge env key r N c i Hlim Hone t2 v s Hvi Hp Hr Hc Ht2 Hany)
      as (d & s1 & Hstep & Hfull).
    rewrite Hstep. cbn [fst snd].
    assert (stable (account_in key r i (fun n => n = c + 1))
                   (eq (inr (Next d))) (Ret (Next d))) as Hret by reflexivity.
    pose proof (stable_protected_full env jwt_verify key r N c i Hkey Hlim Hone t1 auth1 Ht1)
      as Hrej.
    destruct (stable_interleave _ _ _ rest _ _ s1 Hrej Hret Hfull) as (_ & <- & <-).
    split; [right; reflexivity|]. split; [right; auto | discriminate].
Qed.

(** Both requests of [Sample.alice], who has one unit left, load her
    account before either saves. *)
Lemma concurrent_admission_witness :
  let out := interleave [true; false; true; false]
               (protected Sample.env Sample.jwt_verify 2000 (mkHeaders (Some "pk_alice") None))
               (protected Sample.env Sample.jwt_verify 2001 (mkHeaders (Some "pk_alice") None))
               [Sample.alice] in
  admitted out.1.2 = true /\ admitted out.2 = true.
Proof.
  refine (proj2 (proj2 (concurrent_admission Sample.env Sample.jwt_verify "pk_alice" None None
                          1000 20 19 "a1" [Sample.alice] 2000 2001
                          [true; false; true; false] _ _ _ _ _ _)) eq_refl).
  - discriminate.
  - reflexivity.
  - reflexivity.
  - split; [apply NoDup_singleton|]. exists Sample.alice. repeat split; reflexivity.
  - unfold day. lia.
  - unfold day. lia.
Defined.

(** C3, as the specification words it, fails: with one unit left, two
    requests whose loads both precede the saves are both admitted, and
    the stored count ends at the limit, one charge short. *)
Lemma concurrent_admission_counterexample :
  let out := interleave [true; false]
               (protected Sample.env Sample.jwt_verify 2000 (mkHeaders (Some "pk_alice") None))
               (protected Sample.env Sample.jwt_verify 2001 (mkHeaders (Some "pk_alice") None))
               [Sample.alice] in
  ~ exactly_one_admitted out.1.2 out.2 /\
  admitted out.1.2 = true /\ admitted out.2 = true /\
  out.1.1 = [with_dailyCount 20 Sample.alice].
Proof.
  vm_compute. split; [|auto]. intros [[_ H]|[H _]]; discriminate H.
Qed.

(** * Further properties of the server *)

(** ** Strings *)

Lemma split_nonempty (c : ascii) (x : string) : JS.split c x <> [].
Proof.
  destruct x as [|a x]; simpl; [discriminate|].
  destruct (decide (a = c)); [discriminate|]. destruct (JS.split c x); discriminate.
Qed.

Lemma split_app (c : ascii) (x y : string) :
  JS.split c (x ++ String c y)%string = JS.split c x ++ JS.split c y.
Proof.
  induction x as [|a x IH]; simpl.
  - rewrite decide_True by reflexivity. reflexivity.
  - rewrite IH. destruct (decide (a = c)); [reflexivity|].
    pose proof (split_nonempty c x) as Hne.
    destruct (JS.split c x); [contradiction | reflexivity].
Qed.

Lemma split_none (c : ascii) (x : string) :
  JS.includes c x = false -> JS.split c x = [x].
Proof.
  induction x as [|a x IH]; simpl; [reflexivity|].
  destruct (decide (a = c)); [discriminate|]. intros H. rewrite (IH H). reflexivity.
Qed.

Lemma includes_app (c : ascii) (x y : string) :
  JS.includes c (x ++ y)%string = JS.includes c x || JS.includes c y.
Proof.
  induction x as [|a x IH]; simpl; [reflexivity|].
  destruct (decide (a = c)); [reflexivity | exact IH].
Qed.

Lemma app_nonempty (x y : string) : y <> "" -> (x ++ y)%string <> "".
Proof. destruct x; simpl; [auto | discriminate]. Qed.

(** ** Copying runs of pages *)

Section Pages.

Context {Page : Type}.
Implicit Types (pdf : list Page).

Lemma copyPages_in_range pdf (l : list (option Z)) :
  Forall (fun i => is_Some (page_at pdf i)) l ->
  copyPages pdf l = inr (omap (page_at pdf) l).
Proof.
  induction 1 as [|i l [p Hp] _ IH]; simpl; [reflexivity|].
  rewrite Hp, IH. reflexivity.
Qed.

(** The pages at the indices [a, a + 1, ..., a + n - 1], for [a >= 0]. *)
Lemma pages_from pdf (n : nat) :
  forall a, 0 <= a ->
    omap (page_at pdf) (Some <$> seqZ a (Z.of_nat n)) = take n (drop (Z.to_nat a) pdf).
Proof.
  induction n as [|n IH]; intros a Ha.
  - reflexivity.
  - rewrite seqZ_cons by lia. rewrite fmap_cons. cbn [omap list_omap].
    replace (Z.pred (Z.of_nat (S n))) with (Z.of_nat n) by lia.
    change (omap (page_at pdf) (Some <$> seqZ (Z.succ a) (Z.of_nat n)))
      with (omap (page_at pdf) (Some <$> seqZ (Z.succ a) (Z.of_nat n))).
    specialize (IH (Z.succ a) ltac:(lia)).
    replace (Z.to_nat (Z.succ a)) with (S (Z.to_nat a)) in IH by lia.
    unfold page_at at 1. destruct (Z.leb_spec 0 a); [|lia].
    destruct (pdf !! Z.to_nat a) as [p|] eqn:Hp.
    + rewrite (drop_S _ _ _ Hp). simpl. f_equal. exact IH.
    + apply lookup_ge_None in Hp. rewrite drop_ge by lia.
      rewrite drop_ge in IH by lia. rewrite take_nil in *. exact IH.
Qed.

(** Negative indices are dropped. *)
Lemma pages_from_negative pdf (k : nat) :
  forall a n, a = - Z.of_nat k ->
    omap (page_at pdf) (Some <$> seqZ a n) = omap (page_at pdf) (Some <$> seqZ 0 (n + a)).
Proof.
  induction k as [|k IH]; intros a n ->.
  - simpl. rewrite Z.add_0_r. reflexivity.
  - destruct (Z.ltb_spec 0 n) as [Hn|Hn].
    + rewrite seqZ_cons by lia. rewrite fmap_cons. cbn [omap list_omap].
      unfold page_at at 1. destruct (Z.leb_spec 0 (- Z.of_nat (S k))); [lia|].
      rewrite (IH (Z.succ (- Z.of_nat (S k))) (Z.pred n)) by lia.
      f_equal. f_equal. f_equal. lia.
    + rewrite !seqZ_nil by lia. reflexivity.
Qed.

(** The pages with the 1-based numbers [a, ..., b]. *)
Lemma pages_of_range pdf (a b : Z) :
  omap (page_at pdf) ((fun i => Some (i - 1)) <$> seqZ a (b - a + 1))
  = take (Z.to_nat (b - Z.max a 1 + 1)) (drop (Z.to_nat (Z.max a 1 - 1)) pdf).
Proof.
  assert ((fun i => Some (i - 1)) <$> seqZ a (b - a + 1)
          = Some <$> seqZ (a - 1) (b - a + 1)) as ->.
  { replace (a - 1) with (-1 + a) by lia.
    rewrite <- (fmap_add_seqZ (-1) a). rewrite <- list_fmap_compose.
    apply list_fmap_ext. intros j i _. simpl. f_equal. lia. }
  destruct (Z.leb_spec 1 a) as [Ha|Ha].
  - rewrite Z.max_l by lia.
    destruct (Z.leb_spec 0 (b - a + 1)) as [Hn|Hn].
    + rewrite <- (Z2Nat.id (b - a + 1)) at 1 by lia. apply pages_from. lia.
    + rewrite seqZ_nil by lia. rewrite Z2Nat.nonpos by lia. reflexivity.
  - rewrite Z.max_r by lia.
    rewrite (pages_from_negative pdf (Z.to_nat (1 - a)) (a - 1)) by lia.
    replace (b - a + 1 + (a - 1)) with b by lia.
    replace (b - 1 + 1) with b by lia. change (Z.to_nat (1 - 1)) with 0%nat.
    destruct (Z.leb_spec 0 b) as [Hn|Hn].
    + rewrite <- (Z2Nat.id b) at 1 by lia. apply (pages_from pdf (Z.to_nat b) 0). lia.
    + rewrite seqZ_nil by lia. rewrite Z2Nat.nonpos by lia. reflexivity.
Qed.

(** Copying every page of a document gives its pages back. *)
Lemma copyPages_all pdf : copyPages pdf (getPageIndices pdf) = inr pdf.
Proof.
  unfold getPageIndices. rewrite copyPages_in_range.
  - rewrite pages_from by lia. simpl. rewrite drop_0, firstn_all. reflexivity.
  - apply Forall_fmap, Forall_forall. intros i Hi.
    apply elem_of_seqZ in Hi. simpl. destruct (Z.leb_spec 0 i); [|lia].
    apply lookup_lt_is_Some. lia.
Qed.

End Pages.

(** ** The PDF handlers *)

Section Ranges.

Context {Page : Type}.
Variable blank : Page.
Variable max_length : nat.

Lemma push_length (x : option Z) (l r : list (option Z)) :
  push max_length x l = inr r -> r = l ++ [x] /\ (length r <= max_length)%nat.
Proof.
  unfold push. destruct (decide _) as [Hl|]; [|discriminate]. intros [= <-].
  split; [reflexivity|]. rewrite length_app. simpl. lia.
Qed.

(** What a range pushes does not depend on what the array holds, as
    long as there is room for it. *)
Lemma for_range_shift (b : Z) (fuel : nat) :
  forall (i : Z) (l r : list (option Z)),
    for_range max_length fuel i b l = inr r ->
    exists k, r = l ++ k /\ (k = [] \/ length r <= max_length)%nat /\
      forall l', (length l' + length k <= max_length)%nat ->
                 for_range max_length fuel i b l' = inr (l' ++ k).
Proof.
  induction fuel as [|fuel IH]; intros i l r; cbn [for_range];
    destruct (i <=? b) eqn:Hib; try discriminate.
  - intros [= <-]. exists []. rewrite app_nil_r. split; [reflexivity|]. split; [auto|].
    intros l' _. rewrite app_nil_r. reflexivity.
  - destruct (push _ _ l) as [e|l1] eqn:Hpush; [discriminate|].
    apply push_length in Hpush as [-> Hlen]. intros Hrun.
    destruct (IH _ _ _ Hrun) as (k & -> & Hk & Hshift).
    exists (Some (JS.number (i - 1)) :: k). rewrite <- app_assoc. split; [reflexivity|].
    split.
    + right. destruct Hk as [->|Hk]; [rewrite app_nil_r; exact Hlen|].
      rewrite <- app_assoc in Hk. exact Hk.
    + intros l' Hroom. simpl in Hroom. rewrite push_room by lia.
      rewrite Hshift by (rewrite length_app; simpl; lia).
      rewrite <- app_assoc. reflexivity.
  - intros [= <-]. exists []. rewrite app_nil_r. split; [reflexivity|]. split; [auto|].
    intros l' _. rewrite app_nil_r. reflexivity.
Qed.

Lemma part_pages_shift (p : string) (l r : list (option Z)) :
  part_pages max_length p l = inr r ->
  exists k, r = l ++ k /\ (k = [] \/ length r <= max_length)%nat /\
    forall l', (length l' + length k <= max_length)%nat ->
               part_pages max_length p l' = inr (l' ++ k).
Proof.
  unfold part_pages. destruct (JS.includes "-" p).
  - destruct (_ <$> JS.split "-" p) as [|[a|] [|[b|] rest]];
      try (intros [= <-]; exists []; rewrite app_nil_r; split; [reflexivity|];
           split; [auto|]; intros l' _; rewrite app_nil_r; reflexivity).
    apply for_range_shift.
  - intros Hpush. apply push_length in Hpush as [-> Hlen].
    eexists. split; [reflexivity|]. split; [auto|].
    intros l' Hroom. simpl in Hroom. apply push_room. lia.
Qed.

Lemma forEach_part_shift (parts : list string) :
  forall l r : list (option Z),
    forEach_part max_length parts l = inr r ->
    exists k, r = l ++ k /\ (k = [] \/ length r <= max_length)%nat /\
      forall l', (length l' + length k <= max_length)%nat ->
                 forEach_part max_length parts l' = inr (l' ++ k).
Proof.
  induction parts as [|p parts IH]; intros l r; cbn [forEach_part].
  - intros [= <-]. exists []. rewrite app_nil_r. split; [reflexivity|]. split; [auto|].
    intros l' _. rewrite app_nil_r. reflexivity.
  - destruct (part_pages max_length p l) as [e|l1] eqn:Hp; [discriminate|]. intros Hrun.
    destruct (part_pages_shift _ _ _ Hp) as (k1 & -> & Hk1 & Hs1).
    destruct (IH _ _ Hrun) as (k2 & -> & Hk2 & Hs2).
    exists (k1 ++ k2). rewrite <- app_assoc. split; [reflexivity|]. split.
    + destruct Hk2 as [->|Hk2].
      * rewrite !app_nil_r. destruct Hk1 as [->|Hk1]; [left; reflexivity | right; exact Hk1].
      * right. rewrite <- app_assoc in Hk2. exact Hk2.
    + intros l' Hroom. rewrite length_app in Hroom.
      rewrite Hs1 by lia. rewrite Hs2 by (rewrite length_app; lia).
      rewrite <- app_assoc. reflexivity.
Qed.

Lemma forEach_part_app (ps qs : list string) (l : list (option Z)) :
  forEach_part max_length (ps ++ qs) l
  = match forEach_part max_length ps l with
    | inl e => inl e
    | inr l' => forEach_part max_length qs l'
    end.
Proof.
  revert l. induction ps as [|p ps IH]; intros l; cbn [app forEach_part]; [reflexivity|].
  destruct (part_pages max_length p l); [reflexivity | apply IH].
Qed.

Lemma pagesToKeep_parts (x : string) :
  x <> "" -> pagesToKeep max_length (Some x) = forEach_part max_length (JS.split "," x) [].
Proof.
  intros Hx. unfold pagesToKeep, JS.truthy.
  rewrite bool_decide_eq_false_2 by exact Hx. reflexivity.
Qed.

(** The indices of two specifications joined by a comma. *)
Lemma pagesToKeep_comma (x y : string) (kx ky : list (option Z)) :
  x <> "" -> y <> "" ->
  pagesToKeep max_length (Some x) = inr kx ->
  pagesToKeep max_length (Some y) = inr ky ->
  ((length kx + length ky <= max_length)%nat /\
   pagesToKeep max_length (Some (x ++ "," ++ y)%string) = inr (kx ++ ky)) \/
  (exists e, (max_length < length kx + length ky)%nat /\
             pagesToKeep max_length (Some (x ++ "," ++ y)%string) = inl e).
Proof.
  intros Hx Hy Hkx Hky.
  assert ((x ++ "," ++ y)%string <> "") as Hne by (apply app_nonempty; discriminate).
  rewrite pagesToKeep_parts in Hkx, Hky by assumption. rewrite pagesToKeep_parts by exact Hne.
  change (x ++ "," ++ y)%string with (x ++ String "," y)%string.
  rewrite split_app, forEach_part_app, Hkx.
  destruct (forEach_part_shift _ _ _ Hky) as (k & Hk & _ & Hshift). simpl in Hk. subst k.
  assert (length kx <= max_length)%nat as Hlenkx.
  { destruct (forEach_part_shift _ _ _ Hkx) as (k & Hk & [->|Hlen] & _); [|exact Hlen].
    rewrite Hk. simpl. lia. }
  destruct (decide (length kx + length ky <= max_length)%nat) as [Hroom|Hroom].
  - left. split; [exact Hroom|]. apply Hshift, Hroom.
  - right. destruct (forEach_part max_length (JS.split "," y) kx) as [e|r] eqn:Hr.
    + exists e. split; [lia | reflexivity].
    + exfalso. destruct (forEach_part_shift _ _ _ Hr) as (k & -> & Hk & Hshift').
      destruct Hk as [->|Hk].
      * specialize (Hshift' [] ltac:(simpl; lia)). rewrite Hky in Hshift'.
        injection Hshift' as ->. simpl in Hroom. lia.
      * rewrite length_app in Hk.
        specialize (Hshift' [] ltac:(simpl; lia)). rewrite Hky in Hshift'.
        injection Hshift' as ->. lia.
Qed.

End Ranges.

(** X1. A range [x-y] whose bounds parse to the safe integers [a] and
    [b]. When an array has room for its [b - a + 1] indices, the
    document sent holds the pages numbered [a] to [b] of the input
    (numbering from 1), cut to the pages that exist, page 0 of the
    request being no page; when none of them exists, as when [b < a],
    it holds one blank page. When an array has no room for the indices,
    the answer is 500 ["Split failed"]. *)
Theorem split_range (Page : Type) (blank : Page) (max_length : nat)
    (pdf : list Page) (x y : string) (a b : Z) (qp : option string) (s : Store) :
  JS.includes "-" x = false -> JS.includes "-" y = false ->
  JS.includes "," x = false -> JS.includes "," y = false ->
  JS.parseInt (JS.trim x) = Some a -> JS.parseInt (JS.trim y) = Some b ->
  - 2 ^ 53 < a -> b < 2 ^ 53 ->
  let req := mkSplitRequest (Some (ValidPdf pdf)) (Some (x ++ "-" ++ y)%string) qp in
  let pages := take (Z.to_nat (b - Z.max a 1 + 1)) (drop (Z.to_nat (Z.max a 1 - 1)) pdf) in
  ((Z.to_nat (b - a + 1) <= max_length)%nat ->
   run (split blank max_length req) s
   = (s, inr (Download "split.pdf" (PDFDocument_save blank pages))) /\
   (pages <> [] -> run (split blank max_length req) s = (s, inr (Download "split.pdf" pages))) /\
   (b < a -> run (split blank max_length req) s = (s, inr (Download "split.pdf" [blank])))) /\
  ((max_length < Z.to_nat (b - a + 1))%nat ->
   run (split blank max_length req) s = (s, inr (Json (reply 500 "Split failed")))).
Proof.
  intros Hx Hy Hxc Hyc Ha Hb Hsa Hsb req pages.
  assert ((x ++ "-" ++ y)%string <> "") as Hne by (apply app_nonempty; discriminate).
  assert (pagesToKeep max_length (Some (x ++ "-" ++ y)%string)
          = for_range max_length max_length a b []) as Hkeep.
  { rewrite pagesToKeep_one; [|exact Hne|].
    2:{ apply split_none. rewrite includes_app, Hxc. simpl. exact Hyc. }
    unfold part_pages.
    assert (JS.includes "-" (x ++ "-" ++ y)%string = true) as ->.
    { rewrite includes_app, Hx. reflexivity. }
    change (x ++ "-" ++ y)%string with (x ++ String "-" y)%string.
    rewrite split_app, (split_none _ x Hx), (split_none _ y Hy).
    cbn [app fmap list_fmap]. rewrite Ha, Hb. reflexivity. }
  unfold req. rewrite split_body by exact Hne. rewrite Hkeep. split.
  - intros Hroom. rewrite for_range_safe by (simpl; lia). cbn [app].
    rewrite pages_of_range. fold pages. split; [reflexivity|]. split.
    + intros Hpages. rewrite save_nonempty by exact Hpages. reflexivity.
    + intros Hba. unfold pages. replace (Z.to_nat (b - Z.max a 1 + 1)) with 0%nat by lia.
      reflexivity.
  - intros Hroom. rewrite for_range_full by (simpl; lia). reflexivity.
Qed.

(** Five pages, a blank page [""] and room for eight indices. *)
Lemma split_range_witness :
  run (split "" 8 (mkSplitRequest (Some (ValidPdf ["a"; "b"; "c"; "d"; "e"]))
                     (Some " 4 - 9") None)) []
    = ([], inr (Download "split.pdf" ["d"; "e"])) /\
  run (split "" 8 (mkSplitRequest (Some (ValidPdf ["a"; "b"; "c"; "d"; "e"]))
                     (Some "5-4") None)) []
    = ([], inr (Download "split.pdf" [""])) /\
  run (split "" 8 (mkSplitRequest (Some (ValidPdf ["a"; "b"; "c"; "d"; "e"]))
                     (Some "1-99999999999") None)) []
    = ([], inr (Json (reply 500 "Split failed"))).
Proof.
  split; [|split].
  - refine (proj1 (proj2 (proj1 (split_range string "" 8 ["a"; "b"; "c"; "d"; "e"] " 4 " " 9"
                                   4 9 None [] eq_refl eq_refl eq_refl eq_refl eq_refl eq_refl
                                   _ _) _)) _); try (simpl; lia). discriminate.
  - refine (proj2 (proj2 (proj1 (split_range string "" 8 ["a"; "b"; "c"; "d"; "e"] "5" "4"
                                   5 4 None [] eq_refl eq_refl eq_refl eq_refl eq_refl eq_refl
                                   _ _) _)) _); simpl; lia.
  - refine (proj2 (split_range string "" 8 ["a"; "b"; "c"; "d"; "e"] "1" "99999999999"
                     1 99999999999 None [] eq_refl eq_refl eq_refl eq_refl eq_refl eq_refl
                     _ _) _); simpl; lia.
Defined.

(** X2. The parts of a pages specification are served from left to
    right. When [x] alone selects the indices [kx] and [y] alone the
    indices [ky], the specification [x,y] selects [kx] followed by
    [ky] if an array has room for both, and the document sent holds the
    pages of [kx] that exist followed by those of [ky] (one blank page
    if there is none); if an array has no room for both, the answer is
    500 ["Split failed"]. *)
Theorem split_parts_in_order (Page : Type) (blank : Page) (max_length : nat)
    (pdf : list Page) (x y : string) (kx ky : list (option Z))
    (qp : option string) (s : Store) :
  x <> "" -> y <> "" ->
  pagesToKeep max_length (Some x) = inr kx ->
  pagesToKeep max_length (Some y) = inr ky ->
  let req := mkSplitRequest (Some (ValidPdf pdf)) (Some (x ++ "," ++ y)%string) qp in
  ((length kx + length ky <= max_length)%nat ->
   run (split blank max_length req) s
   = (s, inr (Download "split.pdf"
                (PDFDocument_save blank (omap (page_at pdf) kx ++ omap (page_at pdf) ky))))) /\
  ((max_length < length kx + length ky)%nat ->
   run (split blank max_length req) s = (s, inr (Json (reply 500 "Split failed")))).
Proof.
  intros Hx Hy Hkx Hky req.
  assert ((x ++ "," ++ y)%string <> "") as Hne by (apply app_nonempty; discriminate).
  unfold req. rewrite split_body by exact Hne.
  destruct (pagesToKeep_comma max_length x y kx ky Hx Hy Hkx Hky)
    as [[Hlen Hk]|(e & Hlen & Hk)]; rewrite Hk.
  - split; [|lia]. intros _. rewrite omap_app. reflexivity.
  - split; [lia|]. reflexivity.
Qed.

Lemma split_parts_in_order_witness :
  run (split "" 8 (mkSplitRequest (Some (ValidPdf ["a"; "b"; "c"; "d"; "e"]))
                     (Some "4-5,1,1") None)) []
  = ([], inr (Download "split.pdf" ["d"; "e"; "a"; "a"])).
Proof.
  refine (proj1 (split_parts_in_order string "" 8 ["a"; "b"; "c"; "d"; "e"] "4-5" "1,1"
                   [Some 3; Some 4] [Some 0; Some 0] None []
                   ltac:(discriminate) ltac:(discriminate) eq_refl eq_refl) _).
  simpl. lia.
Defined.

Lemma run_merge_files {Page : Type} (docs : list (list Page)) :
  forall (acc : list Page) (s : Store),
    run (merge_files (ValidPdf <$> docs) acc) s = (s, inr (acc ++ concat docs)).
Proof.
  induction docs as [|pdf docs IH]; intros acc s; simpl.
  - rewrite app_nil_r. reflexivity.
  - rewrite copyPages_all. simpl. rewrite IH, app_assoc. reflexivity.
Qed.

Lemma run_merge_files_corrupt {Page : Type} (fs : list (Upload Page)) :
  CorruptPdf ∈ fs ->
  forall (acc : list Page) (s : Store), exists e, run (merge_files fs acc) s = (s, inl e).
Proof.
  induction fs as [|f fs IH]; intros Hin acc s; [inversion Hin|].
  destruct f as [pdf|]; simpl.
  - rewrite copyPages_all. simpl. apply IH.
    apply elem_of_cons in Hin as [Hin|Hin]; [discriminate | exact Hin].
  - eauto.
Qed.

Lemma run_merge {Page : Type} (blank : Page) (docs : list (list Page)) (s : Store) :
  docs <> [] ->
  run (merge blank (Some (ValidPdf <$> docs))) s
  = (s, inr (Download "merged.pdf" (PDFDocument_save blank (concat docs)))).
Proof.
  intros Hne. unfold merge. rewrite run_try_catch.
  rewrite bool_decide_eq_false_2 by (destruct docs; [contradiction | discriminate]).
  rewrite run_bind, run_merge_files. reflexivity.
Qed.

(** X3. Merge answers with the pages of all uploaded documents, in the
    order of upload and unchanged, whenever one of them has a page; in
    particular two one-page documents give a two-page document. When
    no upload has a page the document sent holds one blank page. One
    unreadable file among the uploads makes the whole request fail with
    500 ["Merge failed"], and a request without files is answered 400
    ["no files"]. *)
Theorem merge_concatenates (Page : Type) (blank : Page) (s : Store) :
  (forall docs : list (list Page),
     concat docs <> [] ->
     run (merge blank (Some (ValidPdf <$> docs))) s
     = (s, inr (Download "merged.pdf" (concat docs)))) /\
  (forall p q : Page,
     run (merge blank (Some [ValidPdf [p]; ValidPdf [q]])) s
     = (s, inr (Download "merged.pdf" [p; q]))) /\
  (forall docs : list (list Page),
     docs <> [] -> concat docs = [] ->
     run (merge blank (Some (ValidPdf <$> docs))) s
     = (s, inr (Download "merged.pdf" [blank]))) /\
  (forall fs : list (Upload Page),
     CorruptPdf ∈ fs ->
     run (merge blank (Some fs)) s = (s, inr (Json (reply 500 "Merge failed")))) /\
  run (merge blank None) s = (s, inr (Json (reply 400 "no files"))) /\
  run (merge blank (Some [])) s = (s, inr (Json (reply 400 "no files"))).
Proof.
  split; [|split; [|split; [|split; [|split; reflexivity]]]].
  - intros docs Hne. rewrite run_merge by (intros ->; contradiction).
    rewrite save_nonempty by exact Hne. reflexivity.
  - intros p q. apply (run_merge blank [[p]; [q]]). discriminate.
  - intros docs Hne Hempty. rewrite run_merge by exact Hne. rewrite Hempty. reflexivity.
  - intros fs Hin. unfold merge. rewrite run_try_catch.
    rewrite bool_decide_eq_false_2 by (destruct fs; [inversion Hin | discriminate]).
    rewrite run_bind.
    destruct (run_merge_files_corrupt fs Hin [] s) as [e ->]. reflexivity.
Qed.

Lemma merge_concatenates_witness :
  run (merge "" (Some (ValidPdf <$> [["a"; "b"]; []; ["c"]]))) []
    = ([], inr (Download "merged.pdf" ["a"; "b"; "c"])) /\
  run (merge "" (Some (ValidPdf <$> [[]; []]))) []
    = ([], inr (Download "merged.pdf" [""])) /\
  run (merge "" (Some [ValidPdf ["a"]; CorruptPdf; ValidPdf ["c"]])) []
    = ([], inr (Json (reply 500 "Merge failed"))).
Proof.
  split; [|split].
  - apply (proj1 (merge_concatenates string "" []) [["a"; "b"]; []; ["c"]]). discriminate.
  - apply (proj1 (proj2 (proj2 (merge_concatenates string "" []))) [[]; []]);
      [discriminate | reflexivity].
  - apply (proj1 (proj2 (proj2 (proj2 (merge_concatenates string "" []))))).
    apply list_elem_of_further, list_elem_of_here.
Defined.

(** X4. Compress answers with exactly the pages of an upload that has
    pages, in order; for an upload without pages the document sent
    holds one blank page. An unreadable upload is answered 500
    ["Compress failed"] and a missing one 400 ["no file"]. *)
Theorem compress_keeps_pages (Page : Type) (blank : Page) (s : Store) :
  (forall (first : Page) (rest : list Page),
     run (compress blank (Some (ValidPdf (first :: rest)))) s
     = (s, inr (Download "compressed.pdf" (first :: rest)))) /\
  run (compress blank (Some (ValidPdf []))) s
    = (s, inr (Download "compressed.pdf" [blank])) /\
  run (compress blank (Some CorruptPdf)) s
    = (s, inr (Json (reply 500 "Compress failed"))) /\
  run (compress blank None) s = (s, inr (Json (reply 400 "no file"))).
Proof.
  split; [|split; [|split]]; try reflexivity.
  intros first rest. unfold compress. rewrite run_try_catch.
  cbn [PDFDocument_load lift mbind Prog_bind bind].
  rewrite copyPages_all. reflexivity.
Qed.

Lemma printable_encodes (font_encodes : string -> bool) (text : string) :
  all_printable text = true -> encodes font_encodes text = true.
Proof. intros H. unfold encodes. rewrite H. reflexivity. Qed.

(** X5. Sign draws the label on the first page and leaves every other
    page and the number of pages as they were, when the font can encode
    the label; the label is the name of the request, or ["Signed"] when
    the request names none or an empty one, and a label of printable
    ASCII characters, as ["Signed"] is, can always be encoded. A label
    that the font cannot encode, a document without pages and an
    unreadable upload are answered 500 ["Sign failed"], a missing
    upload 400 ["no file"]. *)
Theorem sign_first_page (Page : Type) (blank : Page) (drawText : string -> Page -> Page)
    (font_encodes : string -> bool) (s : Store) :
  (forall (first : Page) (rest : list Page) (name : option string),
     let label := if JS.truthy name then default "" name else "Signed" in
     run (sign blank drawText font_encodes (mkSignRequest (Some (ValidPdf (first :: rest))) name)) s
     = (s, inr (if encodes font_encodes label
                then Download "signed.pdf" (drawText label first :: rest)
                else Json (reply 500 "Sign failed")))) /\
  (forall (first : Page) (rest : list Page) (name : string),
     name <> "" -> all_printable name = true ->
     run (sign blank drawText font_encodes
            (mkSignRequest (Some (ValidPdf (first :: rest))) (Some name))) s
     = (s, inr (Download "signed.pdf" (drawText name first :: rest)))) /\
  (forall (first : Page) (rest : list Page) (name : option string),
     JS.truthy name = false ->
     run (sign blank drawText font_encodes (mkSignRequest (Some (ValidPdf (first :: rest))) name)) s
     = (s, inr (Download "signed.pdf" (drawText "Signed" first :: rest)))) /\
  (forall name,
     run (sign blank drawText font_encodes (mkSignRequest (Some (ValidPdf [])) name)) s
     = (s, inr (Json (reply 500 "Sign failed")))) /\
  (forall name,
     run (sign blank drawText font_encodes (mkSignRequest (Some CorruptPdf) name)) s
     = (s, inr (Json (reply 500 "Sign failed")))) /\
  (forall name,
     run (sign blank drawText font_encodes (mkSignRequest None name)) s
     = (s, inr (Json (reply 400 "no file")))).
Proof.
  assert (forall (first : Page) (rest : list Page) (name : option string),
            run (sign blank drawText font_encodes
                   (mkSignRequest (Some (ValidPdf (first :: rest))) name)) s
            = (s, inr (if encodes font_encodes (JS.or_else name "Signed")
                       then Download "signed.pdf" (drawText (JS.or_else name "Signed") first :: rest)
                       else Json (reply 500 "Sign failed")))) as Hsign.
  { intros first rest name. unfold sign. rewrite run_try_catch.
    cbn [sign_file sign_name PDFDocument_load lift mbind Prog_bind bind].
    destruct (encodes font_encodes _); reflexivity. }
  split; [|split; [|split; [|split; [|split]]]]; try (intros; reflexivity).
  - intros first rest name label. rewrite Hsign. unfold label.
    destruct name as [n|]; [|reflexivity]. simpl.
    destruct (bool_decide (n = "")); reflexivity.
  - intros first rest name Hne Hp. rewrite Hsign. simpl.
    rewrite bool_decide_eq_false_2 by exact Hne.
    rewrite printable_encodes by exact Hp. reflexivity.
  - intros first rest name Hname. rewrite Hsign.
    assert (JS.or_else name "Signed" = "Signed") as ->.
    { destruct name as [n|]; [|reflexivity]. simpl in *.
      destruct (bool_decide (n = "")); [reflexivity | discriminate]. }
    reflexivity.
Qed.

(** A font that encodes nothing beyond printable ASCII: the name
    ["Ann"] is drawn, a name with a control character is refused. *)
Lemma sign_first_page_witness :
  run (sign "" (fun name page => (name ++ page)%string) (fun _ => false)
         (mkSignRequest (Some (ValidPdf ["-p1"; "-p2"])) (Some "Ann"))) []
    = ([], inr (Download "signed.pdf" ["Ann-p1"; "-p2"])) /\
  run (sign "" (fun name page => (name ++ page)%string) (fun _ => false)
         (mkSignRequest (Some (ValidPdf ["-p1"; "-p2"])) (Some (String "001" "A")))) []
    = ([], inr (Json (reply 500 "Sign failed"))) /\
  run (sign "" (fun name page => (name ++ page)%string) (fun _ => false)
         (mkSignRequest (Some (ValidPdf ["-p1"; "-p2"])) (Some ""))) []
    = ([], inr (Download "signed.pdf" ["Signed-p1"; "-p2"])).
Proof.
  pose proof (sign_first_page string "" (fun name page => (name ++ page)%string)
                (fun _ => false) []) as (Hany & Hascii & Hdefault & _).
  split; [|split].
  - exact (Hascii "-p1" ["-p2"] "Ann" ltac:(discriminate) eq_refl).
  - exact (Hany "-p1" ["-p2"] (Some (String "001" "A"))).
  - exact (Hdefault "-p1" ["-p2"] (Some "") eq_refl).
Defined.

(** ** Credentials on a request *)

(** X6. A non-empty API key alone decides the resolution: the
    [Authorization] header is never looked at, so an unknown key is
    refused even beside a token that would verify, and a known key
    resolves to its account even beside a token that would not. *)
Theorem api_key_precedence (env : Env) (jwt_verify : string -> string -> Exn + JwtPayload)
    (key : string) (auth : option string) (s : Store) :
  key <> "" ->
  run (authMiddleware env jwt_verify (mkHeaders (Some key) auth)) s
    = run (authMiddleware env jwt_verify (mkHeaders (Some key) None)) s /\
  (List.find (matches (ByApiKey key)) s = None ->
     run (authMiddleware env jwt_verify (mkHeaders (Some key) auth)) s
       = (s, inr (Respond (reply 401 "Invalid API key")))) /\
  (forall u, List.find (matches (ByApiKey key)) s = Some u ->
     run (authMiddleware env jwt_verify (mkHeaders (Some key) auth)) s
       = (s, inr (Next (hydrate u)))).
Proof.
  intros Hkey. rewrite !run_auth_key by exact Hkey. unfold db_findOne.
  split; [reflexivity|]. split.
  - intros ->. reflexivity.
  - intros u ->. reflexivity.
Qed.

(** An unknown key beside the valid token of [Sample.alice]. *)
Lemma api_key_precedence_witness :
  run (authMiddleware Sample.env Sample.jwt_verify
         (mkHeaders (Some "pk_nobody") (Some "Bearer change_this_jwt_secret:a1")))
      [Sample.alice]
  = ([Sample.alice], inr (Respond (reply 401 "Invalid API key"))).
Proof.
  refine (proj1 (proj2 (api_key_precedence Sample.env Sample.jwt_verify "pk_nobody"
                          (Some "Bearer change_this_jwt_secret:a1") [Sample.alice] _)) _).
  - discriminate.
  - reflexivity.
Defined.

(** X7. A request with no API key (or an empty one) whose
    [Authorization] header is absent or does not start with
    ["Bearer "], capital B and one space, is answered 401
    ["No credentials"] (MissingCredentials), whatever the store holds. *)
Theorem missing_credentials (env : Env) (jwt_verify : string -> string -> Exn + JwtPayload)
    (key auth : option string) (s : Store) :
  JS.truthy key = false ->
  match auth with Some a => JS.startsWith "Bearer " a = false | None => True end ->
  run (authMiddleware env jwt_verify (mkHeaders key auth)) s
    = (s, inr (Respond (reply 401 "No credentials"))) /\
  kind_of (reply 401 "No credentials") = Some MissingCredentials.
Proof.
  intros Hkey Hauth. split; [|reflexivity].
  unfold authMiddleware. cbn [x_api_key authorization]. rewrite run_try_catch.
  assert (run (auth_by_token env jwt_verify auth) s
          = (s, inr (Respond (reply 401 "No credentials")))) as Htok.
  { unfold auth_by_token. destruct auth as [a|]; [rewrite Hauth|]; reflexivity. }
  destruct key as [k|]; [rewrite Hkey|]; rewrite Htok; reflexivity.
Qed.

(** A lower-case scheme is no bearer token. *)
Lemma missing_credentials_witness :
  run (authMiddleware Sample.env Sample.jwt_verify
         (mkHeaders (Some "") (Some "bearer change_this_jwt_secret:a1"))) [Sample.alice]
  = ([Sample.alice], inr (Respond (reply 401 "No credentials"))).
Proof.
  exact (proj1 (missing_credentials Sample.env Sample.jwt_verify (Some "")
                  (Some "bearer change_this_jwt_secret:a1") [Sample.alice] eq_refl eq_refl)).
Defined.

Lemma includes_remove_all (c : ascii) (x : string) :
  JS.includes c (JS.remove_all c x) = false.
Proof.
  induction x as [|a x IH]; simpl; [reflexivity|].
  destruct (decide (a = c)) as [Heq|Hne]; [exact IH|].
  simpl. rewrite decide_False by exact Hne. exact IH.
Qed.

(** X8. Every generated API key starts with ["pk_"], contains no dash
    whatever [uuidv4] returned, and is not empty, so that it always
    counts as a presented key. *)
Theorem genApiKey_format (uuid : string) :
  JS.startsWith "pk_" (genApiKey uuid) = true /\
  JS.includes "-" (genApiKey uuid) = false /\
  JS.truthy (Some (genApiKey uuid)) = true.
Proof.
  split; [reflexivity|]. split; [|reflexivity].
  unfold genApiKey. rewrite includes_app, includes_remove_all. reflexivity.
Qed.

(** ** Creating an account *)

Lemma lookup_email_taken (e : string) (s : Store) :
  email_taken e s = false <-> lookup_email (Some e) s = None.
Proof.
  unfold email_taken, lookup_email. induction s as [|v s IH]; simpl; [tauto|].
  destruct (decide (email v = e)) as [Heq|Hne].
  - rewrite (bool_decide_eq_true_2 _ Heq).
    rewrite bool_decide_eq_true_2 by congruence. simpl. split; discriminate.
  - rewrite (bool_decide_eq_false_2 _ Hne).
    rewrite bool_decide_eq_false_2 by congruence. exact IH.
Qed.

Lemma find_app_None {A} (P : A -> bool) (l : list A) (x : A) :
  List.find P l = None -> P x = true -> List.find P (l ++ [x]) = Some x.
Proof.
  induction l as [|y l IH]; simpl; intros Hl Hx; [rewrite Hx; reflexivity|].
  destruct (P y); [discriminate | auto].
Qed.

Lemma id_free_stored (i : ObjectId) (s : Store) :
  id_taken i s = false -> stored s i = None.
Proof.
  unfold id_taken, stored. induction s as [|v s IH]; simpl; [reflexivity|].
  destruct (bool_decide (_id v = i)); [discriminate | exact IH].
Qed.

Lemma key_free_find (i : ObjectId) (k : string) (s : Store) :
  id_taken i s = false -> apiKey_taken i (Some k) s = false ->
  List.find (matches (ByApiKey k)) s = None.
Proof.
  unfold id_taken, apiKey_taken. induction s as [|v s IH]; simpl; [reflexivity|].
  intros Hid Hkey. apply orb_false_elim in Hid as [Hv Hid].
  apply orb_false_elim in Hkey as [Hk Hkey]. rewrite Hv in Hk. simpl in Hk.
  rewrite andb_true_r in Hk. rewrite Hk. auto.
Qed.

Section Signup.

Variable env : Env.
Variable jwt_verify : string -> string -> Exn + JwtPayload.
Variable jwt_sign : JwtPayload -> string -> Z -> string.
Variable bcrypt_hash : string -> string -> string.
Variable bcrypt_compare : string -> string -> bool.
Variables (now : Z) (oid : ObjectId) (salt uuid e pw : string) (plan_field : option string).
Variable s : Store.

Local Abbreviation tier :=
  (if bool_decide (plan_field = Some "premium") then premium else free).
Local Abbreviation account :=
  (mkUser oid e (bcrypt_hash pw salt) (Some (genApiKey uuid)) tier now 0 (Some now)).
Local Abbreviation form := (mkForm (Some e) (Some pw) plan_field).

Hypothesis email_given : e <> "".
Hypothesis password_given : pw <> "".
Hypothesis email_new : lookup_email (Some e) s = None.

Lemma run_signup_save :
  run (signup env jwt_sign bcrypt_hash now oid salt uuid form) s
  = match db_save (new_User now oid e (bcrypt_hash pw salt) (genApiKey uuid) tier) s with
    | inl _ => (s, inr (reply 500 "Signup failed"))
    | inr s' =>
        (s', inr (mkResponse 200
                    (Credentials (jwt_sign (mkPayload oid e) (JWT_SECRET env) now)
                                 (Some (genApiKey uuid)) e tier)))
    end.
Proof.
  unfold signup. rewrite run_try_catch. cbn [form_email form_password form_plan].
  rewrite (truthy_nonempty _ email_given), (truthy_nonempty _ password_given).
  cbn [negb orb]. rewrite run_findOne_email, email_new. simpl fmap. cbv iota.
  rewrite run_bind. cbn [default]. unfold save at 1. cbn [run].
  destruct (db_save _ s); reflexivity.
Qed.

Lemma db_save_new :
  db_save (new_User now oid e (bcrypt_hash pw salt) (genApiKey uuid) tier) s
  = if id_taken oid s || apiKey_taken oid (Some (genApiKey uuid)) s
    then inl DuplicateKeyError else inr (s ++ [account]).
Proof.
  unfold db_save, new_User. cbn [isNew fields _id email apiKey].
  rewrite (proj2 (lookup_email_taken e s) email_new).
  destruct (id_taken oid s); reflexivity.
Qed.

Lemma run_signup_ok :
  id_taken oid s = false -> apiKey_taken oid (Some (genApiKey uuid)) s = false ->
  run (signup env jwt_sign bcrypt_hash now oid salt uuid form) s
  = (s ++ [account],
     inr (mkResponse 200 (Credentials (jwt_sign (mkPayload oid e) (JWT_SECRET env) now)
                                      (Some (genApiKey uuid)) e tier))).
Proof. intros Hid Hkey. rewrite run_signup_save, db_save_new, Hid, Hkey. reflexivity. Qed.

Lemma lookup_email_created : lookup_email (Some e) (s ++ [account]) = Some account.
Proof.
  apply find_app_None; [exact email_new|]. simpl. apply bool_decide_eq_true_2. reflexivity.
Qed.

End Signup.

(** X9. A signup with a non-empty email that no account has and a
    non-empty password, for which the generated identifier and key are
    free, appends exactly one account to the collection: the given
    email, the hash of the password, the generated key, count 0, a
    window that starts now, and the premium plan only when the body
    says exactly ["premium"]. The response is 200 with a token signed
    for the new identifier and the key. *)
Theorem signup_creates (env : Env) (jwt_sign : JwtPayload -> string -> Z -> string)
    (bcrypt_hash : string -> string -> string)
    (now : Z) (oid : ObjectId) (salt uuid e pw : string) (plan_field : option string)
    (s : Store) :
  e <> "" -> pw <> "" -> lookup_email (Some e) s = None ->
  id_taken oid s = false -> apiKey_taken oid (Some (genApiKey uuid)) s = false ->
  let tier := if bool_decide (plan_field = Some "premium") then premium else free in
  run (signup env jwt_sign bcrypt_hash now oid salt uuid (mkForm (Some e) (Some pw) plan_field)) s
  = (s ++ [mkUser oid e (bcrypt_hash pw salt) (Some (genApiKey uuid)) tier now 0 (Some now)],
     inr (mkResponse 200 (Credentials (jwt_sign (mkPayload oid e) (JWT_SECRET env) now)
                                      (Some (genApiKey uuid)) e tier))).
Proof. intros. apply run_signup_ok; assumption. Qed.

(** A signup that asks for ["Premium"] gets the free plan. *)
Lemma signup_creates_witness :
  run (signup Sample.env Sample.jwt_sign Sample.bcrypt_hash 7000 "c3" "salt" "00-11"
         (mkForm (Some "carol@example.com") (Some "rabbit") (Some "Premium"))) [Sample.alice]
  = ([Sample.alice;
      mkUser "c3" "carol@example.com" "rabbit" (Some "pk_0011") free 7000 0 (Some 7000)],
     inr (mkResponse 200 (Credentials "change_this_jwt_secret:c3" (Some "pk_0011")
                                      "carol@example.com" free))).
Proof.
  exact (signup_creates Sample.env Sample.jwt_sign Sample.bcrypt_hash 7000 "c3" "salt" "00-11"
           "carol@example.com" "rabbit" (Some "Premium") [Sample.alice]
           ltac:(discriminate) ltac:(discriminate) eq_refl eq_refl eq_refl).
Defined.

(** X10. A signup creates nothing in two more cases. Without an email
    or without a password (missing or empty) it is answered 400
    ["email & password required"] before the collection is read. With
    a new email but an identifier or a generated key that the
    collection already holds, the save is refused by the unique index
    and the request is answered 500 ["Signup failed"]. The store is
    unchanged in both. *)
Theorem signup_refuses (env : Env) (jwt_sign : JwtPayload -> string -> Z -> string)
    (bcrypt_hash : string -> string -> string)
    (now : Z) (oid : ObjectId) (salt uuid : string) (s : Store) :
  (forall form,
     JS.truthy (form_email form) && JS.truthy (form_password form) = false ->
     run (signup env jwt_sign bcrypt_hash now oid salt uuid form) s
     = (s, inr (reply 400 "email & password required"))) /\
  (forall e pw plan_field,
     e <> "" -> pw <> "" -> lookup_email (Some e) s = None ->
     id_taken oid s || apiKey_taken oid (Some (genApiKey uuid)) s = true ->
     run (signup env jwt_sign bcrypt_hash now oid salt uuid (mkForm (Some e) (Some pw) plan_field)) s
     = (s, inr (reply 500 "Signup failed"))).
Proof.
  split.
  - intros form Hform. unfold signup. rewrite run_try_catch.
    destruct (JS.truthy (form_email form)), (JS.truthy (form_password form));
      try discriminate; reflexivity.
  - intros e pw plan_field He Hpw Hnew Htaken.
    rewrite run_signup_save, db_save_new by assumption. rewrite Htaken. reflexivity.
Qed.

(** An empty password; and the key of [Sample.alice] generated again. *)
Lemma signup_refuses_witness :
  run (signup Sample.env Sample.jwt_sign Sample.bcrypt_hash 7000 "c3" "salt" "alice"
         (mkForm (Some "carol@example.com") (Some "") None)) [Sample.alice]
    = ([Sample.alice], inr (reply 400 "email & password required")) /\
  run (signup Sample.env Sample.jwt_sign Sample.bcrypt_hash 7000 "c3" "salt" "alice"
         (mkForm (Some "carol@example.com") (Some "rabbit") None)) [Sample.alice]
    = ([Sample.alice], inr (reply 500 "Signup failed")).
Proof.
  split.
  - exact (proj1 (signup_refuses Sample.env Sample.jwt_sign Sample.bcrypt_hash 7000 "c3"
                    "salt" "alice" [Sample.alice])
             (mkForm (Some "carol@example.com") (Some "") None) eq_refl).
  - exact (proj2 (signup_refuses Sample.env Sample.jwt_sign Sample.bcrypt_hash 7000 "c3"
                    "salt" "alice" [Sample.alice])
             "carol@example.com" "rabbit" None
             ltac:(discriminate) ltac:(discriminate) eq_refl eq_refl).
Defined.

(** X11. The password given at signup logs in: right after a
    successful signup, a login with the same email and password is
    answered 200 with the key and plan of the new account and a token
    for its identifier, provided [bcrypt.compare] accepts a password
    against its own hash. *)
Theorem signup_then_login (env : Env) (jwt_sign : JwtPayload -> string -> Z -> string)
    (bcrypt_hash : string -> string -> string) (bcrypt_compare : string -> string -> bool)
    (now now' : Z) (oid : ObjectId) (salt uuid e pw : string)
    (plan_field plan_field' : option string) (s : Store) :
  e <> "" -> pw <> "" -> lookup_email (Some e) s = None ->
  id_taken oid s = false -> apiKey_taken oid (Some (genApiKey uuid)) s = false ->
  bcrypt_compare pw (bcrypt_hash pw salt) = true ->
  let s1 := (run (signup env jwt_sign bcrypt_hash now oid salt uuid
                    (mkForm (Some e) (Some pw) plan_field)) s).1 in
  run (login env jwt_sign bcrypt_compare now' (mkForm (Some e) (Some pw) plan_field')) s1
  = (s1, inr (mkResponse 200
                (Credentials (jwt_sign (mkPayload oid e) (JWT_SECRET env) now')
                             (Some (genApiKey uuid)) e
                             (if bool_decide (plan_field = Some "premium")
                              then premium else free)))).
Proof.
  intros He Hpw Hnew Hid Hkey Hcmp s1. unfold s1.
  rewrite (run_signup_ok env jwt_sign bcrypt_hash now oid salt uuid e pw plan_field s)
    by assumption.
  cbn [fst]. unfold login. rewrite run_try_catch. cbn [form_email form_password].
  rewrite run_findOne_email, (lookup_email_created bcrypt_hash now oid salt uuid e pw
                                plan_field s Hnew).
  simpl fmap. cbv iota. rewrite run_bind. simpl. rewrite Hcmp. reflexivity.
Qed.

Lemma signup_then_login_witness :
  (run (login Sample.env Sample.jwt_sign Sample.bcrypt_compare 8000
          (mkForm (Some "carol@example.com") (Some "rabbit") None))
       (run (signup Sample.env Sample.jwt_sign Sample.bcrypt_hash 7000 "c3" "salt" "00-11"
               (mkForm (Some "carol@example.com") (Some "rabbit") (Some "premium")))
            [Sample.alice]).1).2
  = inr (mkResponse 200 (Credentials "change_this_jwt_secret:c3" (Some "pk_0011")
                                     "carol@example.com" premium)).
Proof.
  rewrite (signup_then_login Sample.env Sample.jwt_sign Sample.bcrypt_hash
             Sample.bcrypt_compare 7000 8000 "c3" "salt" "00-11" "carol@example.com" "rabbit"
             (Some "premium") None [Sample.alice]
             ltac:(discriminate) ltac:(discriminate) eq_refl eq_refl eq_refl eq_refl).
  reflexivity.
Defined.

(** X12. The credentials a successful signup returns resolve to the
    account it created: the API key as [x-api-key], whatever else the
    request carries, and the token as a bearer token, provided
    [jwt.verify] returns a payload with the identifier that was
    signed. *)
Theorem signup_then_resolve (env : Env) (jwt_verify : string -> string -> Exn + JwtPayload)
    (jwt_sign : JwtPayload -> string -> Z -> string)
    (bcrypt_hash : string -> string -> string)
    (now : Z) (oid : ObjectId) (salt uuid e pw : string) (plan_field : option string)
    (s : Store) :
  e <> "" -> pw <> "" -> lookup_email (Some e) s = None ->
  id_taken oid s = false -> apiKey_taken oid (Some (genApiKey uuid)) s = false ->
  let out := run (signup env jwt_sign bcrypt_hash now oid salt uuid
                    (mkForm (Some e) (Some pw) plan_field)) s in
  let token := jwt_sign (mkPayload oid e) (JWT_SECRET env) now in
  let account := mkUser oid e (bcrypt_hash pw salt) (Some (genApiKey uuid))
                   (if bool_decide (plan_field = Some "premium") then premium else free)
                   now 0 (Some now) in
  (forall auth,
     run (authMiddleware env jwt_verify (mkHeaders (Some (genApiKey uuid)) auth)) out.1
     = (out.1, inr (Next (hydrate account)))) /\
  (forall payload key,
     jwt_verify token (JWT_SECRET env) = inr payload -> payload_id payload = oid ->
     JS.truthy key = false ->
     run (authMiddleware env jwt_verify (mkHeaders key (Some ("Bearer " ++ token)%string))) out.1
     = (out.1, inr (Next (hydrate account)))).
Proof.
  intros He Hpw Hnew Hid Hkey out token account. subst out.
  rewrite (run_signup_ok env jwt_sign bcrypt_hash now oid salt uuid e pw plan_field s)
    by assumption.
  cbn [fst]. fold account. split.
  - intros auth. rewrite run_auth_key by discriminate. unfold db_findOne.
    rewrite (find_app_None _ s account); [reflexivity | |].
    + eapply key_free_find; eassumption.
    + simpl. apply bool_decide_eq_true_2. reflexivity.
  - intros payload key Hjwt Hpid Hfalsy.
    assert (run (authMiddleware env jwt_verify
                   (mkHeaders key (Some ("Bearer " ++ token)%string))) (s ++ [account])
            = run (authMiddleware env jwt_verify
                     (mkHeaders None (Some ("Bearer " ++ token)%string))) (s ++ [account]))
      as ->.
    { unfold authMiddleware. cbn [x_api_key authorization].
      destruct key as [k|]; [|reflexivity]. rewrite Hfalsy. reflexivity. }
    rewrite run_auth_token, Hjwt, Hpid. unfold db_findById.
    rewrite (find_app_None _ s account); [reflexivity | |].
    + apply id_free_stored, Hid.
    + simpl. apply bool_decide_eq_true_2. reflexivity.
Qed.

Lemma signup_then_resolve_witness :
  run (authMiddleware Sample.env Sample.jwt_verify
         (mkHeaders None (Some "Bearer change_this_jwt_secret:c3")))
      [Sample.alice;
       mkUser "c3" "carol@example.com" "rabbit" (Some "pk_0011") free 7000 0 (Some 7000)]
  = ([Sample.alice;
      mkUser "c3" "carol@example.com" "rabbit" (Some "pk_0011") free 7000 0 (Some 7000)],
     inr (Next (hydrate (mkUser "c3" "carol@example.com" "rabbit" (Some "pk_0011") free
                           7000 0 (Some 7000))))).
Proof.
  exact (proj2 (signup_then_resolve Sample.env Sample.jwt_verify Sample.jwt_sign
                  Sample.bcrypt_hash 7000 "c3" "salt" "00-11" "carol@example.com" "rabbit"
                  None [Sample.alice]
                  ltac:(discriminate) ltac:(discriminate) eq_refl eq_refl eq_refl)
           (mkPayload "c3" "") None eq_refl eq_refl eq_refl).
Defined.

(** ** Login, profile and promotion *)

Lemma findOne_read_only (q : Query) : read_only (findOne q).
Proof. repeat constructor. Qed.

(** X13. Login never writes: no path of it contains a save, so the
    collection is the same after every login, successful or not. A
    login with the email of an account and a password that verifies is
    answered 200 with a token for that account, its stored key and its
    plan. *)
Theorem login_reads_only (env : Env) (jwt_sign : JwtPayload -> string -> Z -> string)
    (bcrypt_compare : string -> string -> bool) (now : Z) (form : Form) :
  read_only (login env jwt_sign bcrypt_compare now form) /\
  forall s : Store,
    (run (login env jwt_sign bcrypt_compare now form) s).1 = s /\
    forall u pw,
      lookup_email (form_email form) s = Some u -> form_password form = Some pw ->
      bcrypt_compare pw (passwordHash u) = true ->
      (run (login env jwt_sign bcrypt_compare now form) s).2
      = inr (mkResponse 200
               (Credentials (jwt_sign (mkPayload (_id u) (email u)) (JWT_SECRET env) now)
                            (apiKey u) (email u) (plan u))).
Proof.
  assert (read_only (login env jwt_sign bcrypt_compare now form)) as Hro.
  { unfold login. apply read_only_try_catch; [|constructor].
    apply read_only_bind; [apply findOne_read_only|].
    intros [d|]; [|constructor]. apply read_only_bind.
    - destruct (compare_password _ _ _); constructor.
    - intros []; constructor. }
  split; [exact Hro|]. intros s. split; [apply read_only_run, Hro|].
  intros u pw Hu Hpw Hcmp. unfold login.
  rewrite run_try_catch, run_findOne_email, Hu. simpl fmap. cbv iota.
  rewrite run_bind. simpl fields. rewrite Hpw. simpl. rewrite Hcmp. reflexivity.
Qed.

Lemma login_reads_only_witness :
  (run (login Sample.env Sample.jwt_sign Sample.bcrypt_compare 5000
          (mkForm (Some "alice@example.com") (Some "wonderland") None)) [Sample.alice]).2
  = inr (mkResponse 200 (Credentials "change_this_jwt_secret:a1" (Some "pk_alice")
                                     "alice@example.com" free)).
Proof.
  exact (proj2 (proj2 (login_reads_only Sample.env Sample.jwt_sign Sample.bcrypt_compare 5000
                         (mkForm (Some "alice@example.com") (Some "wonderland") None))
                  [Sample.alice])
           Sample.alice "wonderland" eq_refl eq_refl eq_refl).
Defined.

(** X14. The profile route never writes, answers the resolver's error
    when resolution fails, and otherwise answers 200 with the stored
    email, plan and key of the resolved account. *)
Theorem me_profile (env : Env) (jwt_verify : string -> string -> Exn + JwtPayload)
    (req : Headers) :
  read_only (me env jwt_verify req) /\
  forall s : Store,
    (forall r, run (authMiddleware env jwt_verify req) s = (s, inr (Respond r)) ->
       run (me env jwt_verify req) s = (s, inr r)) /\
    (forall u, run (authMiddleware env jwt_verify req) s = (s, inr (Next (hydrate u))) ->
       run (me env jwt_verify req) s
       = (s, inr (mkResponse 200 (Profile (email u) (plan u) (apiKey u))))).
Proof.
  split.
  - unfold me. apply read_only_bind; [apply authMiddleware_read_only|].
    intros [r|user]; constructor.
  - intros s. split; intros x Hx; unfold me; rewrite run_bind, Hx; reflexivity.
Qed.

Lemma me_profile_witness :
  run (me Sample.env Sample.jwt_verify (mkHeaders (Some "pk_alice") None)) [Sample.alice]
  = ([Sample.alice], inr (mkResponse 200 (Profile "alice@example.com" free (Some "pk_alice")))).
Proof.
  exact (proj2 (proj2 (me_profile Sample.env Sample.jwt_verify (mkHeaders (Some "pk_alice") None))
                  [Sample.alice]) Sample.alice eq_refl).
Defined.

Lemma run_promote (form : Form) (s : Store) (u : User) :
  unique_ids s -> lookup_email (form_email form) s = Some u ->
  run (promote form) s = (put (with_plan premium u) s, inr (mkResponse 200 Ok)).
Proof.
  intros Hids Hu. destruct (find_some_elem _ _ _ Hu) as [Hin _].
  unfold promote. rewrite run_try_catch, run_findOne_email, Hu. simpl fmap. cbv iota.
  rewrite run_bind.
  set (d := set_plan premium (hydrate u)).
  assert (tracks d u) as Htr by apply tracks_set_plan, tracks_hydrate.
  assert (fields d = with_plan premium u) as Hf by (unfold d, set_plan; apply assign_fields).
  assert (p_apiKey ∉ modifiedPaths d) as Hk.
  { intros Hm. unfold d, set_plan in Hm.
    apply assign_modified in Hm as [Hm|Hm]; [discriminate | inversion Hm]. }
  rewrite (run_save_ok d s (put (with_plan premium u) s)); [reflexivity|].
  rewrite <- Hf. apply (db_save_tracked d u); auto.
  rewrite bool_decide_eq_false_2 by exact Hk. reflexivity.
Qed.

(** X15. Promotion needs only an email. For the email of an account it
    stores the premium plan on that account, changes no other field and
    no other account, and answers 200; on an account that is already
    premium it changes nothing. For an email of no account it answers
    404 ["No user"] (AccountNotFound) and changes nothing. *)
Theorem promote_sets_premium (form : Form) (s : Store) :
  unique_ids s ->
  (forall u, lookup_email (form_email form) s = Some u ->
     run (promote form) s = (put (with_plan premium u) s, inr (mkResponse 200 Ok)) /\
     stored (put (with_plan premium u) s) (_id u) = Some (with_plan premium u) /\
     (forall i, i <> _id u -> stored (put (with_plan premium u) s) i = stored s i) /\
     (plan u = premium -> put (with_plan premium u) s = s)) /\
  (lookup_email (form_email form) s = None ->
     run (promote form) s = (s, inr (reply 404 "No user")) /\
     kind_of (reply 404 "No user") = Some AccountNotFound).
Proof.
  intros Hids. split.
  - intros u Hu. destruct (find_some_elem _ _ _ Hu) as [Hin _].
    split; [apply run_promote; assumption|]. split; [|split].
    + apply (put_stored_same (with_plan premium u) u). exact (stored_elem s u Hids Hin).
    + intros i Hi. rewrite put_stored.
      destruct (stored s i) as [v|] eqn:Hv; [|reflexivity]. simpl.
      apply stored_id_taken in Hv as (_ & Hvi & _).
      rewrite bool_decide_eq_false_2; [reflexivity|]. simpl. congruence.
    + intros Hp. assert (with_plan premium u = u) as ->.
      { destruct u; simpl in *. subst. reflexivity. }
      apply put_same; assumption.
  - intros Hnone. split; [|reflexivity].
    unfold promote. rewrite run_try_catch, run_findOne_email, Hnone. reflexivity.
Qed.

Lemma promote_sets_premium_witness :
  run (promote (mkForm (Some "bob@example.com") None None)) [Sample.alice; Sample.bob]
  = ([Sample.alice; with_plan premium Sample.bob], inr (mkResponse 200 Ok)).
Proof.
  assert (unique_ids [Sample.alice; Sample.bob]) as Hids
    by (apply (bool_decide_unpack _); vm_compute; exact I).
  exact (proj1 (proj1 (promote_sets_premium (mkForm (Some "bob@example.com") None None)
                         [Sample.alice; Sample.bob] Hids) Sample.bob eq_refl)).
Defined.

(** ** More on the quota ledger *)

Lemma put_stored_ne (u' : User) (s : Store) (i : ObjectId) :
  i <> _id u' -> stored (put u' s) i = stored s i.
Proof.
  intros Hne. rewrite put_stored. destruct (stored s i) as [v|] eqn:Hv; [|reflexivity].
  simpl. apply stored_id_taken in Hv as (_ & Hid & _).
  rewrite bool_decide_eq_false_2 by congruence. reflexivity.
Qed.

Lemma put_length (u' : User) (s : Store) : length (put u' s) = length s.
Proof. unfold put. apply length_fmap. Qed.

(** What [enforceLimit] does to a stored account, in one equation. *)
Lemma run_enforceLimit_cases (env : Env) (s : Store) (u : User) (now : Z) :
  unique_ids s -> u ∈ s ->
  run (enforceLimit env now (hydrate u)) s
  = if JS.ge (count_at now u) (limit env (hydrate u))
    then (put (rolled now u) s, inr (Respond quota_exceeded))
    else (put (with_dailyCount (count_at now u + 1) (rolled now u)) (put (rolled now u) s),
          inr (Next (hydrate (with_dailyCount (count_at now u + 1) (rolled now u))))).
Proof.
  intros Hids Hin. rewrite run_enforceLimit by assumption.
  rewrite <- rolled_count.
  rewrite <- (limit_plan env (hydrate (rolled now u)) (hydrate u)) by apply rolled_plan.
  destruct (JS.ge _ _) eqn:Hge.
  - apply run_charge_reject, Hge.
  - apply run_charge_admit; [apply put_unique_ids, Hids | apply rolled_elem; assumption | exact Hge].
Qed.

(** X16. A limit that is not a number switches the free quota off, and
    a limit of zero or less switches the free plan off. When
    [FREE_PLAN_LIMIT] does not parse, every request of a free account
    is admitted and counted; when it parses to [N <= 0], every request
    of a free account whose count is not negative is rejected, also
    the first one of a new window. *)
Theorem free_limit_misconfigured (env : Env) (s : Store) (u : User) (now : Z) :
  unique_ids s -> u ∈ s -> plan u = free ->
  (FREE_LIMIT env = None ->
     (run (enforceLimit env now (hydrate u)) s).2
     = inr (Next (hydrate (with_dailyCount (count_at now u + 1) (rolled now u))))) /\
  (forall N, FREE_LIMIT env = Some N -> N <= 0 -> 0 <= dailyCount u ->
     (run (enforceLimit env now (hydrate u)) s).2 = inr (Respond quota_exceeded)).
Proof.
  intros Hids Hin Hplan. rewrite run_enforceLimit_cases by assumption.
  unfold limit. simpl fields. rewrite Hplan. split.
  - intros ->. reflexivity.
  - intros N -> HN Hc. simpl.
    destruct (Z.leb_spec N (count_at now u)) as [|Hlt]; [reflexivity|].
    exfalso. unfold count_at in Hlt. destruct (expired now (dailyReset u)); lia.
Qed.

(** With [FREE_PLAN_LIMIT=unlimited], [Sample.alice] is admitted at any
    count. *)
Lemma free_limit_misconfigured_witness :
  (run (enforceLimit (mkEnv None (Some "unlimited")) 2000
          (hydrate (with_dailyCount 5000 Sample.alice))) [with_dailyCount 5000 Sample.alice]).2
  = inr (Next (hydrate (with_dailyCount 5001 Sample.alice))).
Proof.
  exact (proj1 (free_limit_misconfigured (mkEnv None (Some "unlimited"))
                  [with_dailyCount 5000 Sample.alice] (with_dailyCount 5000 Sample.alice) 2000
                  (NoDup_singleton _) (list_elem_of_here _ _) eq_refl) eq_refl).
Defined.

(** X17. [enforceLimit] touches one account and two of its fields: the
    collection keeps its size, every other account is stored as before,
    and the account of the request keeps its identifier, email,
    password hash, key, plan and creation time. No exception escapes
    it on a stored account. *)
Theorem enforceLimit_frame (env : Env) (s : Store) (u : User) (now : Z) :
  unique_ids s -> u ∈ s ->
  let out := run (enforceLimit env now (hydrate u)) s in
  (exists m, out.2 = inr m) /\
  length out.1 = length s /\
  (forall i, i <> _id u -> stored out.1 i = stored s i) /\
  exists v, stored out.1 (_id u) = Some v /\
            email v = email u /\ passwordHash v = passwordHash u /\
            apiKey v = apiKey u /\ plan v = plan u /\ createdAt v = createdAt u.
Proof.
  intros Hids Hin out. unfold out. rewrite run_enforceLimit_cases by assumption.
  assert (stored (put (rolled now u) s) (_id u) = Some (rolled now u)) as Hst.
  { rewrite <- (rolled_id now u). apply (put_stored_same _ u).
    rewrite rolled_id. apply stored_elem; assumption. }
  assert (email (rolled now u) = email u /\ passwordHash (rolled now u) = passwordHash u /\
          apiKey (rolled now u) = apiKey u /\ plan (rolled now u) = plan u /\
          createdAt (rolled now u) = createdAt u) as Hsame.
  { unfold rolled. destruct (expired now (dailyReset u)); repeat split; reflexivity. }
  destruct (JS.ge _ _); cbn [fst snd].
  - split; [eauto|]. split; [apply put_length|]. split.
    + intros i Hi. apply put_stored_ne. rewrite rolled_id. exact Hi.
    + exists (rolled now u). split; [exact Hst | exact Hsame].
  - split; [eauto|]. split; [rewrite !put_length; reflexivity|]. split.
    + intros i Hi. rewrite !put_stored_ne; [reflexivity | | ]; simpl;
        rewrite ?rolled_id; exact Hi.
    + exists (with_dailyCount (count_at now u + 1) (rolled now u)). split; [|exact Hsame].
      rewrite <- (rolled_id now u).
      apply (put_stored_same (with_dailyCount _ (rolled now u)) (rolled now u)).
      simpl. rewrite rolled_id. exact Hst.
Qed.

Lemma enforceLimit_frame_witness :
  stored (run (enforceLimit Sample.env 2000 (hydrate Sample.alice))
              [Sample.alice; Sample.bob]).1 "b2"
  = Some Sample.bob.
Proof.
  assert (unique_ids [Sample.alice; Sample.bob]) as Hids
    by (apply (bool_decide_unpack _); vm_compute; exact I).
  exact (proj1 (proj2 (proj2 (enforceLimit_frame Sample.env [Sample.alice; Sample.bob]
                                Sample.alice 2000 Hids (list_elem_of_here _ _))))
           "b2" ltac:(discriminate)).
Defined.

(** X18. The first request of a new window is admitted whatever the
    count of the old window was, unless the limit is zero or less: when
    more than 24 hours have passed since the stored window start, or
    the stored [dailyReset] is [null], the request is admitted, the
    stored count becomes 1 and the stored window starts now. *)
Theorem new_window_admits (env : Env) (s : Store) (u : User) (now : Z) :
  unique_ids s -> u ∈ s ->
  dailyReset u = None \/ (exists r, dailyReset u = Some r /\ 24 * 3600 * 1000 < now - r) ->
  JS.ge 0 (limit env (hydrate u)) = false ->
  let out := run (enforceLimit env now (hydrate u)) s in
  let u' := with_dailyCount 1 (with_dailyReset (Some now) (with_dailyCount 0 u)) in
  out.2 = inr (Next (hydrate u')) /\
  stored out.1 (_id u) = Some u' /\
  dailyCount u' = 1 /\ dailyReset u' = Some now.
Proof.
  intros Hids Hin Hwindow Hlim out u'. unfold out.
  assert (expired now (dailyReset u) = true) as Hexp.
  { destruct Hwindow as [->|(r & -> & Hr)]; [reflexivity|].
    unfold expired, day. apply Z.ltb_lt. exact Hr. }
  rewrite run_enforceLimit_cases by assumption.
  assert (rolled now u = with_dailyReset (Some now) (with_dailyCount 0 u)) as ->
    by (unfold rolled; rewrite Hexp; reflexivity).
  assert (count_at now u = 0) as -> by (unfold count_at; rewrite Hexp; reflexivity).
  rewrite Hlim. cbn [fst snd]. split; [reflexivity|]. split; [|split; reflexivity].
  change (_id u) with (_id u').
  apply (put_stored_same u' (with_dailyReset (Some now) (with_dailyCount 0 u))).
  apply (put_stored_same (with_dailyReset (Some now) (with_dailyCount 0 u)) u).
  exact (stored_elem s u Hids Hin).
Qed.

(** [Sample.alice], at 19 of 20, more than a day after her window
    started; and with a [dailyReset] of [null], one millisecond after
    the epoch. *)
Lemma new_window_admits_witness :
  stored (run (enforceLimit Sample.env 90000000 (hydrate Sample.alice)) [Sample.alice]).1 "a1"
    = Some (with_dailyCount 1 (with_dailyReset (Some 90000000) (with_dailyCount 0 Sample.alice))) /\
  stored (run (enforceLimit Sample.env 1 (hydrate (with_dailyReset None Sample.alice)))
            [with_dailyReset None Sample.alice]).1 "a1"
    = Some (with_dailyCount 1 (with_dailyReset (Some 1) (with_dailyCount 0 Sample.alice))).
Proof.
  split.
  - refine (proj1 (proj2 (new_window_admits Sample.env [Sample.alice] Sample.alice 90000000
                            (NoDup_singleton _) (list_elem_of_here _ _) _ eq_refl))).
    right. exists 1000. split; [reflexivity | lia].
  - exact (proj1 (proj2 (new_window_admits Sample.env [with_dailyReset None Sample.alice]
                           (with_dailyReset None Sample.alice) 1
                           (NoDup_singleton _) (list_elem_of_here _ _)
                           (or_introl eq_refl) eq_refl))).
Defined.

Lemma serve_cap (env : Env) (jwt_verify : string -> string -> Exn + JwtPayload)
    (key : string) (auth : option string) (r N : Z) :
  key <> "" -> FREE_LIMIT env = Some N ->
  forall (times : list Z) (s : Store) (c : Z),
    metered key r s c -> Forall (fun t => t - r <= day) times ->
    let out := serve (fun t => protected env jwt_verify t (mkHeaders (Some key) auth)) times s in
    let k := min (length times) (Z.to_nat (N - c)) in
    admitted <$> out.2
      = replicate k true ++ replicate (length times - Z.to_nat (N - c)) false /\
    drop k out.2
      = replicate (length times - Z.to_nat (N - c)) (inr (Respond quota_exceeded)) /\
    metered key r out.1 (c + Z.of_nat k).
Proof.
  intros Hkey Hlim. induction times as [|t times IH]; intros s c Hm Hwin.
  { simpl. rewrite Z.add_0_r. auto. }
  apply Forall_cons in Hwin as [Ht Hwin]. cbn [serve].
  destruct (Z.ltb_spec c N) as [Hc|Hc].
  - destruct (request_admitted env jwt_verify key auth r N Hkey Hlim s c t Hm Ht Hc)
      as (s' & d & Hrun & Hm').
    rewrite Hrun. destruct (IH s' (c + 1) Hm' Hwin) as (Ha & Hd & Hs). clear IH.
    destruct (serve _ times s') as [s2 rs]. cbn [fst snd length] in *.
    replace (Z.to_nat (N - c)) with (S (Z.to_nat (N - (c + 1)))) by lia.
    cbn [min Nat.min Nat.sub]. rewrite fmap_cons, Ha. cbn [admitted drop].
    split; [reflexivity|]. split; [exact Hd|].
    replace (c + Z.of_nat (S (Nat.min (length times) (Z.to_nat (N - (c + 1))))))
      with (c + 1 + Z.of_nat (Nat.min (length times) (Z.to_nat (N - (c + 1))))) by lia.
    exact Hs.
  - rewrite (request_rejected env jwt_verify key auth r N Hkey Hlim s c t Hm Ht Hc).
    destruct (IH s c Hm Hwin) as (Ha & Hd & Hs). clear IH.
    destruct (serve _ times s) as [s2 rs]. cbn [fst snd length] in *.
    replace (Z.to_nat (N - c)) with 0%nat in * by lia.
    rewrite Nat.min_0_r, !Nat.sub_0_r in *.
    change (drop 0 rs) with rs in Hd. cbn [replicate app drop] in *.
    rewrite fmap_cons, Ha, Hd. cbn [admitted]. auto.
Qed.

(** X19. Served one after the other, the requests of a free account
    within one window are admitted until the count reaches the limit
    and answered 429 ["Daily API limit reached"] from then on, however
    many there are: from count [c] exactly the first [N - c] are
    admitted, every later one gets the 429 response, and the stored
    count ends at [c] plus the number admitted, which is at most [N]
    when [c] was. *)
Theorem window_cap (env : Env) (jwt_verify : string -> string -> Exn + JwtPayload)
    (key : string) (auth : option string) (r N c : Z) (s : Store) (times : list Z) :
  key <> "" -> FREE_LIMIT env = Some N ->
  metered key r s c -> Forall (fun t => t - r <= day) times ->
  let out := serve (fun t => protected env jwt_verify t (mkHeaders (Some key) auth)) times s in
  let k := min (length times) (Z.to_nat (N - c)) in
  admitted <$> out.2
    = replicate k true ++ replicate (length times - Z.to_nat (N - c)) false /\
  drop k out.2
    = replicate (length times - Z.to_nat (N - c)) (inr (Respond quota_exceeded)) /\
  kind_of quota_exceeded = Some QuotaExceeded /\
  (exists c', metered key r out.1 c' /\ c' = c + Z.of_nat k /\ (c <= N -> c' <= N)).
Proof.
  intros Hkey Hlim Hm Hwin out k.
  destruct (serve_cap env jwt_verify key auth r N Hkey Hlim times s c Hm Hwin)
    as (Ha & Hd & Hs).
  split; [exact Ha|]. split; [exact Hd|]. split; [reflexivity|].
  exists (c + Z.of_nat k). split; [exact Hs|]. split; [reflexivity|]. unfold k. lia.
Qed.

(** [Sample.alice], at 19 of 20, asks four times. *)
Lemma window_cap_witness :
  let out := serve (fun t => protected Sample.env Sample.jwt_verify t
                               (mkHeaders (Some "pk_alice") None))
                   [2000; 2001; 2002; 2003] [Sample.alice] in
  admitted <$> out.2 = [true; false; false; false] /\
  drop 1 out.2 = replicate 3 (inr (Respond quota_exceeded)) /\
  metered "pk_alice" 1000 out.1 20.
Proof.
  assert ("pk_alice" <> "") as Hkey by discriminate.
  assert (metered "pk_alice" 1000 [Sample.alice] 19) as Hm.
  { split; [apply NoDup_singleton|]. exists Sample.alice. repeat split; reflexivity. }
  assert (Forall (fun t => t - 1000 <= day) [2000; 2001; 2002; 2003]) as Hwin.
  { unfold day. repeat constructor; lia. }
  destruct (window_cap Sample.env Sample.jwt_verify "pk_alice" None 1000 20 19 [Sample.alice]
              [2000; 2001; 2002; 2003] Hkey eq_refl Hm Hwin)
    as (Ha & Hd & _ & c' & Hs & -> & _).
  split; [exact Ha|]. split; [exact Hd | exact Hs].
Defined.

(** X20. Promotion lifts the quota at once: a free account that is
    rejected at its limit is admitted by the very next request after
    [POST /api/admin/promote] names its email, as long as its count is
    below 1000000. *)
Theorem promote_lifts_quota (env : Env) (jwt_verify : string -> string -> Exn + JwtPayload)
    (key : string) (auth : option string) (r N t : Z) (s : Store) (u : User)
    (form : Form) :
  key <> "" -> FREE_LIMIT env = Some N ->
  unique_ids s -> List.find (matches (ByApiKey key)) s = Some u ->
  lookup_email (form_email form) s = Some u ->
  plan u = free -> dailyReset u = Some r -> t - r <= day ->
  N <= dailyCount u -> dailyCount u < 1000000 ->
  let req := mkHeaders (Some key) auth in
  run (protected env jwt_verify t req) s = (s, inr (Respond quota_exceeded)) /\
  exists d, (run (protected env jwt_verify t req) (run (promote form) s).1).2 = inr (Next d).
Proof.
  intros Hkey Hlim Hids Hfind Hmail Hplan Hreset Ht HN Hmax req. split.
  - apply (request_rejected env jwt_verify key auth r N Hkey Hlim s (dailyCount u) t);
      auto. split; [exact Hids|]. exists u. auto.
  - rewrite (run_promote form s u Hids Hmail). cbn [fst].
    set (u1 := with_plan premium u). set (s1 := put u1 s).
    assert (List.find (matches (ByApiKey key)) s1 = Some u1) as Hfind1
      by (apply (metered_put key s u u1); auto).
    destruct (find_some_elem _ _ _ Hfind1) as [Hin1 _].
    assert (unique_ids s1) as Hids1 by apply put_unique_ids, Hids.
    unfold req, protected. rewrite run_bind, run_auth_key by exact Hkey.
    unfold db_findOne. rewrite Hfind1. simpl fmap. cbv iota beta.
    rewrite run_enforceLimit_cases by assumption.
    assert (count_at t u1 = dailyCount u) as ->.
    { unfold count_at, expired. simpl. rewrite Hreset.
      destruct (Z.ltb_spec day (t - r)); [lia | reflexivity]. }
    unfold limit. simpl.
    destruct (Z.leb_spec 1000000 (dailyCount u)); [lia|]. eauto.
Qed.

(** [Sample.alice] at 20 of 20. *)
Lemma promote_lifts_quota_witness :
  exists d,
    (run (protected Sample.env Sample.jwt_verify 2000 (mkHeaders (Some "pk_alice") None))
         (run (promote (mkForm (Some "alice@example.com") None None))
              [with_dailyCount 20 Sample.alice]).1).2
    = inr (Next d).
Proof.
  refine (proj2 (promote_lifts_quota Sample.env Sample.jwt_verify "pk_alice" None 1000 20 2000
                   [with_dailyCount 20 Sample.alice] (with_dailyCount 20 Sample.alice)
                   (mkForm (Some "alice@example.com") None None)
                   _ eq_refl (NoDup_singleton _) eq_refl eq_refl eq_refl eq_refl _ _ _)).
  - discriminate.
  - unfold day. lia.
  - simpl. lia.
  - simpl. lia.
Defined.

(** ** Protected routes *)

Section Handlers.

Context {Page : Type}.
Variable blank : Page.
Variable max_length : nat.
Variable drawText : string -> Page -> Page.
Variable font_encodes : string -> bool.

Lemma lift_read_only {A : Type} (r : Exn + A) : read_only (lift r).
Proof. destruct r; constructor. Qed.

Lemma split_read_only (req : SplitRequest Page) : read_only (split blank max_length req).
Proof.
  unfold split. apply read_only_try_catch; [|constructor].
  destruct (file req); [|constructor].
  apply read_only_bind; [apply lift_read_only|]. intros pdf.
  apply read_only_bind; [apply lift_read_only|]. intros keep.
  apply read_only_bind; [apply lift_read_only|]. constructor.
Qed.

Lemma merge_files_read_only (fs : list (Upload Page)) :
  forall acc, read_only (merge_files fs acc).
Proof.
  induction fs as [|f fs IH]; intros acc; simpl; [constructor|].
  apply read_only_bind; [apply lift_read_only|]. intros pdf.
  apply read_only_bind; [apply lift_read_only|]. intros copied. apply IH.
Qed.

Lemma merge_read_only (files : option (list (Upload Page))) : read_only (merge blank files).
Proof.
  unfold merge. apply read_only_try_catch; [|constructor].
  destruct files as [fs|]; [|constructor]. case_bool_decide; [constructor|].
  apply read_only_bind; [apply merge_files_read_only | constructor].
Qed.

Lemma compress_read_only (f : option (Upload Page)) : read_only (compress blank f).
Proof.
  unfold compress. apply read_only_try_catch; [|constructor].
  destruct f; [|constructor].
  apply read_only_bind; [apply lift_read_only|]. intros pdf.
  apply read_only_bind; [apply lift_read_only|]. constructor.
Qed.

Lemma sign_read_only (req : SignRequest Page) :
  read_only (sign blank drawText font_encodes req).
Proof.
  unfold sign. apply read_only_try_catch; [|constructor].
  destruct (sign_file req); [|constructor].
  apply read_only_bind; [apply lift_read_only|]. intros [|p pdf]; [constructor|].
  destruct (encodes _ _); constructor.
Qed.

End Handlers.

(** X21. The gate of a protected route. A request that the resolver or
    the ledger refuses is answered with their response and the handler
    does not run: nothing of the operation reaches the caller. A
    request that is admitted gets the reply of the handler, and the
    charge made by the ledger stays whatever that reply is: the PDF
    handlers never write to the collection, so a failed operation is
    not refunded. *)
Theorem route_gate (env : Env) (jwt_verify : string -> string -> Exn + JwtPayload)
    (Page : Type) (blank : Page) (max_length : nat) (drawText : string -> Page -> Page)
    (font_encodes : string -> bool)
    (now : Z) (req : Headers) (s : Store) :
  (forall (handler : Prog (Reply Page)) s' r,
     run (protected env jwt_verify now req) s = (s', inr (Respond r)) ->
     run (route env jwt_verify now req handler) s = (s', inr (Json r))) /\
  (forall (handler : Prog (Reply Page)) s' user,
     run (protected env jwt_verify now req) s = (s', inr (Next user)) ->
     read_only handler ->
     run (route env jwt_verify now req handler) s = (s', (run handler s').2)) /\
  (forall files sreq file sgreq,
     read_only (merge blank files) /\ read_only (split blank max_length sreq) /\
     read_only (compress blank file) /\ read_only (sign blank drawText font_encodes sgreq)).
Proof.
  split; [|split].
  - intros handler s' r Hrun. unfold route. rewrite run_bind, Hrun. reflexivity.
  - intros handler s' user Hrun Hro. unfold route. rewrite run_bind, Hrun.
    pose proof (read_only_run handler s' Hro) as Hs.
    destruct (run handler s') as [s2 reply]. simpl in *. subst. reflexivity.
  - intros. auto using merge_read_only, split_read_only, compress_read_only, sign_read_only.
Qed.

(** A split without a file by [Sample.alice]: answered 400, and her
    count goes from 19 to 20. *)
Lemma route_gate_witness :
  run (route Sample.env Sample.jwt_verify 2000 (mkHeaders (Some "pk_alice") None)
         (split "" 8 (mkSplitRequest None None None))) [Sample.alice]
  = ([with_dailyCount 20 Sample.alice], inr (Json (reply 400 "no file"))).
Proof.
  exact (proj1 (proj2 (route_gate Sample.env Sample.jwt_verify string "" 8 (fun _ p => p)
                         (fun _ => false) 2000
                         (mkHeaders (Some "pk_alice") None) [Sample.alice]))
           (split "" 8 (mkSplitRequest None None None))
           [with_dailyCount 20 Sample.alice] (hydrate (with_dailyCount 20 Sample.alice))
           eq_refl (split_read_only "" 8 _)).
Defined.

(** ** Invariants of the running server *)

(** The handlers under an invariant [I] of the collection, given a
    condition [L] on the documents they hold that [I] provides on
    loading, that the assignments of the handlers keep, and that makes
    a save keep [I]. *)
Section Guarantee.

Variable I : Store -> Prop.
Variable L : Doc -> Prop.
Hypothesis L_find :
  forall (P : User -> bool) s d, I s -> hydrate <$> List.find P s = Some d -> L d.
Hypothesis L_save : forall d s s', I s -> L d -> db_save d s = inr s' -> I s'.
Hypothesis L_saved : forall d, L d -> L (saved d).
Hypothesis L_count0 : forall d, L d -> L (set_dailyCount 0 d).
Hypothesis L_count1 : forall d, L d -> L (set_dailyCount (dailyCount (fields d) + 1) d).
Hypothesis L_reset : forall d now, L d -> L (set_dailyReset now d).
Hypothesis L_key : forall d uuid, L d -> L (set_apiKey (genApiKey uuid) d).
Hypothesis L_plan : forall d, L d -> L (set_plan premium d).
Hypothesis L_new :
  forall now oid mail hash uuid tier, L (new_User now oid mail hash (genApiKey uuid) tier).

Local Abbreviation any := (fun _ : Exn + _ => True).
Local Abbreviation holding :=
  (fun r : Exn + Middleware => match r with inr (Next user) => L user | _ => True end).

Lemma kept_save {A : Type} (Q : Exn + A -> Prop) (d : Doc) (f : Doc -> Prog A) :
  L d -> (forall e, Q (inl e)) -> stable I Q (f (saved d)) ->
  stable I Q (save d ≫= f).
Proof.
  intros Hd He Hf s Hs. simpl.
  destruct (db_save d s) as [e|s'] eqn:Hsave; simpl; [apply He|].
  split; [|exact Hf]. eapply L_save; eauto.
Qed.

Lemma kept_save_ret (Q : Exn + Doc -> Prop) (d : Doc) :
  L d -> (forall e, Q (inl e)) -> Q (inr (saved d)) -> stable I Q (save d).
Proof.
  intros Hd He Hf s Hs. simpl.
  destruct (db_save d s) as [e|s'] eqn:Hsave; simpl; [apply He|].
  split; [|exact Hf]. eapply L_save; eauto.
Qed.

Lemma kept_findOne {A : Type} (Q : Exn + A -> Prop) (q : Query) (f : option Doc -> Prog A) :
  (forall r, match r with Some d => L d | None => True end -> stable I Q (f r)) ->
  stable I Q (findOne q ≫= f).
Proof.
  intros Hf s Hs. apply Hf.
  destruct (db_findOne q s) as [d|] eqn:Hd; [|exact Logic.I].
  eapply L_find; eauto.
Qed.

Lemma kept_answer (p : Prog Response) : stable I any p -> stable I any (answer p).
Proof.
  intros Hp. unfold answer. apply stable_bind.
  eapply stable_mono; [|exact Hp]. intros [e|r] _; exact Logic.I.
Qed.

Section Handlers.

Variable env : Env.
Variable jwt_verify : string -> string -> Exn + JwtPayload.
Variable jwt_sign : JwtPayload -> string -> Z -> string.
Variable bcrypt_hash : string -> string -> string.
Variable bcrypt_compare : string -> string -> bool.

Lemma kept_authMiddleware (req : Headers) :
  stable I holding (authMiddleware env jwt_verify req).
Proof.
  unfold authMiddleware. apply stable_try_catch.
  assert (forall auth,
            stable I (fun r => match r with
                               | inl e => stable I holding (Ret (Respond (reply 401 "Auth error")))
                               | inr a => holding (inr a)
                               end) (auth_by_token env jwt_verify auth)) as Htok.
  { intros [auth|]; [|exact Logic.I]. unfold auth_by_token.
    destruct (JS.startsWith "Bearer " auth); [|exact Logic.I].
    apply stable_bind.
    destruct (jwt_verify _ _) as [e|payload]; simpl; [exact Logic.I|].
    intros s Hs. destruct (db_findById (payload_id payload) s) as [d|] eqn:Hd; simpl;
      [|exact Logic.I].
    eapply L_find; eauto. }
  destruct (x_api_key req) as [key|]; [destruct (JS.truthy (Some key))|]; auto.
  simpl. intros s Hs.
  destruct (db_findOne (ByApiKey key) s) as [d|] eqn:Hd; simpl; [|exact Logic.I].
  eapply L_find; eauto.
Qed.

Lemma kept_enforceLimit (now : Z) (user : Doc) :
  L user -> stable I any (enforceLimit env now user).
Proof.
  intros Hu. unfold enforceLimit. apply stable_bind.
  assert (forall d, L d -> stable I any (charge env d)) as Hcharge.
  { intros d Hd. unfold charge. case_match; [exact Logic.I|].
    apply kept_save; [auto | auto | exact Logic.I]. }
  unfold rollover. case_match; [|simpl; auto].
  apply kept_save_ret; [auto | auto |]. simpl. auto.
Qed.

Lemma kept_protected (now : Z) (req : Headers) :
  stable I any (protected env jwt_verify now req).
Proof.
  unfold protected. apply stable_bind.
  eapply stable_mono; [|apply kept_authMiddleware].
  intros [e|[r|user]] Hr; simpl; auto. apply kept_enforceLimit, Hr.
Qed.

Lemma kept_signup (now : Z) (oid : ObjectId) (salt uuid : string) (form : Form) :
  stable I any (signup env jwt_sign bcrypt_hash now oid salt uuid form).
Proof.
  unfold signup. apply stable_try_catch.
  case_match; [exact Logic.I|].
  apply kept_findOne. intros [d|] _; [exact Logic.I|].
  apply kept_save; [apply L_new | intros e; exact Logic.I | exact Logic.I].
Qed.

Lemma kept_login (now : Z) (form : Form) :
  stable I any (login env jwt_sign bcrypt_compare now form).
Proof.
  unfold login. apply stable_try_catch.
  apply kept_findOne. intros [d|] _; [|exact Logic.I].
  apply stable_bind. destruct (compare_password bcrypt_compare _ _) as [e|ok]; simpl;
    [exact Logic.I|].
  destruct ok; exact Logic.I.
Qed.

Lemma kept_regenerateApiKey (uuid : string) (req : Headers) :
  stable I any (regenerateApiKey env jwt_verify uuid req).
Proof.
  unfold regenerateApiKey. apply stable_bind.
  eapply stable_mono; [|apply kept_authMiddleware].
  intros [e|[r|user]] Hr; cbn beta iota; try exact Logic.I.
  unfold regenerate. apply stable_try_catch.
  apply kept_save; [auto | intros e; exact Logic.I | exact Logic.I].
Qed.

Lemma kept_me (req : Headers) : stable I any (me env jwt_verify req).
Proof.
  unfold me. apply stable_bind.
  eapply stable_mono; [|apply kept_authMiddleware].
  intros [e|[r|user]] Hr; simpl; auto.
Qed.

Lemma kept_promote (form : Form) : stable I any (promote form).
Proof.
  unfold promote. apply stable_try_catch.
  apply kept_findOne. intros [d|] Hd; [|exact Logic.I].
  apply kept_save; [auto | intros e; exact Logic.I | exact Logic.I].
Qed.

Lemma kept_handle (c : Call) :
  stable I any (handle env jwt_verify jwt_sign bcrypt_hash bcrypt_compare c).
Proof.
  destruct c; cbn [handle].
  - apply kept_answer, kept_signup.
  - apply kept_answer, kept_login.
  - apply kept_answer, kept_regenerateApiKey.
  - apply kept_answer, kept_me.
  - apply kept_protected.
  - apply kept_answer, kept_promote.
Qed.

(** [I] holds in every state the server reaches from a state in which
    it holds and no request is in flight. *)
Lemma evolves_kept (s0 : Store) (σ : Server) :
  I s0 ->
  evolves env jwt_verify jwt_sign bcrypt_hash bcrypt_compare (mkServer s0 []) σ ->
  I (db σ).
Proof.
  intros Hs Hev.
  assert (I (db σ) /\ Forall (stable I any) (inflight σ)) as [H _]; [|exact H].
  induction Hev as [|σ' c _ [IHs IHp]|σ' i p _ [IHs IHp] Hi]; simpl.
  - auto.
  - split; [exact IHs|]. apply Forall_app. split; [exact IHp|].
    constructor; [apply kept_handle | constructor].
  - assert (stable I any p) as Hstable by (eapply Forall_lookup_1; eauto).
    destruct (stable_step I any p (db σ') Hstable IHs) as [Hs' Hp'].
    split; [exact Hs'|]. apply Forall_insert; assumption.
Qed.

End Handlers.

End Guarantee.

(** *** A sample run *)

(** [Sample.alice] rotates her key next to [Sample.bob]: the call
    arrives, loads her account and saves it. *)
Lemma sample_evolution :
  exists pool,
    evolves Sample.env Sample.jwt_verify Sample.jwt_sign Sample.bcrypt_hash Sample.bcrypt_compare
      (mkServer [Sample.alice; Sample.bob] [])
      (mkServer [with_apiKey (Some "pk_00ff") Sample.alice; Sample.bob] pool).
Proof.
  pose proof (evolves_now Sample.env Sample.jwt_verify Sample.jwt_sign Sample.bcrypt_hash
                Sample.bcrypt_compare (mkServer [Sample.alice; Sample.bob] [])) as H0.
  pose proof (evolves_arrive _ _ _ _ _ _ _
                (CallRegenerate "00-ff" (mkHeaders (Some "pk_alice") None)) H0) as H1.
  pose proof (evolves_advance _ _ _ _ _ _ _ 0 _ H1 eq_refl) as H2.
  pose proof (evolves_advance _ _ _ _ _ _ _ 0 _ H2 eq_refl) as H3.
  eexists. exact H3.
Defined.

(** *** Healthy accounts *)

Lemma healthy_patch (d : Doc) (v : User) :
  healthy (fields d) -> healthy v -> healthy (patch d v).
Proof.
  intros (Hc & Hr & Hk) (Hc' & Hr' & Hk'). rewrite patch_fields.
  unfold healthy. simpl. repeat case_decide; auto.
Qed.

Lemma db_save_healthy (d : Doc) (s s' : Store) :
  Forall healthy s -> healthy (fields d) -> db_save d s = inr s' -> Forall healthy s'.
Proof.
  intros Hs Hd. unfold db_save. destruct (isNew d).
  - case_match; [discriminate|]. intros [= <-].
    apply Forall_app. split; [exact Hs|]. constructor; [exact Hd | constructor].
  - case_match; [discriminate|]. case_match; [discriminate|]. intros [= <-].
    apply Forall_fmap. eapply Forall_impl; [exact Hs|].
    intros v Hv. simpl. destruct (bool_decide (_id v = _id (fields d))); [|exact Hv].
    apply healthy_patch; assumption.
Qed.

(** X23. Accounts stay well formed: if every stored account has a key
    that starts with ["pk_"], a count that is not negative and a
    window start, then so has every account in every state the server
    reaches, the accounts created on the way included, whatever calls
    arrive and however they interleave. It holds from the empty
    collection. *)
Theorem accounts_stay_healthy (env : Env) (jwt_verify : string -> string -> Exn + JwtPayload)
    (jwt_sign : JwtPayload -> string -> Z -> string)
    (bcrypt_hash : string -> string -> string) (bcrypt_compare : string -> string -> bool)
    (s0 : Store) (σ : Server) :
  Forall healthy s0 ->
  evolves env jwt_verify jwt_sign bcrypt_hash bcrypt_compare (mkServer s0 []) σ ->
  Forall healthy (db σ).
Proof.
  apply (evolves_kept (Forall healthy) (fun d => healthy (fields d))).
  - intros P s d Hs Hd. destruct (List.find P s) as [u|] eqn:Hu; [|discriminate].
    injection Hd as <-. apply find_some_elem in Hu as [Hin _]. simpl.
    rewrite Forall_forall in Hs. auto.
  - intros d s s'. apply db_save_healthy.
  - auto.
  - intros d (Hc & Hr & Hk). unfold set_dailyCount. rewrite assign_fields.
    repeat split; simpl; auto. lia.
  - intros d (Hc & Hr & Hk). unfold set_dailyCount. rewrite assign_fields.
    repeat split; simpl; auto. lia.
  - intros d now (Hc & Hr & Hk). unfold set_dailyReset. rewrite assign_fields.
    repeat split; simpl; eauto.
  - intros d uuid (Hc & Hr & Hk). unfold set_apiKey. rewrite assign_fields.
    repeat split; simpl; eauto.
  - intros d (Hc & Hr & Hk). unfold set_plan. rewrite assign_fields.
    repeat split; simpl; auto.
  - intros now oid mail hash uuid tier. repeat split; simpl; eauto. lia.
Qed.

Lemma accounts_stay_healthy_witness :
  Forall healthy [with_apiKey (Some "pk_00ff") Sample.alice; Sample.bob].
Proof.
  destruct sample_evolution as [pool Hev].
  refine (accounts_stay_healthy _ _ _ _ _ _ _ _ Hev).
  repeat constructor; simpl; eauto; lia.
Defined.

(** *** What is never lost *)

Lemma upgrades_assign (p : Path) (u' : User) (d : Doc) :
  p <> p_plan -> plan u' = plan (fields d) -> upgrades d -> upgrades (assign p u' d).
Proof.
  intros Hp Hplan Hd. unfold upgrades, assign. case_decide; [exact Hd|].
  simpl. intros Hnew Hmod. rewrite Hplan. apply Hd; [exact Hnew|].
  case_decide; [exact Hmod|]. apply elem_of_cons in Hmod as [Hmod|Hmod]; congruence.
Qed.

Lemma db_save_keeps (s0 : Store) (d : Doc) (s s' : Store) :
  keeps s0 s -> upgrades d -> db_save d s = inr s' -> keeps s0 s'.
Proof.
  intros Hs Hd. unfold db_save. destruct (isNew d) eqn:Hnew.
  - case_match; [discriminate|]. intros [= <-]. intros u Hu.
    destruct (Hs u Hu) as (v & Hv & Hrest). exists v. split; [|exact Hrest].
    apply elem_of_app. left. exact Hv.
  - case_match; [discriminate|]. case_match; [discriminate|]. intros [= <-]. intros u Hu.
    destruct (Hs u Hu) as (v & Hv & Hi & He & Hh & Hc & Hp).
    exists (if bool_decide (_id v = _id (fields d)) then patch d v else v).
    split; [apply (list_elem_of_fmap_2 (fun w => if bool_decide (_id w = _id (fields d))
                                            then patch d w else w) _ _ Hv)|].
    destruct (bool_decide (_id v = _id (fields d))); [|auto].
    rewrite patch_fields. simpl. repeat split; auto.
    intros Hprem. destruct (decide (p_plan ∈ modifiedPaths d)); [apply Hd; auto | auto].
Qed.

(** X24. Nothing is ever lost: in every state the server reaches, every
    account that was stored is still stored under its identifier with
    the same email, the same password hash and the same creation time,
    and an account that was premium is premium. No call deletes an
    account, changes an email or a password, or lowers a plan, however
    the calls interleave. *)
Theorem accounts_kept (env : Env) (jwt_verify : string -> string -> Exn + JwtPayload)
    (jwt_sign : JwtPayload -> string -> Z -> string)
    (bcrypt_hash : string -> string -> string) (bcrypt_compare : string -> string -> bool)
    (s0 : Store) (σ : Server) :
  evolves env jwt_verify jwt_sign bcrypt_hash bcrypt_compare (mkServer s0 []) σ ->
  keeps s0 (db σ).
Proof.
  apply (evolves_kept (keeps s0) upgrades).
  - intros P s d _ Hd. destruct (List.find P s); [|discriminate].
    injection Hd as <-. intros _ Hm. inversion Hm.
  - intros d s s'. apply db_save_keeps.
  - intros d _ _ Hm. inversion Hm.
  - intros d Hd. apply upgrades_assign; [discriminate | reflexivity | exact Hd].
  - intros d Hd. apply upgrades_assign; [discriminate | reflexivity | exact Hd].
  - intros d now Hd. apply upgrades_assign; [discriminate | reflexivity | exact Hd].
  - intros d uuid Hd. apply upgrades_assign; [discriminate | reflexivity | exact Hd].
  - intros d _ _ _. unfold set_plan. rewrite assign_fields. reflexivity.
  - intros now oid mail hash uuid tier Hnew. discriminate Hnew.
  - intros u Hu. exists u. repeat split; auto.
Qed.

Lemma accounts_kept_witness :
  keeps [Sample.alice; Sample.bob] [with_apiKey (Some "pk_00ff") Sample.alice; Sample.bob].
Proof.
  destruct sample_evolution as [pool Hev].
  exact (accounts_kept _ _ _ _ _ _ _ Hev).
Defined.

(** ** The browser client against the server *)

Lemma find_elem {A} (P : A -> bool) (l : list A) (x : A) :
  List.find P l = Some x -> x ∈ l.
Proof. intros H. apply list_elem_of_In. exact (proj1 (List.find_some _ _ H)). Qed.

Lemma put_app_new (u u' : User) (s : Store) :
  id_taken (_id u) s = false -> _id u' = _id u -> put u' (s ++ [u]) = s ++ [u'].
Proof.
  intros Hfree Hid. unfold put. rewrite fmap_app. f_equal.
  - unfold id_taken in Hfree. induction s as [|v s IH]; [reflexivity|].
    simpl in Hfree. apply orb_false_elim in Hfree as [Hv Hs].
    rewrite fmap_cons, IH by exact Hs. f_equal.
    rewrite Hid. rewrite bool_decide_eq_false_2; [reflexivity|].
    intros E. rewrite bool_decide_eq_true_2 in Hv by exact E. discriminate.
  - simpl. rewrite bool_decide_eq_true_2 by (symmetry; exact Hid). reflexivity.
Qed.

Lemma unique_ids_app_new (u : User) (s : Store) :
  unique_ids s -> id_taken (_id u) s = false -> unique_ids (s ++ [u]).
Proof.
  unfold unique_ids. intros Hs Hfree. rewrite fmap_app. apply NoDup_app.
  split; [exact Hs|]. split; [|apply NoDup_singleton].
  intros i Hi Hu. apply list_elem_of_singleton in Hu. subst i.
  apply list_elem_of_fmap in Hi as (v & Hv & Hin).
  unfold id_taken in Hfree. apply not_true_iff_false in Hfree. apply Hfree.
  apply existsb_exists. exists v. split; [apply list_elem_of_In, Hin|].
  apply bool_decide_eq_true_2. symmetry. exact Hv.
Qed.

Section ClientFacts.

Variable env : Env.
Variable jwt_verify : string -> string -> Exn + JwtPayload.
Context {Page : Type}.
Variable blank : Page.
Variable max_length : nat.
Variable drawText : string -> Page -> Page.
Variable font_encodes : string -> bool.

(** What the route of a button answers for a readable document with a
    first page. *)
Local Abbreviation button_result b first rest :=
  (match b with
   | App.Merge => Download "merged.pdf" (first :: rest)
   | App.Split => Download "split.pdf" [first]
   | App.Compress => Download "compressed.pdf" (first :: rest)
   | App.Sign => Download "signed.pdf" (drawText "Signed" first :: rest)
   end).

Lemma run_handler (b : App.Button) (first : Page) (rest : list Page) (s : Store) :
  run (App.handler blank max_length drawText font_encodes b (ValidPdf (first :: rest))) s
  = (s, inr (button_result b first rest)).
Proof.
  destruct b; cbn [App.handler].
  - unfold merge. rewrite run_try_catch. cbn [bool_decide decide_rel].
    rewrite bool_decide_eq_false_2 by discriminate.
    rewrite run_bind.
    change [ValidPdf (first :: rest)] with (ValidPdf <$> [first :: rest]).
    rewrite (run_merge_files [first :: rest] [] s).
    simpl. rewrite app_nil_r. reflexivity.
  - rewrite split_valid. reflexivity.
  - unfold compress. rewrite run_try_catch. simpl. rewrite copyPages_all. reflexivity.
  - reflexivity.
Qed.

Lemma run_callApi (now : Z) (b : App.Button) (st : App.State Page) (key : string) (u : User)
    (first : Page) (rest : list Page) (s : Store) :
  unique_ids s -> App.apiKey st = Some key -> key <> "" ->
  List.find (matches (ByApiKey key)) s = Some u ->
  App.file st = Some (ValidPdf (first :: rest)) ->
  run (App.callApi env jwt_verify blank max_length drawText font_encodes now b st) s
  = if JS.ge (count_at now u) (limit env (hydrate u))
    then (put (rolled now u) s,
          inr (App.mkState (App.email st) (App.password st) (App.token st) (App.apiKey st)
                 (App.file st) "Error" (App.stored_token st) (App.stored_apiKey st)
                 (App.events st ++ [App.AlertBody quota_exceeded])))
    else (put (with_dailyCount (count_at now u + 1) (rolled now u)) (put (rolled now u) s),
          inr (App.mkState (App.email st) (App.password st) (App.token st) (App.apiKey st)
                 (App.file st) "Done" (App.stored_token st) (App.stored_apiKey st)
                 (App.events st ++ [App.Saved (button_result b first rest)]))).
Proof.
  intros Hids Hkey Hne Hfind Hfile.
  unfold App.callApi. rewrite Hfile, Hkey. cbv [App.to_string default from_option id].
  rewrite run_bind. unfold route. rewrite run_bind. unfold protected. rewrite run_bind.
  rewrite run_auth_key by exact Hne. unfold db_findOne. rewrite Hfind. cbn [fmap option_fmap option_map].
  rewrite run_enforceLimit_cases by (try exact Hids; eapply find_elem; exact Hfind).
  destruct (JS.ge _ _).
  - reflexivity.
  - cbn [run]. rewrite run_handler. destruct b; reflexivity.
Qed.

End ClientFacts.

(** X25. A signup from the page sends the email and the password and
    no plan, so the account it creates is on the free plan whatever the
    user does; the page then holds the token and the key of the new
    account, in its state and in [localStorage], and shows
    ["Signed up"]. *)
Theorem ui_signup_free (env : Env) (jwt_sign : JwtPayload -> string -> Z -> string)
    (bcrypt_hash : string -> string -> string) (Page : Type)
    (now : Z) (oid : ObjectId) (salt uuid : string) (st : App.State Page) (s : Store) :
  App.email st <> "" -> App.password st <> "" ->
  lookup_email (Some (App.email st)) s = None ->
  id_taken oid s = false -> apiKey_taken oid (Some (genApiKey uuid)) s = false ->
  let token := jwt_sign (mkPayload oid (App.email st)) (JWT_SECRET env) now in
  run (App.signup env jwt_sign bcrypt_hash now oid salt uuid st) s
  = (s ++ [mkUser oid (App.email st) (bcrypt_hash (App.password st) salt)
                  (Some (genApiKey uuid)) free now 0 (Some now)],
     inr (App.mkState (App.email st) (App.password st) (Some token) (Some (genApiKey uuid))
            (App.file st) "Signed up" (Some token) (Some (genApiKey uuid)) (App.events st))).
Proof.
  intros He Hpw Hnew Hid Hkey token. unfold App.signup. rewrite run_bind.
  rewrite (run_signup_ok env jwt_sign bcrypt_hash now oid salt uuid
             (App.email st) (App.password st) None s) by assumption.
  reflexivity.
Qed.

Lemma ui_signup_free_witness :
  run (App.signup Sample.env Sample.jwt_sign Sample.bcrypt_hash 7000 "c3" "salt" "00-11"
         (App.mkState (Page := string) "carol@example.com" "rabbit" (Some "") (Some "")
            None "" None None [])) [Sample.alice]
  = ([Sample.alice;
      mkUser "c3" "carol@example.com" "rabbit" (Some "pk_0011") free 7000 0 (Some 7000)],
     inr (App.mkState "carol@example.com" "rabbit" (Some "change_this_jwt_secret:c3")
            (Some "pk_0011") None "Signed up" (Some "change_this_jwt_secret:c3")
            (Some "pk_0011") [])).
Proof.
  exact (ui_signup_free Sample.env Sample.jwt_sign Sample.bcrypt_hash string 7000 "c3" "salt"
           "00-11"
           (App.mkState "carol@example.com" "rabbit" (Some "") (Some "") None "" None None [])
           [Sample.alice]
           ltac:(discriminate) ltac:(discriminate) eq_refl eq_refl eq_refl).
Defined.

(** X26. A page that holds no key (nothing usable in [localStorage]
    when it mounted, and no signup or login since) cannot use any
    button: with a file chosen the request goes out with an empty
    [x-api-key], is answered 401 ["No credentials"] before any account
    is read or charged, and the page shows ["Error"] and the answer.
    With no file chosen no request is made at all. *)
Theorem ui_unauthenticated (env : Env) (jwt_verify : string -> string -> Exn + JwtPayload)
    (Page : Type) (blank : Page) (max_length : nat) (drawText : string -> Page -> Page)
    (font_encodes : string -> bool)
    (now : Z) (b : App.Button) (s : Store) :
  (forall stored_token stored_apiKey,
     JS.truthy stored_apiKey = false ->
     App.apiKey (App.mount (Page := Page) stored_token stored_apiKey) = Some "") /\
  (forall (st : App.State Page) f,
     App.apiKey st = Some "" -> App.file st = Some f ->
     run (App.callApi env jwt_verify blank max_length drawText font_encodes now b st) s
     = (s, inr (App.mkState (App.email st) (App.password st) (App.token st) (Some "")
                  (Some f) "Error" (App.stored_token st) (App.stored_apiKey st)
                  (App.events st ++ [App.AlertBody (reply 401 "No credentials")])))) /\
  (forall st : App.State Page,
     App.file st = None ->
     run (App.callApi env jwt_verify blank max_length drawText font_encodes now b st) s
     = (s, inr (App.mkState (App.email st) (App.password st) (App.token st) (App.apiKey st)
                  None (App.status st) (App.stored_token st) (App.stored_apiKey st)
                  (App.events st ++ [App.Alert "Choose file"])))).
Proof.
  split; [|split].
  - intros stored_token [key|] Hkey; [|reflexivity].
    unfold JS.truthy in Hkey. apply negb_false_iff, bool_decide_eq_true in Hkey.
    subst key. reflexivity.
  - intros st f Hkey Hfile. unfold App.callApi. rewrite Hfile, Hkey. reflexivity.
  - intros st Hfile. unfold App.callApi. rewrite Hfile. reflexivity.
Qed.

(** A first visit: nothing stored, a file picked, Merge pressed. *)
Lemma ui_unauthenticated_witness :
  run (App.callApi Sample.env Sample.jwt_verify "" 8 (fun name page => (name ++ page)%string)
         (fun _ => false) 2000
         App.Merge (App.pick (Some (ValidPdf ["p1"])) (App.mount None None))) [Sample.alice]
  = ([Sample.alice],
     inr (App.mkState "" "" (Some "") (Some "") (Some (ValidPdf ["p1"])) "Error" None None
            [App.AlertBody (reply 401 "No credentials")])).
Proof.
  exact (proj1 (proj2 (ui_unauthenticated Sample.env Sample.jwt_verify string "" 8
                         (fun name page => (name ++ page)%string) (fun _ => false) 2000 App.Merge
                         [Sample.alice]))
           (App.pick (Some (ValidPdf ["p1"])) (App.mount None None)) (ValidPdf ["p1"])
           eq_refl eq_refl).
Defined.

(** X27. A button pressed on a page that holds the key of an account,
    with a readable document of at least one page chosen: the account
    is charged exactly as by the quota check, and within the quota the
    page saves the answer of the route and shows ["Done"] - all pages
    for Merge and Compress, the first page for Split (the page never
    sends a pages specification), all pages with ["Signed"] drawn on
    the first for Sign (the page never sends a name). At the quota the
    page shows ["Error"] and the 429 answer, and saves nothing. *)
Theorem ui_button (env : Env) (jwt_verify : string -> string -> Exn + JwtPayload)
    (Page : Type) (blank : Page) (max_length : nat) (drawText : string -> Page -> Page)
    (font_encodes : string -> bool)
    (now : Z) (b : App.Button) (st : App.State Page) (key : string) (u : User)
    (first : Page) (rest : list Page) (s : Store) :
  unique_ids s -> App.apiKey st = Some key -> key <> "" ->
  List.find (matches (ByApiKey key)) s = Some u ->
  App.file st = Some (ValidPdf (first :: rest)) ->
  let shown status event :=
    App.mkState (App.email st) (App.password st) (App.token st) (App.apiKey st)
      (App.file st) status (App.stored_token st) (App.stored_apiKey st)
      (App.events st ++ [event]) in
  run (App.callApi env jwt_verify blank max_length drawText font_encodes now b st) s
  = if JS.ge (count_at now u) (limit env (hydrate u))
    then (put (rolled now u) s, inr (shown "Error" (App.AlertBody quota_exceeded)))
    else (put (with_dailyCount (count_at now u + 1) (rolled now u)) (put (rolled now u) s),
          inr (shown "Done"
                 (App.Saved
                    match b with
                    | App.Merge => Download "merged.pdf" (first :: rest)
                    | App.Split => Download "split.pdf" [first]
                    | App.Compress => Download "compressed.pdf" (first :: rest)
                    | App.Sign => Download "signed.pdf" (drawText "Signed" first :: rest)
                    end))).
Proof. intros. apply run_callApi with (key := key); assumption. Qed.

(** [Sample.alice], at 19 of 20, presses Sign on a two-page document. *)
Lemma ui_button_witness :
  run (App.callApi Sample.env Sample.jwt_verify "" 8 (fun name page => (name ++ page)%string)
         (fun _ => false) 2000
         App.Sign
         (App.mkState "" "" (Some "") (Some "pk_alice") (Some (ValidPdf ["-p1"; "-p2"])) ""
            None (Some "pk_alice") [])) [Sample.alice; Sample.bob]
  = ([with_dailyCount 20 Sample.alice; Sample.bob],
     inr (App.mkState "" "" (Some "") (Some "pk_alice") (Some (ValidPdf ["-p1"; "-p2"]))
            "Done" None (Some "pk_alice")
            [App.Saved (Download "signed.pdf" ["Signed-p1"; "-p2"])])).
Proof.
  exact (ui_button Sample.env Sample.jwt_verify string "" 8
           (fun name page => (name ++ page)%string) (fun _ => false)
           2000 App.Sign
           (App.mkState "" "" (Some "") (Some "pk_alice") (Some (ValidPdf ["-p1"; "-p2"])) ""
              None (Some "pk_alice") [])
           "pk_alice" Sample.alice "-p1" ["-p2"] [Sample.alice; Sample.bob]
           ltac:(apply (bool_decide_unpack _); vm_compute; exact I)
           eq_refl ltac:(discriminate) eq_refl eq_refl).
Defined.

(** X28. A new user who signs up on the page, picks a readable document
    with at least one page and presses Split gets the first page of the
    document, provided the free limit admits a first request: the new
    account is the only one touched, and its count is then 1. *)
Theorem ui_signup_then_split (env : Env) (jwt_verify : string -> string -> Exn + JwtPayload)
    (jwt_sign : JwtPayload -> string -> Z -> string)
    (bcrypt_hash : string -> string -> string)
    (Page : Type) (blank : Page) (max_length : nat) (drawText : string -> Page -> Page)
    (font_encodes : string -> bool)
    (now later : Z) (oid : ObjectId) (salt uuid : string) (st : App.State Page)
    (first : Page) (rest : list Page) (s : Store) :
  unique_ids s ->
  App.email st <> "" -> App.password st <> "" ->
  lookup_email (Some (App.email st)) s = None ->
  id_taken oid s = false -> apiKey_taken oid (Some (genApiKey uuid)) s = false ->
  JS.ge 0 (FREE_LIMIT env) = false ->
  let token := jwt_sign (mkPayload oid (App.email st)) (JWT_SECRET env) now in
  run (st1 ← App.signup env jwt_sign bcrypt_hash now oid salt uuid st;
       App.callApi env jwt_verify blank max_length drawText font_encodes later App.Split
         (App.pick (Some (ValidPdf (first :: rest))) st1)) s
  = (s ++ [mkUser oid (App.email st) (bcrypt_hash (App.password st) salt)
                  (Some (genApiKey uuid)) free now 1
                  (Some (if expired later (Some now) then later else now))],
     inr (App.mkState (App.email st) (App.password st) (Some token) (Some (genApiKey uuid))
            (Some (ValidPdf (first :: rest))) "Done" (Some token) (Some (genApiKey uuid))
            (App.events st ++ [App.Saved (Download "split.pdf" [first])]))).
Proof.
  intros Hids He Hpw Hnew Hid Hkey Hlim token.
  set (account := mkUser oid (App.email st) (bcrypt_hash (App.password st) salt)
                    (Some (genApiKey uuid)) free now 0 (Some now)).
  rewrite run_bind. unfold App.signup. rewrite run_bind.
  rewrite (run_signup_ok env jwt_sign bcrypt_hash now oid salt uuid
             (App.email st) (App.password st) None s) by assumption.
  cbn [run]. rewrite bool_decide_eq_false_2 by discriminate. fold account.
  rewrite (run_callApi env jwt_verify blank max_length drawText font_encodes later App.Split _ (genApiKey uuid) account
             first rest (s ++ [account])).
  - assert (count_at later account = 0) as ->
      by (unfold count_at; destruct (expired _ _); reflexivity).
    change (limit env (hydrate account)) with (FREE_LIMIT env). rewrite Hlim.
    rewrite (put_app_new account (rolled later account) s Hid) by apply rolled_id.
    rewrite (put_app_new (rolled later account) _ s);
      [| rewrite rolled_id; exact Hid | reflexivity].
    unfold rolled. cbn [dailyReset account]. destruct (expired later (Some now)); reflexivity.
  - apply unique_ids_app_new; assumption.
  - reflexivity.
  - unfold genApiKey. discriminate.
  - apply find_app_None; [exact (key_free_find oid _ s Hid Hkey)|].
    simpl. apply bool_decide_eq_true_2. reflexivity.
  - reflexivity.
Qed.

(** Carol signs up at 7000 and splits a three-page document at 8000. *)
Lemma ui_signup_then_split_witness :
  run (st1 ← App.signup Sample.env Sample.jwt_sign Sample.bcrypt_hash 7000 "c3" "salt" "00-11"
               (App.mkState (Page := string) "carol@example.com" "rabbit" (Some "") (Some "")
                  None "" None None []);
       App.callApi Sample.env Sample.jwt_verify "" 8 (fun name page => (name ++ page)%string)
         (fun _ => false) 8000
         App.Split (App.pick (Some (ValidPdf ["p1"; "p2"; "p3"])) st1)) [Sample.alice]
  = ([Sample.alice;
      mkUser "c3" "carol@example.com" "rabbit" (Some "pk_0011") free 7000 1 (Some 7000)],
     inr (App.mkState "carol@example.com" "rabbit" (Some "change_this_jwt_secret:c3")
            (Some "pk_0011") (Some (ValidPdf ["p1"; "p2"; "p3"])) "Done"
            (Some "change_this_jwt_secret:c3") (Some "pk_0011")
            [App.Saved (Download "split.pdf" ["p1"])])).
Proof.
  exact (ui_signup_then_split Sample.env Sample.jwt_verify Sample.jwt_sign Sample.bcrypt_hash
           string "" 8 (fun name page => (name ++ page)%string) (fun _ => false) 7000 8000 "c3" "salt" "00-11"
           (App.mkState "carol@example.com" "rabbit" (Some "") (Some "") None "" None None [])
           "p1" ["p2"; "p3"] [Sample.alice]
           ltac:(apply (bool_decide_unpack _); vm_compute; exact I)
           ltac:(discriminate) ltac:(discriminate) eq_refl eq_refl eq_refl eq_refl).
Defined.

(** X29. A login from the page never changes the collection. With the
    email of an account and a password that verifies, the page then
    holds a token for that account and its stored key, in its state and
    in [localStorage] (where a missing key is kept as the text
    ["undefined"]), and shows ["Logged in"]. With an unknown email or a
    password that does not verify, the page shows
    ["Invalid credentials"] and keeps the credentials it held, so its
    buttons go on acting for the account of the earlier session. *)
Theorem ui_login (env : Env) (jwt_sign : JwtPayload -> string -> Z -> string)
    (bcrypt_compare : string -> string -> bool) (Page : Type)
    (now : Z) (st : App.State Page) (s : Store) :
  (forall u,
     lookup_email (Some (App.email st)) s = Some u ->
     bcrypt_compare (App.password st) (passwordHash u) = true ->
     let token := jwt_sign (mkPayload (_id u) (email u)) (JWT_SECRET env) now in
     run (App.login env jwt_sign bcrypt_compare now st) s
     = (s, inr (App.mkState (App.email st) (App.password st) (Some token) (apiKey u)
                  (App.file st) "Logged in" (Some token)
                  (Some (default "undefined" (apiKey u))) (App.events st)))) /\
  (match lookup_email (Some (App.email st)) s with
   | Some u => bcrypt_compare (App.password st) (passwordHash u) = false
   | None => True
   end ->
   run (App.login env jwt_sign bcrypt_compare now st) s
   = (s, inr (App.mkState (App.email st) (App.password st) (App.token st) (App.apiKey st)
                (App.file st) "Invalid credentials" (App.stored_token st)
                (App.stored_apiKey st) (App.events st)))).
Proof.
  split.
  - intros u Hu Hcmp token. unfold App.login. rewrite run_bind. unfold login.
    rewrite run_try_catch, run_findOne_email. cbn [form_email]. rewrite Hu.
    simpl fmap. cbv iota. rewrite run_bind. simpl. rewrite Hcmp. reflexivity.
  - intros Hfail. unfold App.login. rewrite run_bind. unfold login.
    rewrite run_try_catch, run_findOne_email. cbn [form_email].
    destruct (lookup_email (Some (App.email st)) s) as [u|]; [|reflexivity].
    simpl fmap. cbv iota. rewrite run_bind. simpl. rewrite Hfail. reflexivity.
Qed.

(** [Sample.alice] logs in on a page that held the key of
    [Sample.bob]; then with a wrong password. *)
Lemma ui_login_witness :
  run (App.login Sample.env Sample.jwt_sign Sample.bcrypt_compare 5000
         (App.mkState (Page := string) "alice@example.com" "wonderland" (Some "t") (Some "pk_bob")
            None "" (Some "t") (Some "pk_bob") [])) [Sample.alice; Sample.bob]
    = ([Sample.alice; Sample.bob],
       inr (App.mkState "alice@example.com" "wonderland" (Some "change_this_jwt_secret:a1")
              (Some "pk_alice") None "Logged in" (Some "change_this_jwt_secret:a1")
              (Some "pk_alice") [])) /\
  run (App.login Sample.env Sample.jwt_sign Sample.bcrypt_compare 5000
         (App.mkState (Page := string) "alice@example.com" "looking-glass" (Some "t")
            (Some "pk_bob") None "" (Some "t") (Some "pk_bob") [])) [Sample.alice; Sample.bob]
    = ([Sample.alice; Sample.bob],
       inr (App.mkState "alice@example.com" "looking-glass" (Some "t") (Some "pk_bob")
              None "Invalid credentials" (Some "t") (Some "pk_bob") [])).
Proof.
  split.
  - exact (proj1 (ui_login Sample.env Sample.jwt_sign Sample.bcrypt_compare string 5000
                    (App.mkState "alice@example.com" "wonderland" (Some "t") (Some "pk_bob")
                       None "" (Some "t") (Some "pk_bob") [])
                    [Sample.alice; Sample.bob])
             Sample.alice eq_refl eq_refl).
  - exact (proj2 (ui_login Sample.env Sample.jwt_sign Sample.bcrypt_compare string 5000
                    (App.mkState "alice@example.com" "looking-glass" (Some "t") (Some "pk_bob")
                       None "" (Some "t") (Some "pk_bob") [])
                    [Sample.alice; Sample.bob])
             eq_refl).
Defined.
